(** * Amana marketing dashboard: the aggregation layer

    A shallow embedding of the aggregators of the four dashboard views
    (demographic, device, region, weekly) and of the fetcher, followed by
    the properties of the specification that they satisfy or break.

    Conventions of the embedding.
    - A JavaScript [number] is an IEEE double.  It is modelled by an exact
      rational for every finite value and by three further values for
      [Infinity], [-Infinity] and [NaN]: rounding, overflow and the sign of
      zero are left out, so that "equal within floating-point tolerance"
      reads as equality.
    - An optional field [x?: T] is an [option T]; [x ?? d] is [nullish x d].
    - A [Map] keeps its keys in insertion order: it is an association list
      in which [set] overwrites in place or appends.
    - A string is a sequence of bytes, compared for equality byte by
      byte.  What [String.prototype] computes from the Unicode tables
      ([toLowerCase], [trim], the order of [sort()]) is a parameter of
      the views, the class [Unicode]; the examples run on its instance
      for strings of ASCII characters. *)

From Stdlib Require Import List String Ascii Bool Arith ZArith QArith Qcanon Qround Lia.
From Stdlib Require Import Sorting.Sorted Sorting.Permutation.
Import ListNotations.

Set Implicit Arguments.
Open Scope string_scope.
Open Scope list_scope.

(* ================================================================== *)
(** ** JavaScript numbers *)

Module JsNumber.

Inductive number : Type :=
| Fin (q : Qc)
| PosInf
| NegInf
| NaN.

Definition ofZ (z : Z) : number := Fin (Q2Qc (inject_Z z)).
Definition ofNat (n : nat) : number := ofZ (Z.of_nat n).
Definition zero : number := ofZ 0.
Definition one : number := ofZ 1.
Definition hundred : number := ofZ 100.

(** [Number.isFinite] *)
Definition isFinite (x : number) : bool :=
  match x with Fin _ => true | _ => false end.

Definition neg (x : number) : number :=
  match x with
  | Fin a => Fin (- a)
  | PosInf => NegInf
  | NegInf => PosInf
  | NaN => NaN
  end.

(** [x + y] *)
Definition add (x y : number) : number :=
  match x, y with
  | NaN, _ | _, NaN => NaN
  | Fin a, Fin b => Fin (a + b)
  | PosInf, NegInf | NegInf, PosInf => NaN
  | PosInf, _ | _, PosInf => PosInf
  | NegInf, _ | _, NegInf => NegInf
  end.

(** [x - y] *)
Definition sub (x y : number) : number := add x (neg y).

(** The product of an infinity of sign [pos] with the finite [a]. *)
Definition scaleInf (pos : bool) (a : Qc) : number :=
  match (a ?= 0)%Qc with
  | Eq => NaN
  | Gt => if pos then PosInf else NegInf
  | Lt => if pos then NegInf else PosInf
  end.

(** [x * y] *)
Definition mul (x y : number) : number :=
  match x, y with
  | NaN, _ | _, NaN => NaN
  | Fin a, Fin b => Fin (a * b)
  | PosInf, Fin b => scaleInf true b
  | NegInf, Fin b => scaleInf false b
  | Fin a, PosInf => scaleInf true a
  | Fin a, NegInf => scaleInf false a
  | PosInf, PosInf | NegInf, NegInf => PosInf
  | PosInf, NegInf | NegInf, PosInf => NegInf
  end.

(** [x / y]; the zero of the model is the positive one. *)
Definition div (x y : number) : number :=
  match x, y with
  | NaN, _ | _, NaN => NaN
  | Fin a, Fin b =>
      match (b ?= 0)%Qc with
      | Eq => scaleInf true a
      | _ => Fin (a / b)
      end
  | Fin _, (PosInf | NegInf) => Fin 0
  | PosInf, Fin b => match (b ?= 0)%Qc with Lt => NegInf | _ => PosInf end
  | NegInf, Fin b => match (b ?= 0)%Qc with Lt => PosInf | _ => NegInf end
  | (PosInf | NegInf), (PosInf | NegInf) => NaN
  end.

(** [x > y]: false as soon as one side is [NaN]. *)
Definition gt (x y : number) : bool :=
  match x, y with
  | NaN, _ | _, NaN => false
  | Fin a, Fin b => match (a ?= b)%Qc with Gt => true | _ => false end
  | PosInf, PosInf => false
  | PosInf, _ => true
  | _, NegInf => match x with NegInf => false | _ => true end
  | _, _ => false
  end.

(** [x < y] and [x <= y], with the same treatment of [NaN]. *)
Definition lt (x y : number) : bool := gt y x.

Definition le (x y : number) : bool :=
  match x, y with
  | NaN, _ | _, NaN => false
  | _, _ => negb (gt x y)
  end.

(** [x ?? d] on an optional field. *)
Definition nullish {A : Type} (x : option A) (d : A) : A :=
  match x with Some v => v | None => d end.

(** The coercion of the device, region and week aggregators:
    [const v = Number(x ?? 0); ... Number.isFinite(v) ? v : 0]. *)
Definition finiteOrZero (x : option number) : number :=
  let v := nullish x zero in
  if isFinite v then v else zero.

End JsNumber.
Import JsNumber.

(* ================================================================== *)
(** ** JavaScript strings *)

Module JsString.

(** The functions of [String.prototype] that rest on the Unicode tables:
    [s.toLowerCase()] lowers every cased letter, [s.trim()] strips every
    Unicode white space and line terminator from both ends, and
    [compareCodeUnits] is the order [sort()] without comparator puts two
    strings in, the one of their UTF-16 code units.  The views take them
    from this class, so that what is proved of a view for every instance
    holds for the functions of the engine. *)
Class Unicode : Type := {
  toLowerCase : string -> string;
  trim : string -> string;
  compareCodeUnits : string -> string -> comparison
}.

(** [a] is not behind [b] in the order of the code units. *)
Definition notBehind {U : Unicode} (a b : string) : Prop :=
  compareCodeUnits a b <> Gt.

(** The comparison of the code units is an order: swapping the two
    strings reverses its result, and it is transitive. *)
Definition codeUnitOrder (U : Unicode) : Prop :=
  (forall a b : string, compareCodeUnits a b = CompOpp (compareCodeUnits b a))
  /\ (forall a b c : string, notBehind a b -> notBehind b c -> notBehind a c).

(** The three functions on strings of ASCII characters. *)
Module ASCII.

(** [c.toLowerCase()] for one character: the letters [A]..[Z] move to
    [a]..[z], every other character stays. *)
Definition lowerChar (c : ascii) : ascii :=
  let n := nat_of_ascii c in
  if andb (65 <=? n)%nat (n <=? 90)%nat then ascii_of_nat (n + 32) else c.

(** [s.toLowerCase()] *)
Fixpoint toLowerCase (s : string) : string :=
  match s with
  | EmptyString => EmptyString
  | String c s' => String (lowerChar c) (toLowerCase s')
  end.

(** The ASCII white space: tab, line feed, vertical tab, form feed,
    carriage return and space. *)
Definition isSpace (c : ascii) : bool :=
  let n := nat_of_ascii c in
  orb (andb (9 <=? n)%nat (n <=? 13)%nat) (n =? 32)%nat.

Fixpoint trimStart (s : string) : string :=
  match s with
  | EmptyString => EmptyString
  | String c s' => if isSpace c then trimStart s' else s
  end.

(** Drops the trailing white space: a suffix made of white space only
    becomes empty. *)
Fixpoint trimEnd (s : string) : string :=
  match s with
  | EmptyString => EmptyString
  | String c s' =>
      match trimEnd s' with
      | EmptyString => if isSpace c then EmptyString else String c EmptyString
      | t => String c t
      end
  end.

(** [s.trim()] *)
Definition trim (s : string) : string := trimEnd (trimStart s).

End ASCII.

(** On ASCII characters a code unit is a byte. *)
#[export] Instance asciiStrings : Unicode :=
  {| toLowerCase := ASCII.toLowerCase;
     trim := ASCII.trim;
     compareCodeUnits := String.compare |}.

(** [xs.includes(x)] on an array of strings. *)
Definition includes (xs : list string) (x : string) : bool :=
  existsb (String.eqb x) xs.

End JsString.
Import JsString.

(* ================================================================== *)
(** ** JavaScript [Map] and [Array.prototype.sort] *)

Module JsMap.
Section WithKey.
Variables K V : Type.
Variable eqb : K -> K -> bool.

(** The entries in insertion order. *)
Definition t : Type := list (K * V).

Definition empty : t := [].

(** [m.get(k)]: [None] stands for [undefined]. *)
Fixpoint get (m : t) (k : K) : option V :=
  match m with
  | [] => None
  | (k', v) :: m' => if eqb k' k then Some v else get m' k
  end.

(** [m.set(k, v)]: an existing key keeps its position. *)
Fixpoint set (m : t) (k : K) (v : V) : t :=
  match m with
  | [] => [(k, v)]
  | (k', v') :: m' =>
      if eqb k' k then (k', v) :: m' else (k', v') :: set m' k v
  end.

(** [Array.from(m.keys())] and [Array.from(m.values())] *)
Definition keys (m : t) : list K := map fst m.
Definition values (m : t) : list V := map snd m.

End WithKey.
End JsMap.

Module JsArray.
Section Sort.
Variable A : Type.
(** The comparator [(a, b) => ...]: its result is a number. *)
Variable cmp : A -> A -> number.

(** [x] goes behind every leading element that compares greater than
    it; a comparator result of [NaN] counts as [0]. *)
Fixpoint insert (x : A) (l : list A) : list A :=
  match l with
  | [] => [x]
  | y :: l' => if gt (cmp x y) zero then y :: insert x l' else x :: l
  end.

(** [l.sort(cmp)]: a stable sort (ECMAScript 2019); on a comparator
    that orders the elements consistently every stable sort returns
    this list. *)
Fixpoint sort (l : list A) : list A :=
  match l with
  | [] => []
  | x :: l' => insert x (sort l')
  end.

End Sort.
End JsArray.

Definition StringMap (V : Type) : Type := JsMap.t string V.
Definition sget {V : Type} (m : StringMap V) (k : string) : option V :=
  JsMap.get String.eqb m k.
Definition sset {V : Type} (m : StringMap V) (k : string) (v : V) : StringMap V :=
  JsMap.set String.eqb m k v.

(* ================================================================== *)
(** ** The campaign records of the payload *)

(** [performance?: { impressions?, clicks?, conversions? }] *)
Module Performance.
Record t : Type := {
  impressions : option number;
  clicks : option number;
  conversions : option number
}.
End Performance.

(** [DemographicBreakdown] of the demographic view. *)
Module DemographicBreakdown.
Record t : Type := {
  age_group : option string;
  gender : option string;
  percentage_of_audience : option number;
  performance : option Performance.t
}.
End DemographicBreakdown.

(** Modelled from the spec: the entry types of [src/types/marketing] are
    not among the sources; the fields are those of section 3 of the
    specification, optional where the aggregators guard them with [??]
    or [?.] and plain where they use them unguarded. *)
Module DeviceStat.
Record t : Type := {
  device : option string;
  impressions : option number;
  clicks : option number;
  conversions : option number;
  spend : option number;
  revenue : option number
}.
End DeviceStat.

Module RegionStat.
Record t : Type := {
  region : string;
  country : string;
  spend : option number;
  revenue : option number
}.
End RegionStat.

Module WeekStat.
Record t : Type := {
  week_start : string;
  week_end : string;
  spend : option number;
  revenue : option number
}.
End WeekStat.

(** [Campaign]: the three fields of the demographic view's own type and
    the three breakdowns read by the other views. *)
Module Campaign.
Record t : Type := {
  spend : option number;
  revenue : option number;
  demographic_breakdown : option (list DemographicBreakdown.t);
  device_performance : option (list DeviceStat.t);
  regional_performance : option (list RegionStat.t);
  weekly_performance : option (list WeekStat.t)
}.
End Campaign.

(* ================================================================== *)
(** ** Demographic view: [app/demographic-view/page.tsx] *)

Module DemographicView.

Module AgeMetrics.
Record t : Type := {
  spend : number;
  revenue : number;
  impressions : number;
  clicks : number;
  conversions : number
}.
End AgeMetrics.

Module GenderMetrics.
Record t : Type := {
  clicks : number;
  spend : number;
  revenue : number
}.
End GenderMetrics.

(** [GenderTotals]: an object with exactly the keys [male] and [female]. *)
Module GenderTotals.
Record t : Type := {
  male : GenderMetrics.t;
  female : GenderMetrics.t
}.
End GenderTotals.

Definition AgeTotals : Type := StringMap AgeMetrics.t.

Module GenderAgeTotals.
Record t : Type := {
  male : AgeTotals;
  female : AgeTotals
}.
End GenderAgeTotals.

(** The two values of [genderKey] that pass
    [genderKey === 'male' || genderKey === 'female']. *)
Inductive GenderKey : Type := Male | Female.

Definition genderKeyOf (genderKey : string) : option GenderKey :=
  if String.eqb genderKey "male" then Some Male
  else if String.eqb genderKey "female" then Some Female
  else None.

Definition AGE_GROUP_ORDER : list string :=
  ["18-24"; "25-34"; "35-44"; "45-54"; "55+"].

Definition createEmptyAgeMetrics : AgeMetrics.t :=
  {| AgeMetrics.spend := zero; AgeMetrics.revenue := zero;
     AgeMetrics.impressions := zero; AgeMetrics.clicks := zero;
     AgeMetrics.conversions := zero |}.

(** What [aggregateCampaignMetrics] returns. *)
Record Aggregates : Type := {
  genderTotals : GenderTotals.t;
  ageTotals : AgeTotals;
  genderAgeTotals : GenderAgeTotals.t
}.

Definition emptyGenderMetrics : GenderMetrics.t :=
  {| GenderMetrics.clicks := zero; GenderMetrics.spend := zero;
     GenderMetrics.revenue := zero |}.

Definition emptyAggregates : Aggregates :=
  {| genderTotals := {| GenderTotals.male := emptyGenderMetrics;
                        GenderTotals.female := emptyGenderMetrics |};
     ageTotals := JsMap.empty _ _;
     genderAgeTotals := {| GenderAgeTotals.male := JsMap.empty _ _;
                           GenderAgeTotals.female := JsMap.empty _ _ |} |}.

(** [breakdowns.reduce((sum, b) => sum + (b.percentage_of_audience ?? 0), 0)] *)
Definition totalPercentage (breakdowns : list DemographicBreakdown.t) : number :=
  fold_left
    (fun sum breakdown =>
       add sum (nullish (DemographicBreakdown.percentage_of_audience breakdown) zero))
    breakdowns zero.

(** The [share] of one segment:
    [pct !== undefined && totalPercentage > 0 ? pct / totalPercentage
                                              : 1 / breakdowns.length]. *)
Definition share (total : number) (count : nat) (segment : DemographicBreakdown.t)
  : number :=
  match DemographicBreakdown.percentage_of_audience segment with
  | Some pct => if gt total zero then div pct total else div one (ofNat count)
  | None => div one (ofNat count)
  end.

(** [segment.performance?.f ?? 0] *)
Definition performanceField (f : Performance.t -> option number)
  (segment : DemographicBreakdown.t) : number :=
  match DemographicBreakdown.performance segment with
  | Some p => nullish (f p) zero
  | None => zero
  end.

Section Aggregator.
Context {unicode : Unicode}.

(** [(segment.gender ?? '').toLowerCase()] and [segment.age_group ?? 'Unknown'] *)
Definition genderKey (segment : DemographicBreakdown.t) : string :=
  toLowerCase (nullish (DemographicBreakdown.gender segment) "").

Definition ageGroup (segment : DemographicBreakdown.t) : string :=
  nullish (DemographicBreakdown.age_group segment) "Unknown".

(** [map.set(ageGroup, { ...current + contribution })] with
    [current = map.get(ageGroup) ?? createEmptyAgeMetrics()]. *)
Definition addAgeMetrics (m : AgeTotals) (key : string)
  (spendShare revenueShare impressions clicks conversions : number) : AgeTotals :=
  let current := nullish (sget m key) createEmptyAgeMetrics in
  sset m key
    {| AgeMetrics.spend := add (AgeMetrics.spend current) spendShare;
       AgeMetrics.revenue := add (AgeMetrics.revenue current) revenueShare;
       AgeMetrics.impressions := add (AgeMetrics.impressions current) impressions;
       AgeMetrics.clicks := add (AgeMetrics.clicks current) clicks;
       AgeMetrics.conversions := add (AgeMetrics.conversions current) conversions |}.

(** [genderTotals[genderKey].clicks += clicks] and its two siblings. *)
Definition addGenderMetrics (g : GenderMetrics.t)
  (clicks spendShare revenueShare : number) : GenderMetrics.t :=
  {| GenderMetrics.clicks := add (GenderMetrics.clicks g) clicks;
     GenderMetrics.spend := add (GenderMetrics.spend g) spendShare;
     GenderMetrics.revenue := add (GenderMetrics.revenue g) revenueShare |}.

(** The body of [breakdowns.forEach((segment) => ...)]. *)
Definition addSegment (spend revenue total : number) (count : nat)
  (acc : Aggregates) (segment : DemographicBreakdown.t) : Aggregates :=
  let sh := share total count segment in
  let impressions := performanceField Performance.impressions segment in
  let clicks := performanceField Performance.clicks segment in
  let conversions := performanceField Performance.conversions segment in
  let spendShare := mul spend sh in
  let revenueShare := mul revenue sh in
  let age := ageGroup segment in
  let ageTotals' :=
    addAgeMetrics (ageTotals acc) age spendShare revenueShare
      impressions clicks conversions in
  let gt := genderTotals acc in
  let ga := genderAgeTotals acc in
  match genderKeyOf (genderKey segment) with
  | Some Male =>
      {| genderTotals :=
           {| GenderTotals.male :=
                addGenderMetrics (GenderTotals.male gt) clicks spendShare revenueShare;
              GenderTotals.female := GenderTotals.female gt |};
         ageTotals := ageTotals';
         genderAgeTotals :=
           {| GenderAgeTotals.male :=
                addAgeMetrics (GenderAgeTotals.male ga) age spendShare revenueShare
                  impressions clicks conversions;
              GenderAgeTotals.female := GenderAgeTotals.female ga |} |}
  | Some Female =>
      {| genderTotals :=
           {| GenderTotals.male := GenderTotals.male gt;
              GenderTotals.female :=
                addGenderMetrics (GenderTotals.female gt) clicks spendShare revenueShare |};
         ageTotals := ageTotals';
         genderAgeTotals :=
           {| GenderAgeTotals.male := GenderAgeTotals.male ga;
              GenderAgeTotals.female :=
                addAgeMetrics (GenderAgeTotals.female ga) age spendShare revenueShare
                  impressions clicks conversions |} |}
  | None =>
      {| genderTotals := gt; ageTotals := ageTotals'; genderAgeTotals := ga |}
  end.

(** The body of [campaigns.forEach((campaign) => ...)]. *)
Definition addCampaign (acc : Aggregates) (campaign : Campaign.t) : Aggregates :=
  let breakdowns := nullish (Campaign.demographic_breakdown campaign) [] in
  if (List.length breakdowns =? 0)%nat then acc
  else
    let total := totalPercentage breakdowns in
    let spend := nullish (Campaign.spend campaign) zero in
    let revenue := nullish (Campaign.revenue campaign) zero in
    fold_left (addSegment spend revenue total (List.length breakdowns)) breakdowns acc.

Definition aggregateCampaignMetrics (campaigns : list Campaign.t) : Aggregates :=
  fold_left addCampaign campaigns emptyAggregates.


(** The comparator of [sort()] without argument: the strings compared
    code unit by code unit. *)
Definition defaultCompare (a b : string) : number :=
  match compareCodeUnits a b with
  | Lt => ofZ (-1)
  | Eq => zero
  | Gt => one
  end.

Definition buildOrderedAgeGroups (ageTotals : AgeTotals) : list string :=
  let additionalAgeGroups :=
    JsArray.sort defaultCompare
      (filter (fun ageGroup => negb (includes AGE_GROUP_ORDER ageGroup))
         (JsMap.keys ageTotals)) in
  AGE_GROUP_ORDER ++ additionalAgeGroups.

End Aggregator.

Module AgeTableRow.
Record t : Type := {
  ageGroup : string;
  impressions : number;
  clicks : number;
  conversions : number;
  ctr : number;
  conversionRate : number
}.
End AgeTableRow.

(** [Math.round]: the nearest integer, halves upwards; the non-finite
    values are returned as they are. *)
Definition Math_round (x : number) : number :=
  match x with
  | Fin q => ofZ (Qfloor (q + (1 # 2))%Q)
  | _ => x
  end.

(** The row pushed for one age group, if any: none without activity. *)
Definition tableRow (ageGroup : string) (totals : AgeMetrics.t)
  : list AgeTableRow.t :=
  let hasActivity :=
    gt (AgeMetrics.impressions totals) zero
    || gt (AgeMetrics.clicks totals) zero
    || gt (AgeMetrics.conversions totals) zero in
  if negb hasActivity then []
  else
    let ctr :=
      if gt (AgeMetrics.impressions totals) zero
      then mul (div (AgeMetrics.clicks totals) (AgeMetrics.impressions totals)) hundred
      else zero in
    let conversionRate :=
      if gt (AgeMetrics.clicks totals) zero
      then mul (div (AgeMetrics.conversions totals) (AgeMetrics.clicks totals)) hundred
      else zero in
    [ {| AgeTableRow.ageGroup := ageGroup;
         AgeTableRow.impressions := Math_round (AgeMetrics.impressions totals);
         AgeTableRow.clicks := Math_round (AgeMetrics.clicks totals);
         AgeTableRow.conversions := Math_round (AgeMetrics.conversions totals);
         AgeTableRow.ctr := ctr;
         AgeTableRow.conversionRate := conversionRate |} ].

Definition buildGenderAgeTableData (genderAgeTotals : AgeTotals)
  (orderedAgeGroups : list string) : list AgeTableRow.t :=
  let orderedWithExtras :=
    orderedAgeGroups ++
    filter (fun ageGroup => negb (includes orderedAgeGroups ageGroup))
      (JsMap.keys genderAgeTotals) in
  flat_map
    (fun ageGroup =>
       match sget genderAgeTotals ageGroup with
       | None => []
       | Some totals => tableRow ageGroup totals
       end)
    orderedWithExtras.

(** *** The fetcher *)

(** [MarketingData = { campaigns?: Campaign[] }] *)
Record MarketingData : Type := { campaigns : option (list Campaign.t) }.

(** How a promise settles. *)
Inductive settled (A : Type) : Type :=
| Fulfilled (value : A)
| Rejected (reason : string).
Arguments Fulfilled {A} value.
Arguments Rejected {A} reason.

(** What a [return] statement of an async function hands over: a value,
    or a promise that has still to settle. *)
Inductive returned (A : Type) : Type :=
| Value (value : A)
| Promise (promise : settled A).
Arguments Value {A} value.
Arguments Promise {A} promise.

(** The [Response] as far as the fetcher reads it; [json] is how the
    promise of [response.json()] settles: it rejects on a body that does
    not parse. *)
Record Response : Type := {
  ok : bool;
  statusText : string;
  json : settled MarketingData
}.

(** [fetchMarketingData], given how [fetch(MARKETING_DATA_ENDPOINT)]
    settles.  The [try] block awaits the fetch, throws on [!response.ok]
    and returns the promise [response.json()] without awaiting it; the
    [catch] block returns [null].  The promise of the async function then
    follows whatever was returned. *)
Definition fetchMarketingData (fetched : settled Response)
  : settled (option MarketingData) :=
  let tryBlock : settled (returned (option MarketingData)) :=
    match fetched with
    | Rejected reason => Rejected reason
    | Fulfilled response =>
        if negb (ok response)
        then Rejected ("Failed to fetch marketing data: " ++ statusText response)%string
        else
          Fulfilled
            (Promise
               match json response with
               | Fulfilled body => Fulfilled (Some body)
               | Rejected reason => Rejected reason
               end)
    end in
  match tryBlock with
  | Rejected _ => Fulfilled None
  | Fulfilled (Value v) => Fulfilled v
  | Fulfilled (Promise p) => p
  end.

(** [marketingData?.campaigns ?? []] *)
Definition campaignsOf (marketingData : option MarketingData) : list Campaign.t :=
  match marketingData with
  | Some data => nullish (campaigns data) []
  | None => []
  end.

Section Page.
Context {unicode : Unicode}.

(** The start of the page component: the aggregates it renders, or the
    rejection of [await fetchMarketingData()]. *)
Definition DemographicView (fetched : settled Response) : settled Aggregates :=
  match fetchMarketingData fetched with
  | Fulfilled marketingData =>
      Fulfilled (aggregateCampaignMetrics (campaignsOf marketingData))
  | Rejected reason => Rejected reason
  end.

End Page.

End DemographicView.

(* ================================================================== *)
(** ** Device view *)

Module DeviceView.

(** [type DeviceKey = 'mobile' | 'desktop'] *)
Inductive DeviceKey : Type := mobile | desktop.

Definition DeviceKey_eqb (a b : DeviceKey) : bool :=
  match a, b with
  | mobile, mobile | desktop, desktop => true
  | _, _ => false
  end.

Module DeviceAggregate.
Record t : Type := {
  device : string;
  impressions : number;
  clicks : number;
  conversions : number;
  spend : number;
  revenue : number
}.
End DeviceAggregate.

(** [DeviceMetrics = DeviceAggregate & { ctr, conversionRate, roas,
    trafficShare }]; [roas] is [number | null]. *)
Module DeviceMetrics.
Record t : Type := {
  aggregate : DeviceAggregate.t;
  ctr : number;
  conversionRate : number;
  roas : option number;
  trafficShare : number
}.
End DeviceMetrics.

Definition DEVICE_ORDER : list DeviceKey := [mobile; desktop].

Definition DEVICE_LABELS (key : DeviceKey) : string :=
  match key with
  | mobile => "Mobile"
  | desktop => "Desktop"
  end.

Definition DeviceTotals : Type := JsMap.t DeviceKey DeviceAggregate.t.
Definition dget (m : DeviceTotals) (k : DeviceKey) : option DeviceAggregate.t :=
  JsMap.get DeviceKey_eqb m k.
Definition dset (m : DeviceTotals) (k : DeviceKey) (v : DeviceAggregate.t)
  : DeviceTotals :=
  JsMap.set DeviceKey_eqb m k v.

Section Labels.
Context {unicode : Unicode}.

(** [deviceStat.device?.toLowerCase()], kept when it is one of the two
    keys: an absent label gives [undefined], which is neither. *)
Definition deviceKeyOf (device : option string) : option DeviceKey :=
  match device with
  | None => None
  | Some d =>
      let key := toLowerCase d in
      if String.eqb key "mobile" then Some mobile
      else if String.eqb key "desktop" then Some desktop
      else None
  end.

(** The default of [totals.get(key) ?? {...}], here and in [enrichMetrics]. *)
Definition emptyAggregate (key : DeviceKey) : DeviceAggregate.t :=
  {| DeviceAggregate.device := DEVICE_LABELS key;
     DeviceAggregate.impressions := zero;
     DeviceAggregate.clicks := zero;
     DeviceAggregate.conversions := zero;
     DeviceAggregate.spend := zero;
     DeviceAggregate.revenue := zero |}.

(** [existing.f += Number.isFinite(f) ? f : 0] for the five metrics. *)
Definition accumulate (existing : DeviceAggregate.t) (deviceStat : DeviceStat.t)
  : DeviceAggregate.t :=
  {| DeviceAggregate.device := DeviceAggregate.device existing;
     DeviceAggregate.impressions :=
       add (DeviceAggregate.impressions existing)
         (finiteOrZero (DeviceStat.impressions deviceStat));
     DeviceAggregate.clicks :=
       add (DeviceAggregate.clicks existing)
         (finiteOrZero (DeviceStat.clicks deviceStat));
     DeviceAggregate.conversions :=
       add (DeviceAggregate.conversions existing)
         (finiteOrZero (DeviceStat.conversions deviceStat));
     DeviceAggregate.spend :=
       add (DeviceAggregate.spend existing)
         (finiteOrZero (DeviceStat.spend deviceStat));
     DeviceAggregate.revenue :=
       add (DeviceAggregate.revenue existing)
         (finiteOrZero (DeviceStat.revenue deviceStat)) |}.

(** The body of [devicePerformance.forEach((deviceStat) => ...)]. *)
Definition addDeviceStat (totals : DeviceTotals) (deviceStat : DeviceStat.t)
  : DeviceTotals :=
  match deviceKeyOf (DeviceStat.device deviceStat) with
  | None => totals
  | Some key =>
      let existing := nullish (dget totals key) (emptyAggregate key) in
      dset totals key (accumulate existing deviceStat)
  end.

Definition addCampaign (totals : DeviceTotals) (campaign : Campaign.t)
  : DeviceTotals :=
  fold_left addDeviceStat (nullish (Campaign.device_performance campaign) []) totals.

Definition aggregateDevicePerformance (campaigns : list Campaign.t) : DeviceTotals :=
  fold_left addCampaign campaigns (JsMap.empty _ _).

End Labels.

(** [Array.from(totals.values()).reduce((sum, item) => sum + item.clicks, 0)] *)
Definition totalClicks (totals : DeviceTotals) : number :=
  fold_left (fun sum item => add sum (DeviceAggregate.clicks item))
    (JsMap.values totals) zero.

(** The four derived metrics attached to one aggregate. *)
Definition enrich (total : number) (aggregate : DeviceAggregate.t) : DeviceMetrics.t :=
  {| DeviceMetrics.aggregate := aggregate;
     DeviceMetrics.ctr :=
       if gt (DeviceAggregate.impressions aggregate) zero
       then mul (div (DeviceAggregate.clicks aggregate)
                   (DeviceAggregate.impressions aggregate)) hundred
       else zero;
     DeviceMetrics.conversionRate :=
       if gt (DeviceAggregate.clicks aggregate) zero
       then mul (div (DeviceAggregate.conversions aggregate)
                   (DeviceAggregate.clicks aggregate)) hundred
       else zero;
     DeviceMetrics.roas :=
       if gt (DeviceAggregate.spend aggregate) zero
       then Some (div (DeviceAggregate.revenue aggregate)
                    (DeviceAggregate.spend aggregate))
       else None;
     DeviceMetrics.trafficShare :=
       if gt total zero
       then mul (div (DeviceAggregate.clicks aggregate) total) hundred
       else zero |}.

(** [DEVICE_ORDER.reduce((acc, key) => { ...; acc[key] = {...}; return acc }, {})] *)
Definition enrichMetrics (totals : DeviceTotals)
  : JsMap.t DeviceKey DeviceMetrics.t :=
  let total := totalClicks totals in
  fold_left
    (fun acc key =>
       let aggregate := nullish (dget totals key) (emptyAggregate key) in
       JsMap.set DeviceKey_eqb acc key (enrich total aggregate))
    DEVICE_ORDER (JsMap.empty _ _).

End DeviceView.

(* ================================================================== *)
(** ** Region view *)

Module RegionView.

(** What [REGION_COORDINATES[key]] evaluates to.  The fields are optional
    because the value need not be an entry of the table (see
    [resolveCoordinates]). *)
Record Coordinates : Type := {
  lat : option number;
  lon : option number
}.

(** A decimal literal with four digits behind the point. *)
Definition decimal4 (tenThousandths : Z) : number :=
  Fin (Q2Qc (tenThousandths # 10000)).

Definition at_ (la lo : Z) : Coordinates :=
  {| lat := Some (decimal4 la); lon := Some (decimal4 lo) |}.

Definition REGION_COORDINATES : StringMap Coordinates :=
  [ ("abu dhabi", at_ 244539 543773);
    ("al ain", at_ 241302 558023);
    ("al khobar", at_ 262172 501971);
    ("dammam", at_ 264207 500880);
    ("doha", at_ 252854 515310);
    ("dubai", at_ 252048 552708);
    ("fujairah", at_ 251288 563265);
    ("jeddah", at_ 214858 391925);
    ("kuwait city", at_ 293786 479903);
    ("manama", at_ 262235 505876);
    ("muscat", at_ 235880 583829);
    ("ras al khaimah", at_ 258007 559762);
    ("riyadh", at_ 247136 466753);
    ("sharjah", at_ 253463 554211);
    ("shuwaikh", at_ 293499 479647);
    ("ajman", at_ 254052 555136);
    ("bahrain", at_ 260667 505577) ].

(** [REGION_COORDINATES] is an object literal: a property that is not
    one of its own is looked up on [Object.prototype].  These are the
    properties found there, each an object or a function, none with a
    [lat] or a [lon]. *)
Definition Object_prototype : list string :=
  [ "constructor"; "__defineGetter__"; "__defineSetter__"; "hasOwnProperty";
    "__lookupGetter__"; "__lookupSetter__"; "isPrototypeOf";
    "propertyIsEnumerable"; "toString"; "valueOf"; "__proto__";
    "toLocaleString" ].

(** [REGION_COORDINATES[key]]: [None] stands for [undefined]. *)
Definition property (key : string) : option Coordinates :=
  match sget REGION_COORDINATES key with
  | Some c => Some c
  | None =>
      if includes Object_prototype key
      then Some {| lat := None; lon := None |}
      else None
  end.

Section Keys.
Context {unicode : Unicode}.

Definition normalizeKey (value : string) : string :=
  toLowerCase (trim value).

(** [REGION_COORDINATES[key] ?? null]: [None] stands for [null]. *)
Definition resolveCoordinates (region : string) : option Coordinates :=
  let key := normalizeKey region in
  property key.

End Keys.

Module RegionAggregate.
Record t : Type := {
  region : string;
  country : string;
  latitude : option number;
  longitude : option number;
  spend : number;
  revenue : number
}.
End RegionAggregate.

(** [missingRegions.add(name)] on a [Set]. *)
Definition setAdd (s : list string) (x : string) : list string :=
  if includes s x then s else s ++ [x].

(** The two collections the loops update. *)
Record Accumulator : Type := {
  totals : StringMap RegionAggregate.t;
  missingRegions : list string
}.

Section Aggregator.
Context {unicode : Unicode}.

(** The body of [regionalPerformance.forEach((regionStat) => ...)]. *)
Definition addRegionStat (acc : Accumulator) (regionStat : RegionStat.t)
  : Accumulator :=
  match resolveCoordinates (RegionStat.region regionStat) with
  | None =>
      {| totals := totals acc;
         missingRegions := setAdd (missingRegions acc) (RegionStat.region regionStat) |}
  | Some coordinates =>
      let key := normalizeKey (RegionStat.region regionStat) in
      let existing :=
        nullish (sget (totals acc) key)
          {| RegionAggregate.region := RegionStat.region regionStat;
             RegionAggregate.country := RegionStat.country regionStat;
             RegionAggregate.latitude := lat coordinates;
             RegionAggregate.longitude := lon coordinates;
             RegionAggregate.spend := zero;
             RegionAggregate.revenue := zero |} in
      {| totals :=
           sset (totals acc) key
             {| RegionAggregate.region := RegionAggregate.region existing;
                RegionAggregate.country := RegionAggregate.country existing;
                RegionAggregate.latitude := RegionAggregate.latitude existing;
                RegionAggregate.longitude := RegionAggregate.longitude existing;
                RegionAggregate.spend :=
                  add (RegionAggregate.spend existing)
                    (finiteOrZero (RegionStat.spend regionStat));
                RegionAggregate.revenue :=
                  add (RegionAggregate.revenue existing)
                    (finiteOrZero (RegionStat.revenue regionStat)) |};
         missingRegions := missingRegions acc |}
  end.

Definition addCampaign (acc : Accumulator) (campaign : Campaign.t) : Accumulator :=
  fold_left addRegionStat (nullish (Campaign.regional_performance campaign) []) acc.

Definition accumulateRegions (campaigns : list Campaign.t) : Accumulator :=
  fold_left addCampaign campaigns
    {| totals := JsMap.empty _ _; missingRegions := [] |}.

(** [(a, b) => b.revenue - a.revenue] *)
Definition byRevenueDescending (a b : RegionAggregate.t) : number :=
  sub (RegionAggregate.revenue b) (RegionAggregate.revenue a).

(** [aggregateRegionalPerformance] together with what it writes to the
    console: one warning with the missing regions, if there are any. *)
Definition aggregateRegionalPerformanceLogged (campaigns : list Campaign.t)
  : list RegionAggregate.t * list (list string) :=
  let acc := accumulateRegions campaigns in
  (JsArray.sort byRevenueDescending (JsMap.values (totals acc)),
   if (0 <? List.length (missingRegions acc))%nat then [missingRegions acc] else []).

(** What the caller receives. *)
Definition aggregateRegionalPerformance (campaigns : list Campaign.t)
  : list RegionAggregate.t :=
  fst (aggregateRegionalPerformanceLogged campaigns).

End Aggregator.

(** The points of the revenue map:
    [regionAggregates.filter((region) => region.revenue > 0).map(...)]. *)
Module MapPoint.
Record t : Type := {
  id : string;
  label : string;
  subtitle : string;
  latitude : option number;
  longitude : option number;
  value : number
}.
End MapPoint.

Definition revenueMapData (regionAggregates : list RegionAggregate.t)
  : list MapPoint.t :=
  map
    (fun region =>
       {| MapPoint.id := (RegionAggregate.region region ++ "-revenue")%string;
          MapPoint.label := RegionAggregate.region region;
          MapPoint.subtitle := RegionAggregate.country region;
          MapPoint.latitude := RegionAggregate.latitude region;
          MapPoint.longitude := RegionAggregate.longitude region;
          MapPoint.value := RegionAggregate.revenue region |})
    (filter (fun region => gt (RegionAggregate.revenue region) zero)
       regionAggregates).

End RegionView.

(* ================================================================== *)
(** ** Weekly view *)

Module WeeklyView.

Module WeeklyAggregate.
Record t : Type := {
  weekStart : string;
  weekEnd : string;
  spend : number;
  revenue : number
}.
End WeeklyAggregate.

(** The key of a bucket: the template string [week_start_week_end]. *)
Definition weekKey (week : WeekStat.t) : string :=
  (WeekStat.week_start week ++ "_" ++ WeekStat.week_end week)%string.

(** The body of [weeklyPerformance.forEach((week) => ...)]. *)
Definition addWeek (totals : StringMap WeeklyAggregate.t) (week : WeekStat.t)
  : StringMap WeeklyAggregate.t :=
  let key := weekKey week in
  let existing :=
    nullish (sget totals key)
      {| WeeklyAggregate.weekStart := WeekStat.week_start week;
         WeeklyAggregate.weekEnd := WeekStat.week_end week;
         WeeklyAggregate.spend := zero;
         WeeklyAggregate.revenue := zero |} in
  sset totals key
    {| WeeklyAggregate.weekStart := WeeklyAggregate.weekStart existing;
       WeeklyAggregate.weekEnd := WeeklyAggregate.weekEnd existing;
       WeeklyAggregate.spend :=
         add (WeeklyAggregate.spend existing) (finiteOrZero (WeekStat.spend week));
       WeeklyAggregate.revenue :=
         add (WeeklyAggregate.revenue existing) (finiteOrZero (WeekStat.revenue week)) |}.

Definition addCampaign (totals : StringMap WeeklyAggregate.t) (campaign : Campaign.t)
  : StringMap WeeklyAggregate.t :=
  fold_left addWeek (nullish (Campaign.weekly_performance campaign) []) totals.

(** The buckets before they are sorted. *)
Definition weeklyTotals (campaigns : list Campaign.t) : StringMap WeeklyAggregate.t :=
  fold_left addCampaign campaigns (JsMap.empty _ _).

Section WithDate.
(** [new Date(s).getTime()]: the milliseconds of the parsed date, [NaN]
    for a string the engine does not parse.  The parser is the engine's
    and is a parameter here. *)
Variable Date_getTime : string -> number.

(** [(a, b) => new Date(a.weekStart).getTime() - new Date(b.weekStart).getTime()] *)
Definition byWeekStart (a b : WeeklyAggregate.t) : number :=
  sub (Date_getTime (WeeklyAggregate.weekStart a))
      (Date_getTime (WeeklyAggregate.weekStart b)).

Definition aggregateWeeklyPerformance (campaigns : list Campaign.t)
  : list WeeklyAggregate.t :=
  JsArray.sort byWeekStart (JsMap.values (weeklyTotals campaigns)).
End WithDate.

(** *** A date parser for the date-only ISO form

    Every engine reads [YYYY-MM-DD] as midnight UTC of that day; this
    instance of the parameter rejects every other string. *)

Definition digit (c : ascii) : option Z :=
  let n := nat_of_ascii c in
  if andb (48 <=? n)%nat (n <=? 57)%nat then Some (Z.of_nat (n - 48)) else None.

Definition number2 (a b : ascii) : option Z :=
  match digit a, digit b with
  | Some x, Some y => Some (10 * x + y)%Z
  | _, _ => None
  end.

Definition isLeap (y : Z) : bool :=
  ((y mod 4 =? 0) && negb (y mod 100 =? 0) || (y mod 400 =? 0))%Z.

Definition daysInMonth (y m : Z) : Z :=
  if (m =? 2)%Z then (if isLeap y then 29 else 28)%Z
  else if ((m =? 4) || (m =? 6) || (m =? 9) || (m =? 11))%Z then 30%Z
  else 31%Z.

(** Days between 1970-01-01 and the given day of the civil calendar. *)
Definition daysFromCivil (y m d : Z) : Z :=
  let y' := (if m <=? 2 then y - 1 else y)%Z in
  let era := (y' / 400)%Z in
  let yoe := (y' - era * 400)%Z in
  let doy := ((153 * (if 2 <? m then m - 3 else m + 9) + 2) / 5 + d - 1)%Z in
  let doe := (yoe * 365 + yoe / 4 - yoe / 100 + doy)%Z in
  (era * 146097 + doe - 719468)%Z.

Definition isoDateTime (s : string) : number :=
  match s with
  | String y1 (String y2 (String y3 (String y4 (String "-"
      (String m1 (String m2 (String "-" (String d1 (String d2 EmptyString))))))))) =>
      match number2 y1 y2, number2 y3 y4, number2 m1 m2, number2 d1 d2 with
      | Some yh, Some yl, Some m, Some d =>
          let y := (100 * yh + yl)%Z in
          if ((1 <=? m) && (m <=? 12) && (1 <=? d) && (d <=? daysInMonth y m))%Z
          then ofZ (daysFromCivil y m d * 86400000)
          else NaN
      | _, _, _, _ => NaN
      end
  | _ => NaN
  end.

End WeeklyView.

(* ================================================================== *)
(** ** Quantities the specification speaks of *)

Module Spec.
Import DemographicView.

(** The sum of one metric over all the age groups of a map. *)
Definition sumOver (f : AgeMetrics.t -> number) (m : AgeTotals) : number :=
  fold_left (fun sum v => add sum (f v)) (JsMap.values m) zero.

(** The spend (revenue) the age aggregator has allocated in total. *)
Definition allocatedSpend (m : AgeTotals) : number := sumOver AgeMetrics.spend m.
Definition allocatedRevenue (m : AgeTotals) : number := sumOver AgeMetrics.revenue m.

(** The sum of the campaign-level spend over a campaign list. *)
Definition campaignSpend (campaigns : list Campaign.t) : number :=
  fold_left (fun sum c => add sum (nullish (Campaign.spend c) zero)) campaigns zero.

(** The contributions [spend * share] of the segments of one campaign,
    summed in the order of the segments. *)
Definition segmentContributions (amount : number)
  (breakdowns : list DemographicBreakdown.t) : number :=
  let total := totalPercentage breakdowns in
  fold_left
    (fun sum segment =>
       add sum (mul amount (share total (List.length breakdowns) segment)))
    breakdowns zero.

(** No field of the campaign is given: the JSON object [{}]. *)
Definition emptyCampaign : Campaign.t :=
  {| Campaign.spend := None; Campaign.revenue := None;
     Campaign.demographic_breakdown := None;
     Campaign.device_performance := None;
     Campaign.regional_performance := None;
     Campaign.weekly_performance := None |}.

(** A campaign of the demographic view. *)
Definition demographicCampaign (spend revenue : option number)
  (breakdowns : option (list DemographicBreakdown.t)) : Campaign.t :=
  {| Campaign.spend := spend; Campaign.revenue := revenue;
     Campaign.demographic_breakdown := breakdowns;
     Campaign.device_performance := None;
     Campaign.regional_performance := None;
     Campaign.weekly_performance := None |}.

(** A segment with all three counts given. *)
Definition segment (age gender : option string) (pct : option number)
  (impressions clicks conversions : Z) : DemographicBreakdown.t :=
  {| DemographicBreakdown.age_group := age;
     DemographicBreakdown.gender := gender;
     DemographicBreakdown.percentage_of_audience := pct;
     DemographicBreakdown.performance :=
       Some {| Performance.impressions := Some (ofZ impressions);
               Performance.clicks := Some (ofZ clicks);
               Performance.conversions := Some (ofZ conversions) |} |}.

(** A week boundary string without underscore, as an ISO date is. *)
Fixpoint noUnderscore (s : string) : bool :=
  match s with
  | EmptyString => true
  | String c s' => negb (Ascii.eqb c "_") && noUnderscore s'
  end.

(** All the weekly entries of a campaign list, in the order the loops
    visit them. *)
Definition allWeeks (campaigns : list Campaign.t) : list WeekStat.t :=
  flat_map (fun c => nullish (Campaign.weekly_performance c) []) campaigns.

End Spec.

(* ================================================================== *)
(** ** Inputs used in the examples *)

Module Examples.
Import DemographicView Spec.

(** One campaign, spend 100 and revenue 40, whose first segment states
    its percentage and whose second does not. *)
Definition mixedSegments : list DemographicBreakdown.t :=
  [ segment (Some "18-24") (Some "male") (Some (ofZ 60)) 1000 50 5;
    segment (Some "25-34") (Some "female") None 800 40 2 ].

Definition mixedCampaign : Campaign.t :=
  demographicCampaign (Some (ofZ 100)) (Some (ofZ 40)) (Some mixedSegments).

(** The two campaigns of the end-to-end scenario of the specification. *)
Definition campaignA : Campaign.t :=
  demographicCampaign (Some (ofZ 100)) None
    (Some [ segment (Some "18-24") (Some "male") (Some (ofZ 60)) 1000 50 5;
            segment (Some "25-34") (Some "female") (Some (ofZ 40)) 800 40 2 ]).

Definition campaignB : Campaign.t :=
  demographicCampaign (Some (ofZ 50)) None
    (Some [ segment (Some "18-24") (Some "male") None 500 10 1 ]).

(** A campaign whose spend is the JSON number [1e999], which parses to
    [Infinity]. *)
Definition infiniteSpendCampaign : Campaign.t :=
  demographicCampaign (Some PosInf) (Some (ofZ 40))
    (Some [ segment (Some "18-24") (Some "male") (Some (ofZ 100)) 1000 50 5 ]).

(** A campaign with spend 100 and no demographic breakdown. *)
Definition unbrokenCampaign : Campaign.t :=
  demographicCampaign (Some (ofZ 100)) (Some (ofZ 300)) None.

(** A segment with the three counts as numbers of any kind. *)
Definition segmentOf (age gender : option string) (pct : option number)
  (impressions clicks conversions : number) : DemographicBreakdown.t :=
  {| DemographicBreakdown.age_group := age;
     DemographicBreakdown.gender := gender;
     DemographicBreakdown.percentage_of_audience := pct;
     DemographicBreakdown.performance :=
       Some {| Performance.impressions := Some impressions;
               Performance.clicks := Some clicks;
               Performance.conversions := Some conversions |} |}.

(** Two segments of one group whose impressions are the JSON numbers
    [1e999] and [-1e999], which parse to [Infinity] and [-Infinity]. *)
Definition oppositeInfinities : Campaign.t :=
  demographicCampaign (Some (ofZ 100)) (Some (ofZ 40))
    (Some [ segmentOf (Some "18-24") (Some "male") (Some (ofZ 50))
              PosInf (ofZ 5) (ofZ 1);
            segmentOf (Some "18-24") (Some "male") (Some (ofZ 50))
              NegInf (ofZ 3) (ofZ 1) ]).


(** A segment whose gender is neither of the two. *)
Definition otherSegment : DemographicBreakdown.t :=
  segment None (Some "Non-binary") (Some (ofZ 20)) 300 12 3.

(** Age groups observed in the order 55+, 18-24, Teen. *)
Definition observedAges : Campaign.t :=
  demographicCampaign (Some (ofZ 90)) (Some (ofZ 30))
    (Some [ segment (Some "55+") (Some "male") None 10 1 0;
            segment (Some "18-24") (Some "female") None 10 1 0;
            segment (Some "Teen") (Some "male") None 10 1 0 ]).

Definition regionCampaign (entries : list RegionStat.t) : Campaign.t :=
  {| Campaign.spend := None; Campaign.revenue := None;
     Campaign.demographic_breakdown := None;
     Campaign.device_performance := None;
     Campaign.regional_performance := Some entries;
     Campaign.weekly_performance := None |}.

Definition regionStat (region country : string) (spend revenue : Z) : RegionStat.t :=
  {| RegionStat.region := region; RegionStat.country := country;
     RegionStat.spend := Some (ofZ spend); RegionStat.revenue := Some (ofZ revenue) |}.

Definition weekCampaign (entries : list WeekStat.t) : Campaign.t :=
  {| Campaign.spend := None; Campaign.revenue := None;
     Campaign.demographic_breakdown := None;
     Campaign.device_performance := None;
     Campaign.regional_performance := None;
     Campaign.weekly_performance := Some entries |}.

Definition weekStat (week_start week_end : string) (spend revenue : Z) : WeekStat.t :=
  {| WeekStat.week_start := week_start; WeekStat.week_end := week_end;
     WeekStat.spend := Some (ofZ spend); WeekStat.revenue := Some (ofZ revenue) |}.

Definition deviceCampaign (entries : list DeviceStat.t) : Campaign.t :=
  {| Campaign.spend := None; Campaign.revenue := None;
     Campaign.demographic_breakdown := None;
     Campaign.device_performance := Some entries;
     Campaign.regional_performance := None;
     Campaign.weekly_performance := None |}.

Definition deviceStat (device : option string)
  (impressions clicks conversions spend revenue : Z) : DeviceStat.t :=
  {| DeviceStat.device := device;
     DeviceStat.impressions := Some (ofZ impressions);
     DeviceStat.clicks := Some (ofZ clicks);
     DeviceStat.conversions := Some (ofZ conversions);
     DeviceStat.spend := Some (ofZ spend);
     DeviceStat.revenue := Some (ofZ revenue) |}.

(** A mobile entry whose impressions are the JSON number [1e999]. *)
Definition infiniteImpressions : DeviceStat.t :=
  {| DeviceStat.device := Some "mobile";
     DeviceStat.impressions := Some PosInf;
     DeviceStat.clicks := Some (ofZ 50);
     DeviceStat.conversions := Some (ofZ 5);
     DeviceStat.spend := Some (ofZ 20);
     DeviceStat.revenue := Some (ofZ 80) |}.

(** Mobile and desktop entries of two campaigns and one tablet entry. *)
Definition twoDevices : list Campaign.t :=
  [ deviceCampaign [ deviceStat (Some "Mobile") 1000 50 5 20 80;
                     deviceStat (Some "tablet") 500 10 1 5 10 ];
    deviceCampaign [ deviceStat (Some "DESKTOP") 600 30 6 40 60;
                     deviceStat (Some "mobile") 200 20 1 10 30 ] ].

(** Two weekly entries with different boundary pairs and one joined key. *)
Definition weekA : WeekStat.t :=
  weekStat "2024-01-01" "2024-01-07_2024-01-14" 10 30.
Definition weekB : WeekStat.t :=
  weekStat "2024-01-01_2024-01-07" "2024-01-14" 5 20.

End Examples.

(* ================================================================== *)
(** ** What one segment adds *)

Module Contribution.
Import DemographicView.

(** The metrics of an age group after a segment with the given shares
    and counts has been added to [current]. *)
Definition plus (current : AgeMetrics.t)
  (spendShare revenueShare impressions clicks conversions : number) : AgeMetrics.t :=
  {| AgeMetrics.spend := add (AgeMetrics.spend current) spendShare;
     AgeMetrics.revenue := add (AgeMetrics.revenue current) revenueShare;
     AgeMetrics.impressions := add (AgeMetrics.impressions current) impressions;
     AgeMetrics.clicks := add (AgeMetrics.clicks current) clicks;
     AgeMetrics.conversions := add (AgeMetrics.conversions current) conversions |}.

(** [m] before and [m'] after the addition of a segment under [key]:
    the entry of [key] has grown, every other entry is as it was. *)
Definition added (m m' : AgeTotals) (key : string)
  (spendShare revenueShare impressions clicks conversions : number) : Prop :=
  sget m' key
  = Some (plus (nullish (sget m key) createEmptyAgeMetrics)
            spendShare revenueShare impressions clicks conversions)
  /\ forall k, k <> key -> sget m' k = sget m k.

End Contribution.

(* ================================================================== *)
(** ** The segments of a campaign list and what they add *)

Module SegmentSpec.
Import DemographicView.

(** A segment as the loops meet it: with the spend and the revenue of
    its campaign, the sum of the percentages of the campaign and the
    number of its segments. *)
Record Entry : Type := {
  campaignSpend : number;
  campaignRevenue : number;
  campaignPercentage : number;
  campaignSegments : nat;
  segment : DemographicBreakdown.t
}.







(** The sum of [f] over the entries, in their order. *)
Definition sumOf (f : Entry -> number) (entries : list Entry) : number :=
  fold_left (fun sum e => add sum (f e)) entries zero.




Section Gender.
Context {unicode : Unicode}.





End Gender.

End SegmentSpec.

(* ================================================================== *)
(** ** The policies of the specification, as predicates *)

Module Policy.
Import DeviceView.

(** [x / y * 100] *)
Definition percent (x y : number) : number := mul (div x y) hundred.

(** The policy as the specification words it: zero over a denominator
    that is zero or less, the ratio over every other. *)
Definition zeroOrRatio (denominator ratio metric : number) : Prop :=
  (le denominator zero = true -> metric = zero)
  /\ (le denominator zero = false -> metric = ratio).

(** The policy of the code: the ratio over a positive denominator, zero
    over every other, which is one that is zero or less or is [NaN]. *)
Definition ratioOrZero (denominator ratio metric : number) : Prop :=
  (gt denominator zero = true -> metric = ratio)
  /\ (gt denominator zero = false -> metric = zero).

(** The same with the absent value in the place of zero. *)
Definition ratioOrNull (denominator ratio : number) (metric : option number) : Prop :=
  (gt denominator zero = true -> metric = Some ratio)
  /\ (gt denominator zero = false -> metric = None).

(** The clicks of all the buckets, summed in the order of the map. *)
Definition clicksOfAllBuckets (totals : DeviceTotals) : number :=
  fold_left (fun sum bucket => add sum (DeviceAggregate.clicks bucket))
    (map snd totals) zero.

(** The aggregate of a key without bucket: its display label and five
    zeros. *)
Definition allZero (key : DeviceKey) : DeviceAggregate.t :=
  {| DeviceAggregate.device :=
       match key with mobile => "Mobile" | desktop => "Desktop" end;
     DeviceAggregate.impressions := zero;
     DeviceAggregate.clicks := zero;
     DeviceAggregate.conversions := zero;
     DeviceAggregate.spend := zero;
     DeviceAggregate.revenue := zero |}.

(** The derived metrics of an aggregate follow the policy of the code,
    the traffic share against [total]. *)
Definition derived (total : number) (m : DeviceMetrics.t) : Prop :=
  let a := DeviceMetrics.aggregate m in
  ratioOrZero (DeviceAggregate.impressions a)
    (percent (DeviceAggregate.clicks a) (DeviceAggregate.impressions a))
    (DeviceMetrics.ctr m)
  /\ ratioOrZero (DeviceAggregate.clicks a)
       (percent (DeviceAggregate.conversions a) (DeviceAggregate.clicks a))
       (DeviceMetrics.conversionRate m)
  /\ ratioOrNull (DeviceAggregate.spend a)
       (div (DeviceAggregate.revenue a) (DeviceAggregate.spend a))
       (DeviceMetrics.roas m)
  /\ ratioOrZero total (percent (DeviceAggregate.clicks a) total)
       (DeviceMetrics.trafficShare m).

(** The string a device key stands for. *)
Definition DeviceKey_name (key : DeviceKey) : string :=
  match key with
  | mobile => "mobile"
  | desktop => "desktop"
  end.

End Policy.

(* ================================================================== *)
(** ** The device buckets, as the specification describes them *)

Module DeviceSpec.
Import DeviceView Policy.

(** All the device entries of a campaign list, in the order the loops
    visit them. *)
Definition allDeviceStats (campaigns : list Campaign.t) : list DeviceStat.t :=
  flat_map (fun c => nullish (Campaign.device_performance c) []) campaigns.

(** A metric as it is added: as it is given when it is present and
    finite, zero when it is absent or not finite. *)
Definition ingested (x : option number) : number :=
  match x with
  | Some (Fin q) => Fin q
  | _ => zero
  end.

(** A metric taken verbatim: as it is given, zero when it is absent. *)
Definition verbatim (x : option number) : number :=
  match x with
  | Some v => v
  | None => zero
  end.

(** The sum over the entries, in their order, of one metric read by
    [read]. *)
Definition sumField (read : option number -> number)
  (f : DeviceStat.t -> option number) (stats : list DeviceStat.t) : number :=
  fold_left (fun sum s => add sum (read (f s))) stats zero.

(** The bucket made of the given entries: none without an entry,
    otherwise the display label of the key and the five sums. *)
Definition bucket (read : option number -> number) (key : DeviceKey)
  (stats : list DeviceStat.t) : option DeviceAggregate.t :=
  match stats with
  | [] => None
  | _ :: _ =>
      Some {| DeviceAggregate.device :=
                match key with mobile => "Mobile" | desktop => "Desktop" end;
              DeviceAggregate.impressions := sumField read DeviceStat.impressions stats;
              DeviceAggregate.clicks := sumField read DeviceStat.clicks stats;
              DeviceAggregate.conversions := sumField read DeviceStat.conversions stats;
              DeviceAggregate.spend := sumField read DeviceStat.spend stats;
              DeviceAggregate.revenue := sumField read DeviceStat.revenue stats |}
  end.

Section Labels.
Context {unicode : Unicode}.

(** The label of the entry, lowercased, is the name of [key]. *)
Definition labelled (key : DeviceKey) (s : DeviceStat.t) : bool :=
  match DeviceStat.device s with
  | Some d => String.eqb (toLowerCase d) (DeviceKey_name key)
  | None => false
  end.

(** The entries labelled with [key], in their order. *)
Definition filedUnder (key : DeviceKey) (stats : list DeviceStat.t)
  : list DeviceStat.t :=
  filter (labelled key) stats.

(** The bucket of [key] as the code fills it, and with the metrics taken
    verbatim. *)
Definition bucketOf (key : DeviceKey) (stats : list DeviceStat.t)
  : option DeviceAggregate.t :=
  bucket ingested key (filedUnder key stats).

Definition verbatimBucketOf (key : DeviceKey) (stats : list DeviceStat.t)
  : option DeviceAggregate.t :=
  bucket verbatim key (filedUnder key stats).

End Labels.

End DeviceSpec.

(* ================================================================== *)
(** ** The weekly buckets, as the specification describes them *)

Module WeeklySpec.
Import WeeklyView.

(** The entries of a list whose joined key is [key], in their order. *)
Definition keyed (key : string) (weeks : list WeekStat.t) : list WeekStat.t :=
  filter (fun w => String.eqb (weekKey w) key) weeks.

(** The sum of one coerced field over a list of entries. *)
Definition sumOf (f : WeekStat.t -> option number) (weeks : list WeekStat.t) : number :=
  fold_left (fun sum w => add sum (finiteOrZero (f w))) weeks zero.

(** The bucket of [key]: none without an entry of that key; otherwise
    the boundaries of the first such entry and the sums over all of them. *)
Definition bucketOf (key : string) (weeks : list WeekStat.t)
  : option WeeklyAggregate.t :=
  match keyed key weeks with
  | [] => None
  | first :: _ =>
      Some {| WeeklyAggregate.weekStart := WeekStat.week_start first;
              WeeklyAggregate.weekEnd := WeekStat.week_end first;
              WeeklyAggregate.spend := sumOf WeekStat.spend (keyed key weeks);
              WeeklyAggregate.revenue := sumOf WeekStat.revenue (keyed key weeks) |}
  end.

(** The start of the bucket parses to a date. *)
Definition validStart (getTime : string -> number) (a : WeeklyAggregate.t) : Prop :=
  isFinite (getTime (WeeklyAggregate.weekStart a)) = true.

(** [a] does not start after [b]. *)
Definition notAfter (getTime : string -> number) (a b : WeeklyAggregate.t) : Prop :=
  le (getTime (WeeklyAggregate.weekStart a)) (getTime (WeeklyAggregate.weekStart b))
  = true.

End WeeklySpec.

Module WeekExamples.
Import Examples.

(** February, a start that is no date, January: in this order. *)
Definition unparsableWeeks : list WeekStat.t :=
  [ weekStat "2024-02-05" "2024-02-11" 7 9;
    weekStat "soon" "later" 1 1;
    weekStat "2024-01-01" "2024-01-07" 10 30 ].

(** Three weeks out of order, the first of them reported twice. *)
Definition threeWeeks : list Campaign.t :=
  [ weekCampaign [ weekStat "2024-01-15" "2024-01-21" 7 9;
                   weekStat "2024-01-01" "2024-01-07" 10 30 ];
    weekCampaign [ weekStat "2024-01-08" "2024-01-14" 4 6;
                   weekStat "2024-01-15" "2024-01-21" 3 1 ] ].

End WeekExamples.

(* ================================================================== *)
(** ** Campaigns that stay in one branch of the share *)

Module Partition.
Import DemographicView.

(** Every segment states a finite percentage. *)
Definition percentagesStated (breakdowns : list DemographicBreakdown.t) : Prop :=
  Forall
    (fun b => exists p, DemographicBreakdown.percentage_of_audience b = Some (Fin p))
    breakdowns.

(** The stated percentage of a segment as a rational, zero otherwise. *)
Definition statedPercentage (b : DemographicBreakdown.t) : Qc :=
  match DemographicBreakdown.percentage_of_audience b with
  | Some (Fin p) => p
  | _ => 0%Qc
  end.

Definition percentageSum (breakdowns : list DemographicBreakdown.t) : Qc :=
  fold_right (fun b acc => (statedPercentage b + acc)%Qc) 0%Qc breakdowns.

(** A natural number as a rational. *)
Definition natQc (n : nat) : Qc := Q2Qc (inject_Z (Z.of_nat n)).

(** The campaign is in the percentage branch with every segment, or in
    the uniform branch with every segment. *)
Definition singleBranch (breakdowns : list DemographicBreakdown.t) : Prop :=
  (percentagesStated breakdowns /\ gt (totalPercentage breakdowns) zero = true)
  \/ gt (totalPercentage breakdowns) zero = false.

End Partition.

(* ================================================================== *)
(** ** Property lookup on an object literal *)

Module JsObject.

(** What [obj[key]] finds on an object literal whose own values are
    strings: an own value, or a member of [Object.prototype]. *)
Inductive property : Type :=
| Own (value : string)
| Inherited (name : string).

(** [obj[key]]: [None] stands for [undefined]. *)
Definition get (own : StringMap string) (key : string) : option property :=
  match sget own key with
  | Some v => Some (Own v)
  | None =>
      if includes RegionView.Object_prototype key then Some (Inherited key) else None
  end.

End JsObject.

(* ================================================================== *)
(** ** Demographic view: the chart series and the page *)

Module DemographicPage.
Import DemographicView.

(** [type AgeMetricKey = 'spend' | 'revenue'] *)
Inductive AgeMetricKey : Type := metric_spend | metric_revenue.

(** [totals[metricKey]] *)
Definition metric (metricKey : AgeMetricKey) (totals : AgeMetrics.t) : number :=
  match metricKey with
  | metric_spend => AgeMetrics.spend totals
  | metric_revenue => AgeMetrics.revenue totals
  end.

Definition AGE_SPEND_COLOR_MAP : StringMap string :=
  [ ("18-24", "#60A5FA"); ("25-34", "#3B82F6"); ("35-44", "#2563EB");
    ("45-54", "#1D4ED8"); ("55+", "#1E40AF") ].

Definition AGE_REVENUE_COLOR_MAP : StringMap string :=
  [ ("18-24", "#FDE68A"); ("25-34", "#FBBF24"); ("35-44", "#F59E0B");
    ("45-54", "#D97706"); ("55+", "#B45309") ].

Definition DEFAULT_SPEND_COLOR : string := "#1E3A8A".
Definition DEFAULT_REVENUE_COLOR : string := "#92400E".

Module SeriesPoint.
Record t : Type := {
  label : string;
  value : number;
  color : JsObject.property
}.
End SeriesPoint.

(** [totals?.[metricKey] ?? 0] *)
Definition seriesValue (ageTotals : AgeTotals) (metricKey : AgeMetricKey)
  (label : string) : number :=
  match sget ageTotals label with
  | Some totals => metric metricKey totals
  | None => zero
  end.

(** [colorMap[label] ?? fallbackColor] *)
Definition seriesColor (colorMap : StringMap string) (fallbackColor label : string)
  : JsObject.property :=
  nullish (JsObject.get colorMap label) (JsObject.Own fallbackColor).

Definition buildAgeSeries (ageTotals : AgeTotals) (orderedAgeGroups : list string)
  (metricKey : AgeMetricKey) (colorMap : StringMap string) (fallbackColor : string)
  : list SeriesPoint.t :=
  flat_map
    (fun label =>
       let value := seriesValue ageTotals metricKey label in
       if le value zero then []
       else [ {| SeriesPoint.label := label;
                 SeriesPoint.value := value;
                 SeriesPoint.color := seriesColor colorMap fallbackColor label |} ])
    orderedAgeGroups.

(** What the page component computes from the campaigns before it
    renders: the gender totals of the cards, the two chart series and the
    two tables. *)
Record PageData : Type := {
  cardTotals : GenderTotals.t;
  orderedAgeGroups : list string;
  ageSpendData : list SeriesPoint.t;
  ageRevenueData : list SeriesPoint.t;
  maleAgeTableData : list AgeTableRow.t;
  femaleAgeTableData : list AgeTableRow.t
}.

Definition pageData (campaigns : list Campaign.t) : PageData :=
  let r := aggregateCampaignMetrics campaigns in
  let ordered := buildOrderedAgeGroups (ageTotals r) in
  {| cardTotals := genderTotals r;
     orderedAgeGroups := ordered;
     ageSpendData :=
       buildAgeSeries (ageTotals r) ordered metric_spend
         AGE_SPEND_COLOR_MAP DEFAULT_SPEND_COLOR;
     ageRevenueData :=
       buildAgeSeries (ageTotals r) ordered metric_revenue
         AGE_REVENUE_COLOR_MAP DEFAULT_REVENUE_COLOR;
     maleAgeTableData :=
       buildGenderAgeTableData (GenderAgeTotals.male (genderAgeTotals r)) ordered;
     femaleAgeTableData :=
       buildGenderAgeTableData (GenderAgeTotals.female (genderAgeTotals r)) ordered |}.

(** The page after [await fetchMarketingData()]. *)
Definition page (fetched : settled Response) : settled PageData :=
  match fetchMarketingData fetched with
  | Fulfilled marketingData => Fulfilled (pageData (campaignsOf marketingData))
  | Rejected reason => Rejected reason
  end.

(** The totals of an age group show activity:
    [impressions > 0 || clicks > 0 || conversions > 0]. *)
Definition hasActivity (totals : AgeMetrics.t) : bool :=
  gt (AgeMetrics.impressions totals) zero
  || gt (AgeMetrics.clicks totals) zero
  || gt (AgeMetrics.conversions totals) zero.

(** The age group has totals in the map and they show activity. *)
Definition active (m : AgeTotals) (ageGroup : string) : bool :=
  match sget m ageGroup with
  | Some totals => hasActivity totals
  | None => false
  end.

(** The age group gets a point in the series of [metricKey]. *)
Definition charted (m : AgeTotals) (metricKey : AgeMetricKey) (label : string) : bool :=
  negb (le (seriesValue m metricKey label) zero).

End DemographicPage.

(* ================================================================== *)
(** ** Invariants of the demographic aggregates *)

Module Invariant.
Import DemographicView Spec.

(** No age group is twice in a map, and the age groups of the two gender
    maps are age groups of the age totals. *)
Definition wellKeyed (r : Aggregates) : Prop :=
  NoDup (JsMap.keys (ageTotals r))
  /\ NoDup (JsMap.keys (GenderAgeTotals.male (genderAgeTotals r)))
  /\ NoDup (JsMap.keys (GenderAgeTotals.female (genderAgeTotals r)))
  /\ incl (JsMap.keys (GenderAgeTotals.male (genderAgeTotals r)))
       (JsMap.keys (ageTotals r))
  /\ incl (JsMap.keys (GenderAgeTotals.female (genderAgeTotals r)))
       (JsMap.keys (ageTotals r)).

End Invariant.


(* ================================================================== *)
(** ** Region view: the page *)

Module RegionPage.
Import RegionView.

(** [regionAggregates.reduce((sum, region) => sum + region.revenue, 0)] *)
Definition totalRevenue (regionAggregates : list RegionAggregate.t) : number :=
  fold_left (fun sum region => add sum (RegionAggregate.revenue region))
    regionAggregates zero.

(** [regionAggregates.reduce((sum, region) => sum + region.spend, 0)] *)
Definition totalSpend (regionAggregates : list RegionAggregate.t) : number :=
  fold_left (fun sum region => add sum (RegionAggregate.spend region))
    regionAggregates zero.

Definition regionCount (regionAggregates : list RegionAggregate.t) : nat :=
  List.length regionAggregates.

(** [regionAggregates[0]]: [None] stands for [undefined]. *)
Definition topRevenueRegion (regionAggregates : list RegionAggregate.t)
  : option RegionAggregate.t :=
  hd_error regionAggregates.

(** The points of the spend map:
    [regionAggregates.filter((region) => region.spend > 0).map(...)]. *)
Definition spendMapData (regionAggregates : list RegionAggregate.t)
  : list MapPoint.t :=
  map
    (fun region =>
       {| MapPoint.id := (RegionAggregate.region region ++ "-spend")%string;
          MapPoint.label := RegionAggregate.region region;
          MapPoint.subtitle := RegionAggregate.country region;
          MapPoint.latitude := RegionAggregate.latitude region;
          MapPoint.longitude := RegionAggregate.longitude region;
          MapPoint.value := RegionAggregate.spend region |})
    (filter (fun region => gt (RegionAggregate.spend region) zero)
       regionAggregates).

End RegionPage.

(** ** The region buckets as sums *)

Module RegionSpec.
Import RegionView.

(** All the regional entries of a campaign list, in the order the loops
    visit them. *)
Definition allRegionStats (campaigns : list Campaign.t) : list RegionStat.t :=
  flat_map (fun c => nullish (Campaign.regional_performance c) []) campaigns.

Section Keys.
Context {unicode : Unicode}.

(** The name of the entry resolves to coordinates. *)
Definition resolves (s : RegionStat.t) : bool :=
  match resolveCoordinates (RegionStat.region s) with
  | Some _ => true
  | None => false
  end.

(** The entries that resolve and whose normalized name is [key]. *)
Definition filedUnder (key : string) (stats : list RegionStat.t) : list RegionStat.t :=
  filter (fun s => resolves s && String.eqb (normalizeKey (RegionStat.region s)) key)
    stats.

Definition sumField (f : RegionStat.t -> option number) (stats : list RegionStat.t)
  : number :=
  fold_left (fun sum s => add sum (finiteOrZero (f s))) stats zero.

(** The bucket of [key]: none without an entry filed under it; otherwise
    the name, the country and the coordinates of the first such entry and
    the sums of spend and revenue over all of them. *)
Definition bucketOf (key : string) (stats : list RegionStat.t)
  : option RegionAggregate.t :=
  match filedUnder key stats with
  | [] => None
  | first :: _ =>
      let coordinates :=
        nullish (resolveCoordinates (RegionStat.region first))
          {| lat := None; lon := None |} in
      Some {| RegionAggregate.region := RegionStat.region first;
              RegionAggregate.country := RegionStat.country first;
              RegionAggregate.latitude := lat coordinates;
              RegionAggregate.longitude := lon coordinates;
              RegionAggregate.spend := sumField RegionStat.spend (filedUnder key stats);
              RegionAggregate.revenue :=
                sumField RegionStat.revenue (filedUnder key stats) |}
  end.

End Keys.

(** [a] has at least the revenue of [b]. *)
Definition revenueNotBelow (a b : RegionAggregate.t) : Prop :=
  le (RegionAggregate.revenue b) (RegionAggregate.revenue a) = true.

(** Spend and revenue of the aggregate are finite. *)
Definition finiteRegion (a : RegionAggregate.t) : Prop :=
  isFinite (RegionAggregate.spend a) = true
  /\ isFinite (RegionAggregate.revenue a) = true.

End RegionSpec.

Module RegionExamples.
Import Examples.

(** Dubai in three spellings, Riyadh, and a name without coordinates
    that is reported twice. *)
Definition gulf : list Campaign.t :=
  [ regionCampaign [ regionStat "Dubai" "UAE" 30 90;
                     regionStat "Atlantis" "Nowhere" 10 20;
                     regionStat "Riyadh" "Saudi Arabia" 50 200 ];
    regionCampaign [ regionStat " DUBAI " "United Arab Emirates" 5 15;
                     regionStat "Atlantis" "Nowhere" 1 2;
                     regionStat "dubai" "UAE" 2 5 ] ].

(** An aggregate to stand for a missing one. *)
Definition noRegion : RegionView.RegionAggregate.t :=
  {| RegionView.RegionAggregate.region := "";
     RegionView.RegionAggregate.country := "";
     RegionView.RegionAggregate.latitude := None;
     RegionView.RegionAggregate.longitude := None;
     RegionView.RegionAggregate.spend := zero;
     RegionView.RegionAggregate.revenue := zero |}.

End RegionExamples.

(* ================================================================== *)
(** ** Map points and totals of the region page *)

Module MapSpec.
Import RegionView.

(** The value of the point is positive. *)
Definition positive (p : MapPoint.t) : Prop := gt (MapPoint.value p) zero = true.

(** [p] has at least the value of [q]. *)
Definition valueNotBelow (p q : MapPoint.t) : Prop :=
  le (MapPoint.value q) (MapPoint.value p) = true.

End MapSpec.

(* ================================================================== *)
(** ** The page without data *)

Module EmptyPage.
Import DemographicView DemographicPage.

(** The campaign brings no segment: its breakdown is absent or empty. *)
Definition withoutSegments (c : Campaign.t) : Prop :=
  Campaign.demographic_breakdown c = None
  \/ Campaign.demographic_breakdown c = Some [].

(** What the page shows without data: totals of zero, the five canonical
    age groups, no point and no row. *)
Definition emptyPage : PageData :=
  {| cardTotals := genderTotals emptyAggregates;
     orderedAgeGroups := AGE_GROUP_ORDER;
     ageSpendData := [];
     ageRevenueData := [];
     maleAgeTableData := [];
     femaleAgeTableData := [] |}.

End EmptyPage.

(* ================================================================== *)
(** ** [Math.max] and [Math.min] *)

Module JsMath.

(** [Math.max(a, b)]: [NaN] as soon as one argument is. *)
Definition max2 (a b : number) : number :=
  match a, b with
  | NaN, _ | _, NaN => NaN
  | _, _ => if gt a b then a else b
  end.

(** [Math.max(...l)]: [-Infinity] without argument. *)
Definition max (l : list number) : number := fold_left max2 l NegInf.

(** [Math.min(a, b)]: [NaN] as soon as one argument is. *)
Definition min2 (a b : number) : number :=
  match a, b with
  | NaN, _ | _, NaN => NaN
  | _, _ => if gt a b then b else a
  end.

(** [Math.min(...l)]: [Infinity] without argument. *)
Definition min (l : list number) : number := fold_left min2 l PosInf.

(** The number an arithmetic operator reads from a value that may be
    [undefined]: [NaN] for [undefined]. *)
Definition toNumber (x : option number) : number := nullish x NaN.

End JsMath.

(* ================================================================== *)
(** ** The line chart: [src/components/ui/line-chart.tsx]

    The numbers the component computes before it draws: the size of the
    plot and the position of every point.  The markup is left out. *)

Module LineChart.

Module DataPoint.
Record t : Type := {
  label : string;
  value : number
}.
End DataPoint.

(** [{ ...point, x, y }] *)
Module Point.
Record t : Type := {
  label : string;
  value : number;
  x : number;
  y : number
}.
End Point.

Definition DEFAULT_HEIGHT : number := ofZ 320.

(** [margin = { top: 36, right: 36, bottom: 48, left: 60 }] *)
Definition margin_top : number := ofZ 36.
Definition margin_right : number := ofZ 36.
Definition margin_bottom : number := ofZ 48.
Definition margin_left : number := ofZ 60.

(** [chartHeight - margin.top - margin.bottom] *)
Definition innerHeight (height : number) : number :=
  sub (sub height margin_top) margin_bottom.

(** [Math.max((data.length - 1) * 80, 240)] *)
Definition innerWidth (count : nat) : number :=
  JsMath.max [mul (sub (ofNat count) one) (ofZ 80); ofZ 240].

(** [innerWidth + margin.left + margin.right] *)
Definition width (count : nat) : number :=
  add (add (innerWidth count) margin_left) margin_right.

(** [Math.max(...data.map((point) => point.value), 0)] *)
Definition maxValue (data : list DataPoint.t) : number :=
  JsMath.max (map DataPoint.value data ++ [zero]).

(** [maxValue > 0 ? maxValue : 1] *)
Definition safeMaxValue (data : list DataPoint.t) : number :=
  if gt (maxValue data) zero then maxValue data else one.

(** The [x] of the point at [index] among [count] points. *)
Definition pointX (count index : nat) : number :=
  add margin_left
    (if (count =? 1)%nat
     then div (innerWidth count) (ofZ 2)
     else mul (div (ofNat index) (sub (ofNat count) one)) (innerWidth count)).

(** The [y] of a point with the given value. *)
Definition pointY (height safeMax value : number) : number :=
  add margin_top
    (if gt safeMax zero
     then mul (sub one (div value safeMax)) (innerHeight height)
     else innerHeight height).

(** [l.map((item, index) => f(item, index))], counting from [index]. *)
Fixpoint mapIndexed {A B : Type} (f : A -> nat -> B) (l : list A) (index : nat)
  : list B :=
  match l with
  | [] => []
  | a :: l' => f a index :: mapIndexed f l' (S index)
  end.

Definition points (height : number) (data : list DataPoint.t) : list Point.t :=
  mapIndexed
    (fun point index =>
       {| Point.label := DataPoint.label point;
          Point.value := DataPoint.value point;
          Point.x := pointX (List.length data) index;
          Point.y := pointY height (safeMaxValue data) (DataPoint.value point) |})
    data 0.

(** The points of the chart; [None] stands for the placeholder "No data
    available" that is returned for empty data.  An absent [height] is
    the default height. *)
Definition chart (height : option number) (data : list DataPoint.t)
  : option (list Point.t) :=
  match data with
  | [] => None
  | _ :: _ => Some (points (nullish height DEFAULT_HEIGHT) data)
  end.

(** [value] is finite and not negative. *)
Definition nonNegative (value : number) : Prop :=
  isFinite value = true /\ le zero value = true.

End LineChart.

Module ChartExamples.
Import LineChart.

Definition threePoints : list DataPoint.t :=
  [ {| DataPoint.label := "Jan 01"; DataPoint.value := ofZ 30 |};
    {| DataPoint.label := "Jan 08"; DataPoint.value := ofZ 120 |};
    {| DataPoint.label := "Jan 15"; DataPoint.value := ofZ 0 |} ].

End ChartExamples.

(* ================================================================== *)
(** ** The bubble map: [src/components/ui/bubble-map.tsx]

    The window of latitudes and longitudes the component fits to its
    data and the position of the centre of every bubble.  The radius,
    which needs [Math.sqrt], and the markup are left out. *)

Module BubbleMap.
Import RegionView.

Definition MAP_WIDTH : number := ofZ 900.
Definition MAP_HEIGHT : number := ofZ 460.

(** [margin = { top: 56, right: 56, bottom: 72, left: 72 }] *)
Definition margin_top : number := ofZ 56.
Definition margin_right : number := ofZ 56.
Definition margin_bottom : number := ofZ 72.
Definition margin_left : number := ofZ 72.

(** The literal [0.25]. *)
Definition quarter : number := Fin (Q2Qc (1 # 4)).

(** [MAP_WIDTH - margin.left - margin.right] and
    [height - margin.top - margin.bottom] *)
Definition innerWidth : number := sub (sub MAP_WIDTH margin_left) margin_right.
Definition innerHeight (height : number) : number :=
  sub (sub height margin_top) margin_bottom.

(** The window on one axis, from the coordinates of the data on it:
    [span = Math.max(max - min, 0)], [padding = Math.max(1, span * 0.25)],
    [paddedMin = min - padding], [paddedMax = max + padding] and
    [range = Math.max(paddedMax - paddedMin, 2)]. *)
Record Axis : Type := {
  paddedMin : number;
  paddedMax : number;
  range : number
}.

Definition axis (coordinates : list number) : Axis :=
  let lo := JsMath.min coordinates in
  let hi := JsMath.max coordinates in
  let span := JsMath.max [sub hi lo; zero] in
  let padding := JsMath.max [one; mul span quarter] in
  let paddedMin := sub lo padding in
  let paddedMax := add hi padding in
  {| paddedMin := paddedMin;
     paddedMax := paddedMax;
     range := JsMath.max [sub paddedMax paddedMin; ofZ 2] |}.

Definition latitudes (data : list MapPoint.t) : list number :=
  map (fun item => JsMath.toNumber (MapPoint.latitude item)) data.
Definition longitudes (data : list MapPoint.t) : list number :=
  map (fun item => JsMath.toNumber (MapPoint.longitude item)) data.

(** [(coordinate - paddedMin) / range] *)
Definition normalized (a : Axis) (coordinate : number) : number :=
  div (sub coordinate (paddedMin a)) (range a).

(** The centre of the bubble of [item]:
    [x = margin.left + normalizedLon * innerWidth] and
    [y = margin.top + (1 - normalizedLat) * innerHeight]. *)
Definition centreX (data : list MapPoint.t) (item : MapPoint.t) : number :=
  add margin_left
    (mul (normalized (axis (longitudes data)) (JsMath.toNumber (MapPoint.longitude item)))
       innerWidth).

Definition centreY (height : number) (data : list MapPoint.t) (item : MapPoint.t)
  : number :=
  add margin_top
    (mul (sub one
            (normalized (axis (latitudes data))
               (JsMath.toNumber (MapPoint.latitude item))))
       (innerHeight height)).

(** The centres of the bubbles; [None] stands for the placeholder "No
    regional data available" that is returned for empty data.  An absent
    [height] is [MAP_HEIGHT]. *)
Definition centres (height : option number) (data : list MapPoint.t)
  : option (list (MapPoint.t * number * number)) :=
  match data with
  | [] => None
  | _ :: _ =>
      Some (map (fun item =>
                   (item, centreX data item,
                    centreY (nullish height MAP_HEIGHT) data item))
              data)
  end.

(** The point is a place on the globe: its latitude is given and
    between -90 and 90, its longitude is given and between -180 and 180. *)
Definition onTheGlobe (item : MapPoint.t) : Prop :=
  le (ofZ (-90)) (JsMath.toNumber (MapPoint.latitude item)) = true
  /\ le (JsMath.toNumber (MapPoint.latitude item)) (ofZ 90) = true
  /\ le (ofZ (-180)) (JsMath.toNumber (MapPoint.longitude item)) = true
  /\ le (JsMath.toNumber (MapPoint.longitude item)) (ofZ 180) = true.

(** [x] and [y] are inside the plot of the given height. *)
Definition insidePlot (height x y : number) : Prop :=
  le margin_left x = true
  /\ le x (add margin_left innerWidth) = true
  /\ le margin_top y = true
  /\ le y (add margin_top (innerHeight height)) = true.

End BubbleMap.

Module MapExamples.
Import Examples RegionView.

(** The revenue map of [RegionExamples.gulf]. *)
Definition gulfMap : list MapPoint.t :=
  revenueMapData (aggregateRegionalPerformance RegionExamples.gulf).

(** Dubai next to a region that is named like a member of
    [Object.prototype]. *)
Definition strayName : list Campaign.t :=
  [ regionCampaign [ regionStat "Dubai" "UAE" 30 90;
                     regionStat "constructor" "Nowhere" 10 20 ] ].

Definition strayMap : list MapPoint.t :=
  revenueMapData (aggregateRegionalPerformance strayName).

End MapExamples.

(* ================================================================== *)
(** * Properties *)

(** ** Numbers *)

Lemma Fin_ext (a b : Qc) : (a == b)%Q -> Fin a = Fin b.
Proof. intros H. f_equal. now apply Qc_is_canon. Qed.

(** Closes an equation between two numbers given by closed terms. *)
Ltac num_eq :=
  lazymatch goal with
  | |- @eq number _ _ => vm_compute; first [reflexivity | apply Fin_ext; reflexivity]
  | |- @eq Qc _ _ => apply Qc_is_canon; vm_compute; reflexivity
  end.

Example add_example : add (ofZ 60) (ofZ 50) = ofZ 110.
Proof. num_eq. Qed.

Example div_example : mul (ofZ 100) (div one (ofNat 2)) = ofZ 50.
Proof. num_eq. Qed.

Example div_zero_example : div one zero = PosInf /\ div zero zero = NaN.
Proof. split; num_eq. Qed.

Example gt_nan_example : gt NaN zero = false /\ le NaN zero = false.
Proof. split; reflexivity. Qed.

Lemma add_zero_r (x : number) : add x zero = x.
Proof.
  destruct x as [a| | |]; try reflexivity.
  unfold zero, ofZ. simpl. f_equal. apply Qcplus_0_r.
Qed.

Lemma add_zero_l (x : number) : add zero x = x.
Proof.
  destruct x as [a| | |]; try reflexivity.
  unfold zero, ofZ. simpl. f_equal. apply Qcplus_0_l.
Qed.

Lemma finiteOrZero_missing : finiteOrZero None = zero.
Proof. reflexivity. Qed.

Lemma finiteOrZero_nonfinite (x : number) :
  isFinite x = false -> finiteOrZero (Some x) = zero.
Proof. unfold finiteOrZero. simpl. now intros ->. Qed.

Lemma finiteOrZero_finite (x : number) :
  isFinite x = true -> finiteOrZero (Some x) = x.
Proof. unfold finiteOrZero. simpl. now intros ->. Qed.

Lemma finiteOrZero_isFinite (x : option number) : isFinite (finiteOrZero x) = true.
Proof.
  unfold finiteOrZero. destruct (isFinite (nullish x zero)) eqn:E; [exact E|reflexivity].
Qed.

Lemma add_isFinite (x y : number) :
  isFinite x = true -> isFinite y = true -> isFinite (add x y) = true.
Proof. destruct x, y; simpl; congruence. Qed.

(** On finite numbers [x <= 0] and [x > 0] exclude each other and one of
    them holds. *)
Lemma le_gt_finite (x : number) :
  isFinite x = true -> le x zero = negb (gt x zero).
Proof. destruct x; simpl; try discriminate. reflexivity. Qed.

Lemma le_gt_exclusive (x y : number) : le x y = true -> gt x y = false.
Proof.
  destruct x, y; simpl; try discriminate; try reflexivity;
    intros H; now apply negb_true_iff in H.
Qed.

(** ** Strings *)

Example toLowerCase_example : toLowerCase "Mobile" = "mobile".
Proof. reflexivity. Qed.

Example trim_example : toLowerCase (trim "  Abu Dhabi ") = "abu dhabi".
Proof. reflexivity. Qed.

(** ** Maps *)

Section JsMapFacts.
Variables K V : Type.
Variable eqb : K -> K -> bool.
Hypothesis eqb_spec : forall a b, reflect (a = b) (eqb a b).

Lemma get_set_same (m : JsMap.t K V) k v :
  JsMap.get eqb (JsMap.set eqb m k v) k = Some v.
Proof.
  induction m as [|[k' v'] m IH]; simpl.
  - destruct (eqb_spec k k); congruence.
  - destruct (eqb_spec k' k) as [E|E]; simpl.
    + destruct (eqb_spec k' k); congruence.
    + destruct (eqb_spec k' k); congruence.
Qed.

Lemma get_set_other (m : JsMap.t K V) k k' v :
  k <> k' -> JsMap.get eqb (JsMap.set eqb m k v) k' = JsMap.get eqb m k'.
Proof.
  intros Hne. induction m as [|[k0 v0] m IH]; simpl.
  - destruct (eqb_spec k k'); congruence.
  - destruct (eqb_spec k0 k) as [E|E]; simpl.
    + subst. destruct (eqb_spec k k'); congruence.
    + destruct (eqb_spec k0 k'); congruence.
Qed.

Lemma keys_set_present (m : JsMap.t K V) k v w :
  JsMap.get eqb m k = Some w -> JsMap.keys (JsMap.set eqb m k v) = JsMap.keys m.
Proof.
  unfold JsMap.keys. induction m as [|[k0 v0] m IH]; simpl; [discriminate|].
  destruct (eqb_spec k0 k) as [E|E]; simpl; [reflexivity|].
  intros H. now rewrite IH.
Qed.

Lemma keys_set_absent (m : JsMap.t K V) k v :
  JsMap.get eqb m k = None -> JsMap.keys (JsMap.set eqb m k v) = JsMap.keys m ++ [k].
Proof.
  unfold JsMap.keys. induction m as [|[k0 v0] m IH]; simpl; [reflexivity|].
  destruct (eqb_spec k0 k) as [E|E]; simpl; [discriminate|].
  intros H. now rewrite IH.
Qed.

Lemma get_None_keys (m : JsMap.t K V) k :
  JsMap.get eqb m k = None <-> ~ In k (JsMap.keys m).
Proof.
  unfold JsMap.keys. induction m as [|[k0 v0] m IH]; simpl.
  - tauto.
  - destruct (eqb_spec k0 k) as [E|E].
    + split; [discriminate | intros H; exfalso; apply H; now left].
    + rewrite IH. tauto.
Qed.

Lemma get_Some_In (m : JsMap.t K V) k v :
  JsMap.get eqb m k = Some v -> In v (JsMap.values m).
Proof.
  unfold JsMap.values. induction m as [|[k0 v0] m IH]; simpl; [discriminate|].
  destruct (eqb_spec k0 k); [intros [= ->]; now left | intros H; right; auto].
Qed.

Lemma In_values_set (m : JsMap.t K V) k v x :
  In x (JsMap.values (JsMap.set eqb m k v)) -> x = v \/ In x (JsMap.values m).
Proof.
  unfold JsMap.values. induction m as [|[k0 v0] m IH]; simpl.
  - intros [->|[]]; now left.
  - destruct (eqb_spec k0 k); simpl.
    + intros [->|H]; [now left | right; now right].
    + intros [->|H]; [right; now left|].
      destruct (IH H); [now left | right; now right].
Qed.
End JsMapFacts.

Lemma string_eqb_spec (a b : string) : reflect (a = b) (String.eqb a b).
Proof. apply String.eqb_spec. Qed.

Lemma sget_sset_same {V : Type} (m : StringMap V) k v : sget (sset m k v) k = Some v.
Proof. apply get_set_same, string_eqb_spec. Qed.

Lemma sget_sset_other {V : Type} (m : StringMap V) k k' v :
  k <> k' -> sget (sset m k v) k' = sget m k'.
Proof. apply get_set_other, string_eqb_spec. Qed.

(** ** Sorting *)

Section SortFacts.
Variable A : Type.
Variable cmp : A -> A -> number.

Lemma insert_perm x l : Permutation (x :: l) (JsArray.insert cmp x l).
Proof.
  induction l as [|y l IH]; simpl; [reflexivity|].
  destruct (gt (cmp x y) zero); [|reflexivity].
  rewrite perm_swap. now constructor.
Qed.

Lemma sort_perm l : Permutation l (JsArray.sort cmp l).
Proof.
  induction l as [|x l IH]; simpl; [constructor|].
  rewrite <- insert_perm. now constructor.
Qed.

(** The order the comparator induces on the elements of interest. *)
Variable R : A -> A -> Prop.
Variable P : A -> Prop.
Hypothesis cmp_le : forall x y, P x -> P y -> gt (cmp x y) zero = false -> R x y.
Hypothesis cmp_gt : forall x y, P x -> P y -> gt (cmp x y) zero = true -> R y x.

Lemma insert_Forall x l : P x -> Forall P l -> Forall P (JsArray.insert cmp x l).
Proof.
  intros Hx Hl. eapply Permutation_Forall; [apply insert_perm|]. now constructor.
Qed.

Lemma insert_sorted x l :
  P x -> Forall P l -> Sorted R l -> Sorted R (JsArray.insert cmp x l).
Proof.
  intros Hx Hl Hs. induction Hs as [|y l Hs IH Hhd]; simpl; [repeat constructor|].
  inversion Hl as [|? ? Hy Hl']; subst.
  destruct (gt (cmp x y) zero) eqn:E.
  - constructor; [now apply IH|].
    destruct l as [|z l]; simpl.
    + constructor. now apply cmp_gt.
    + destruct (gt (cmp x z) zero) eqn:E'.
      * constructor. now inversion Hhd.
      * constructor. now apply cmp_gt.
  - constructor; [now constructor|]. constructor. now apply cmp_le.
Qed.

Lemma sort_sorted l : Forall P l -> Sorted R (JsArray.sort cmp l).
Proof.
  induction l as [|x l IH]; simpl; intros Hl; [constructor|].
  inversion Hl; subst.
  apply insert_sorted; auto.
  eapply Permutation_Forall; [apply sort_perm|]. assumption.
Qed.
End SortFacts.

(* ================================================================== *)
(** ** The demographic aggregator *)

Import DemographicView Spec Examples.

(** Closes an equation between closed terms made of numbers. *)
Ltac eval_eq :=
  vm_compute;
  first
    [ reflexivity
    | repeat
        (first
           [ reflexivity
           | apply Fin_ext; reflexivity
           | apply Qc_is_canon; reflexivity
           | apply (f_equal (@Some _))
           | split ]) ].

Lemma aggregateCampaignMetrics_snoc campaigns c :
  aggregateCampaignMetrics (campaigns ++ [c])
  = addCampaign (aggregateCampaignMetrics campaigns) c.
Proof. unfold aggregateCampaignMetrics. now rewrite fold_left_app. Qed.

Lemma addCampaign_no_breakdown acc c :
  nullish (Campaign.demographic_breakdown c) [] = [] -> addCampaign acc c = acc.
Proof. unfold addCampaign. now intros ->. Qed.

(** The end-to-end scenario of the specification: male 18-24 gets
    60 + 50, female 25-34 gets 40, and so do the gender totals. *)
Example end_to_end_scenario :
  let r := aggregateCampaignMetrics [campaignA; campaignB] in
  option_map AgeMetrics.spend (sget (GenderAgeTotals.male (genderAgeTotals r)) "18-24")
  = Some (ofZ 110)
  /\ option_map AgeMetrics.spend (sget (GenderAgeTotals.female (genderAgeTotals r)) "25-34")
     = Some (ofZ 40)
  /\ GenderMetrics.spend (GenderTotals.male (genderTotals r)) = ofZ 110
  /\ GenderMetrics.spend (GenderTotals.female (genderTotals r)) = ofZ 40.
Proof. eval_eq. Qed.

(** C1 (the code breaks the partition invariant).  A campaign with spend
    100 whose first segment states a percentage of 60 and whose second
    segment states none: the first segment gets the share 60/60, the
    second the uniform share 1/2, and the age aggregator allocates 150 of
    spend and 60 of the revenue of 40. *)
Theorem C1_mixed_percentages_overallocate :
  Campaign.spend mixedCampaign = Some (ofZ 100)
  /\ Campaign.revenue mixedCampaign = Some (ofZ 40)
  /\ map (share (totalPercentage mixedSegments) 2) mixedSegments
     = [ofZ 1; div one (ofZ 2)]
  /\ segmentContributions (ofZ 100) mixedSegments = ofZ 150
  /\ allocatedSpend (ageTotals (aggregateCampaignMetrics [mixedCampaign])) = ofZ 150
  /\ allocatedRevenue (ageTotals (aggregateCampaignMetrics [mixedCampaign])) = ofZ 60.
Proof.
  repeat split; try reflexivity; try (vm_compute; first [reflexivity | apply Fin_ext; reflexivity]).
  vm_compute. repeat (f_equal; try (apply Qc_is_canon; reflexivity)).
Qed.

(** C2 (the demographic aggregator does not coerce non-finite values).
    A campaign whose spend is [Infinity]: the device, region and week
    aggregators would add zero for such a value, the demographic
    aggregator allocates [Infinity] to the age group and to the gender. *)
Theorem C2_infinite_spend_reaches_the_totals :
  let r := aggregateCampaignMetrics [infiniteSpendCampaign] in
  finiteOrZero (Campaign.spend infiniteSpendCampaign) = zero
  /\ option_map AgeMetrics.spend (sget (ageTotals r) "18-24") = Some PosInf
  /\ GenderMetrics.spend (GenderTotals.male (genderTotals r)) = PosInf
  /\ allocatedSpend (ageTotals r) = PosInf.
Proof. repeat split; reflexivity. Qed.

(** What the coercion of the device, region and week aggregators does to
    a field that is missing or not finite: the total it is added to stays
    as it is. *)
Lemma missing_or_nonfinite_adds_nothing (total : number) (x : option number) :
  x = None \/ (exists v, x = Some v /\ isFinite v = false) ->
  add total (finiteOrZero x) = total.
Proof.
  intros [-> | [v [-> Hv]]].
  - apply add_zero_r.
  - rewrite (finiteOrZero_nonfinite _ Hv). apply add_zero_r.
Qed.

(** In the demographic aggregator a missing count is read as zero. *)
Lemma missing_count_is_zero f segment :
  DemographicBreakdown.performance segment = None
  \/ (exists p, DemographicBreakdown.performance segment = Some p /\ f p = None) ->
  performanceField f segment = zero.
Proof.
  unfold performanceField. intros [-> | [p [-> Hp]]]; [reflexivity|].
  now rewrite Hp.
Qed.

(** C10.  A campaign whose demographic breakdown is absent or empty can
    be removed from the list without changing the result of
    [aggregateCampaignMetrics]; its spend is not allocated, so the
    allocated spend can be strictly below the spend of the campaigns
    (here 50 against 150). *)
Theorem C10_campaign_without_breakdown_is_dropped :
  (forall before c after,
      Campaign.demographic_breakdown c = None
      \/ Campaign.demographic_breakdown c = Some [] ->
      aggregateCampaignMetrics (before ++ c :: after)
      = aggregateCampaignMetrics (before ++ after))
  /\ campaignSpend [unbrokenCampaign; campaignB] = ofZ 150
  /\ allocatedSpend (ageTotals (aggregateCampaignMetrics [unbrokenCampaign; campaignB]))
     = ofZ 50
  /\ lt (allocatedSpend (ageTotals (aggregateCampaignMetrics [unbrokenCampaign; campaignB])))
        (campaignSpend [unbrokenCampaign; campaignB]) = true.
Proof.
  split.
  - intros before c after H.
    unfold aggregateCampaignMetrics.
    rewrite !fold_left_app. simpl.
    rewrite addCampaign_no_breakdown; [reflexivity|].
    destruct H as [-> | ->]; reflexivity.
  - repeat split; vm_compute; first [reflexivity | apply Fin_ext; reflexivity].
Qed.

Lemma C10_campaign_without_breakdown_is_dropped_witness :
  aggregateCampaignMetrics ([campaignA] ++ unbrokenCampaign :: [campaignB])
  = aggregateCampaignMetrics ([campaignA] ++ [campaignB]).
Proof.
  apply (proj1 C10_campaign_without_breakdown_is_dropped).
  left. reflexivity.
Defined.

Lemma addAgeMetrics_added m key s r i c v :
  Contribution.added m (addAgeMetrics m key s r i c v) key s r i c v.
Proof.
  unfold Contribution.added, addAgeMetrics. split.
  - now rewrite sget_sset_same.
  - intros k Hk. now apply sget_sset_other.
Qed.

Lemma genderKeyOf_male s : s = "male" -> genderKeyOf s = Some Male.
Proof. now intros ->. Qed.

Lemma genderKeyOf_female s : s = "female" -> genderKeyOf s = Some Female.
Proof. now intros ->. Qed.

Lemma genderKeyOf_other s : s <> "male" -> s <> "female" -> genderKeyOf s = None.
Proof.
  intros Hm Hf. unfold genderKeyOf.
  destruct (String.eqb_spec s "male"); [contradiction|].
  destruct (String.eqb_spec s "female"); [contradiction|reflexivity].
Qed.


(* ================================================================== *)
(** ** The demographic aggregates as sums over the segments *)

Section SegmentSums.
Context {unicode : Unicode}.
Import SegmentSpec.

















End SegmentSums.

Example other_gender_counts_under_Unknown :
  let out := aggregateCampaignMetrics
               [demographicCampaign (Some (ofZ 100)) None (Some [otherSegment])] in
  option_map AgeMetrics.clicks (sget (ageTotals out) "Unknown") = Some (ofZ 12)
  /\ option_map AgeMetrics.spend (sget (ageTotals out) "Unknown") = Some (ofZ 100)
  /\ genderTotals out = genderTotals emptyAggregates
  /\ genderAgeTotals out = genderAgeTotals emptyAggregates.
Proof. eval_eq. Qed.


(* ================================================================== *)
(** ** The derived metrics *)

Import DeviceView Policy.

Lemma DeviceKey_eqb_spec (a b : DeviceKey) : reflect (a = b) (DeviceKey_eqb a b).
Proof. destruct a, b; simpl; constructor; congruence. Qed.

Lemma ratioOrZero_intro d ratio :
  ratioOrZero d ratio (if gt d zero then ratio else zero).
Proof. split; intros H; now rewrite H. Qed.

Lemma ratioOrNull_intro d ratio :
  ratioOrNull d ratio (if gt d zero then Some ratio else None).
Proof. split; intros H; now rewrite H. Qed.

Lemma enrichMetrics_get totals key :
  JsMap.get DeviceKey_eqb (enrichMetrics totals) key
  = Some (enrich (totalClicks totals) (nullish (dget totals key) (emptyAggregate key))).
Proof. destruct key; reflexivity. Qed.

Lemma tableRow_policy ageGroup totals row :
  In row (tableRow ageGroup totals) ->
  AgeTableRow.ageGroup row = ageGroup
  /\ ratioOrZero (AgeMetrics.impressions totals)
       (percent (AgeMetrics.clicks totals) (AgeMetrics.impressions totals))
       (AgeTableRow.ctr row)
  /\ ratioOrZero (AgeMetrics.clicks totals)
       (percent (AgeMetrics.conversions totals) (AgeMetrics.clicks totals))
       (AgeTableRow.conversionRate row).
Proof.
  unfold tableRow.
  destruct (negb _); simpl; [intros []|].
  intros [<-|[]]; simpl. repeat split; apply ratioOrZero_intro.
Qed.

Lemma buildGenderAgeTableData_row m ordered row :
  In row (buildGenderAgeTableData m ordered) ->
  exists totals,
    sget m (AgeTableRow.ageGroup row) = Some totals
    /\ In row (tableRow (AgeTableRow.ageGroup row) totals).
Proof.
  unfold buildGenderAgeTableData. rewrite in_flat_map.
  intros [g [_ Hrow]].
  destruct (sget m g) as [totals|] eqn:E; [|destruct Hrow].
  exists totals.
  assert (AgeTableRow.ageGroup row = g) as -> by (now apply (tableRow_policy g totals)).
  split; assumption.
Qed.

Lemma not_positive (d : number) :
  gt d zero = false <-> le d zero = true \/ d = NaN.
Proof.
  destruct d as [q| | |]; simpl.
  - split; [intros ->; now left | intros [H|H]; [|discriminate]].
    now apply negb_true_iff in H.
  - split; [discriminate | intros [H|H]; discriminate].
  - split; [intros _; now left | reflexivity].
  - split; [intros _; now right | reflexivity].
Qed.

(** C4, as the specification words it, fails on a row whose impressions
    are [NaN], the sum of [Infinity] and [-Infinity]: they are not zero
    or less, the ratio of the clicks to them is [NaN], and the CTR of the
    row is zero. *)
Lemma C4_zero_denominator_policy_counterexample :
  let r := aggregateCampaignMetrics [oppositeInfinities] in
  let table :=
    buildGenderAgeTableData (GenderAgeTotals.male (genderAgeTotals r))
      (buildOrderedAgeGroups (ageTotals r)) in
  exists row totals,
    table = [row]
    /\ sget (GenderAgeTotals.male (genderAgeTotals r)) (AgeTableRow.ageGroup row)
       = Some totals
    /\ AgeMetrics.impressions totals = NaN
    /\ AgeMetrics.clicks totals = ofZ 8
    /\ AgeTableRow.ctr row = zero
    /\ percent (AgeMetrics.clicks totals) (AgeMetrics.impressions totals) = NaN
    /\ ~ zeroOrRatio (AgeMetrics.impressions totals)
           (percent (AgeMetrics.clicks totals) (AgeMetrics.impressions totals))
           (AgeTableRow.ctr row).
Proof.
  cbv zeta. eexists. eexists.
  split; [vm_compute; reflexivity|].
  split; [vm_compute; reflexivity|].
  split; [reflexivity|].
  split; [eval_eq|].
  split; [reflexivity|].
  split; [reflexivity|].
  intros [_ H]. specialize (H eq_refl). discriminate H.
Qed.

(** C4, amended.  The derived metrics of both views.  For either device
    key the enriched record is built from the aggregate of that key (the
    display label and five zeros when the key has none): its CTR is
    clicks/impressions*100 when the impressions are positive and zero
    otherwise; its conversion rate is conversions/clicks*100 when the
    clicks are positive and zero otherwise; its ROAS is revenue/spend when
    the spend is positive and absent otherwise; its traffic share is
    clicks/total*100 when the total, the sum of the clicks of all
    buckets, is positive and zero otherwise.  Every row of a
    gender-by-age table comes from the totals of its age group and has
    its CTR and its conversion rate under the same rule.  A denominator
    is not positive exactly when it is zero or less or is [NaN]. *)
Theorem C4_zero_denominator_policy :
  (forall (totals : DeviceTotals) (key : DeviceKey),
      exists m,
        JsMap.get DeviceKey_eqb (enrichMetrics totals) key = Some m
        /\ DeviceMetrics.aggregate m = nullish (dget totals key) (allZero key)
        /\ derived (clicksOfAllBuckets totals) m)
  /\ (forall (genderAgeTotals : AgeTotals) (orderedAgeGroups : list string)
             (row : AgeTableRow.t),
         In row (buildGenderAgeTableData genderAgeTotals orderedAgeGroups) ->
         exists totals,
           sget genderAgeTotals (AgeTableRow.ageGroup row) = Some totals
           /\ ratioOrZero (AgeMetrics.impressions totals)
                (percent (AgeMetrics.clicks totals) (AgeMetrics.impressions totals))
                (AgeTableRow.ctr row)
           /\ ratioOrZero (AgeMetrics.clicks totals)
                (percent (AgeMetrics.conversions totals) (AgeMetrics.clicks totals))
                (AgeTableRow.conversionRate row))
  /\ (forall d : number, gt d zero = false <-> le d zero = true \/ d = NaN).
Proof.
  split; [|split].
  - intros totals key. eexists. split; [apply enrichMetrics_get|].
    split; [now destruct key|].
    unfold derived. cbn [DeviceMetrics.aggregate enrich DeviceMetrics.ctr
      DeviceMetrics.conversionRate DeviceMetrics.roas DeviceMetrics.trafficShare].
    repeat split; first [apply ratioOrZero_intro | apply ratioOrNull_intro].
  - intros m ordered row Hrow.
    destruct (buildGenderAgeTableData_row _ _ _ Hrow) as [totals [Hget Hin]].
    exists totals. split; [exact Hget|].
    now apply (tableRow_policy _ _ _ Hin).
  - exact not_positive.
Qed.

(** The first row of the male table of campaign A, the group 18-24 with
    1000 impressions, 50 clicks and 5 conversions, has a CTR of 5 and a
    conversion rate of 10. *)
Lemma C4_zero_denominator_policy_witness :
  let r := aggregateCampaignMetrics [campaignA] in
  let table :=
    buildGenderAgeTableData (GenderAgeTotals.male (genderAgeTotals r))
      (buildOrderedAgeGroups (ageTotals r)) in
  exists row,
    In row table
    /\ AgeTableRow.ctr row = ofZ 5
    /\ AgeTableRow.conversionRate row = ofZ 10.
Proof.
  intros r table.
  pose (row := hd {| AgeTableRow.ageGroup := ""; AgeTableRow.impressions := zero;
                     AgeTableRow.clicks := zero; AgeTableRow.conversions := zero;
                     AgeTableRow.ctr := zero; AgeTableRow.conversionRate := zero |}
                 table).
  assert (Hin : In row table) by (vm_compute; left; reflexivity).
  destruct (proj1 (proj2 C4_zero_denominator_policy) _ _ row Hin)
    as [totals (Hget & Hctr & Hrate)].
  exists row. split; [exact Hin|].
  assert (Htotals : totals
                    = {| AgeMetrics.spend := ofZ 60; AgeMetrics.revenue := zero;
                         AgeMetrics.impressions := ofZ 1000;
                         AgeMetrics.clicks := ofZ 50;
                         AgeMetrics.conversions := ofZ 5 |}).
  { assert (E : sget (GenderAgeTotals.male (genderAgeTotals r))
                  (AgeTableRow.ageGroup row)
                = Some {| AgeMetrics.spend := ofZ 60; AgeMetrics.revenue := zero;
                          AgeMetrics.impressions := ofZ 1000;
                          AgeMetrics.clicks := ofZ 50;
                          AgeMetrics.conversions := ofZ 5 |}) by eval_eq.
    rewrite E in Hget. now injection Hget. }
  subst totals. split.
  - rewrite (proj1 Hctr eq_refl). eval_eq.
  - rewrite (proj1 Hrate eq_refl). eval_eq.
Defined.

Example table_of_campaign_A :
  let r := aggregateCampaignMetrics [campaignA] in
  map (fun row => (AgeTableRow.ageGroup row, AgeTableRow.ctr row,
                   AgeTableRow.conversionRate row))
    (buildGenderAgeTableData (GenderAgeTotals.male (genderAgeTotals r))
       (buildOrderedAgeGroups (ageTotals r)))
  = [("18-24", ofZ 5, ofZ 10)].
Proof.
  vm_compute. repeat (f_equal; try (apply Qc_is_canon; reflexivity)).
Qed.

Example roas_of_zero_spend_is_absent :
  DeviceMetrics.roas (enrich zero (emptyAggregate mobile)) = None
  /\ DeviceMetrics.ctr (enrich zero (emptyAggregate mobile)) = zero
  /\ DeviceMetrics.conversionRate (enrich zero (emptyAggregate mobile)) = zero
  /\ DeviceMetrics.trafficShare (enrich zero (emptyAggregate mobile)) = zero.
Proof. repeat split; reflexivity. Qed.

(* ================================================================== *)
(** ** The device buckets *)

Lemma dget_dset_same (m : DeviceTotals) k v : dget (dset m k v) k = Some v.
Proof. apply get_set_same, DeviceKey_eqb_spec. Qed.

Lemma dget_dset_other (m : DeviceTotals) k k' v :
  k <> k' -> dget (dset m k v) k' = dget m k'.
Proof. apply get_set_other, DeviceKey_eqb_spec. Qed.

Lemma finiteOrZero_ingested x : finiteOrZero x = DeviceSpec.ingested x.
Proof. destruct x as [[q| | |]|]; reflexivity. Qed.

Section DeviceBuckets.
Context {unicode : Unicode}.
Import DeviceSpec.

Lemma labelled_deviceKeyOf key s :
  labelled key s
  = match deviceKeyOf (DeviceStat.device s) with
    | Some k => DeviceKey_eqb k key
    | None => false
    end.
Proof.
  unfold labelled, deviceKeyOf.
  destruct (DeviceStat.device s) as [d|]; [|reflexivity].
  destruct (String.eqb_spec (toLowerCase d) "mobile") as [E|Hm].
  - rewrite E. now destruct key.
  - destruct (String.eqb_spec (toLowerCase d) "desktop") as [E|Hd].
    + rewrite E. now destruct key.
    + destruct key; cbn [DeviceKey_name]; apply String.eqb_neq; assumption.
Qed.

Lemma aggregateDevicePerformance_allDeviceStats campaigns :
  aggregateDevicePerformance campaigns
  = fold_left addDeviceStat (allDeviceStats campaigns) (JsMap.empty _ _).
Proof.
  unfold aggregateDevicePerformance, allDeviceStats.
  generalize (JsMap.empty DeviceKey DeviceAggregate.t).
  induction campaigns as [|c cs IH]; simpl; intros t; [reflexivity|].
  rewrite fold_left_app. apply IH.
Qed.

Lemma filedUnder_app key l l' :
  filedUnder key (l ++ l') = filedUnder key l ++ filedUnder key l'.
Proof. apply filter_app. Qed.

Lemma filedUnder_single_same s key :
  deviceKeyOf (DeviceStat.device s) = Some key -> filedUnder key [s] = [s].
Proof.
  intros H. unfold filedUnder. cbn [filter]. rewrite labelled_deviceKeyOf, H.
  now destruct (DeviceKey_eqb_spec key key).
Qed.

Lemma filedUnder_single_other s key :
  deviceKeyOf (DeviceStat.device s) <> Some key -> filedUnder key [s] = [].
Proof.
  intros H. unfold filedUnder. cbn [filter]. rewrite labelled_deviceKeyOf.
  destruct (deviceKeyOf (DeviceStat.device s)) as [k|]; [|reflexivity].
  destruct (DeviceKey_eqb_spec k key); [|reflexivity]. subst. contradiction.
Qed.

Lemma sumField_snoc read f l s :
  sumField read f (l ++ [s]) = add (sumField read f l) (read (f s)).
Proof. unfold sumField. now rewrite fold_left_app. Qed.

(** The bucket after one more entry of its key. *)
Lemma bucket_snoc key l s :
  bucket ingested key (l ++ [s])
  = Some (accumulate (nullish (bucket ingested key l) (emptyAggregate key)) s).
Proof.
  unfold accumulate. rewrite !finiteOrZero_ingested.
  destruct l as [|s0 l].
  - now destruct key.
  - rewrite <- app_comm_cons. unfold bucket.
    rewrite (app_comm_cons l [s] s0), !sumField_snoc. reflexivity.
Qed.

Lemma fold_addDeviceStat_bucket stats key :
  dget (fold_left addDeviceStat stats (JsMap.empty _ _)) key = bucketOf key stats.
Proof.
  induction stats as [|s l IH] using rev_ind; [reflexivity|].
  rewrite fold_left_app. cbn [fold_left].
  unfold addDeviceStat at 1. unfold bucketOf. rewrite filedUnder_app.
  destruct (deviceKeyOf (DeviceStat.device s)) as [k|] eqn:Ek.
  - destruct (DeviceKey_eqb_spec k key) as [E|E].
    + subst k. rewrite dget_dset_same, IH, (filedUnder_single_same _ Ek).
      now rewrite bucket_snoc.
    + rewrite dget_dset_other by assumption. rewrite IH.
      rewrite filedUnder_single_other, app_nil_r; [reflexivity|].
      rewrite Ek. congruence.
  - rewrite IH, filedUnder_single_other, app_nil_r; [reflexivity|].
    rewrite Ek. discriminate.
Qed.

(** C5, amended.  For every campaign list and either key, with the
    [device_performance] entries taken in the order of the loops.  The
    totals have a bucket for the key exactly when some entry has a label
    that, lowercased, is the key; the bucket carries the display label of
    the key and, for each of the five metrics, the sum over those entries
    of the metric as it is added: as it is given when it is present and
    finite, zero when it is absent or not finite.  An entry whose label
    is absent or lowercases to neither key leaves the totals as the loops
    have reached them, and can be taken out of the list without changing
    a bucket.  The enriched output has the two keys,
    mobile and desktop, and the record of a key is built from the bucket
    of the key or, without one, from the display label and five zeros. *)
Theorem C5_device_filter_and_zero_default :
  forall (campaigns : list Campaign.t) (key : DeviceKey),
    let totals := aggregateDevicePerformance campaigns in
    let stats := allDeviceStats campaigns in
    dget totals key = bucketOf key stats
    /\ (forall before s after,
           stats = before ++ s :: after ->
           labelled mobile s = false -> labelled desktop s = false ->
           (forall reached : DeviceTotals, addDeviceStat reached s = reached)
           /\ forall k, bucketOf k stats = bucketOf k (before ++ after))
    /\ map fst (enrichMetrics totals) = [mobile; desktop]
    /\ (exists m,
           JsMap.get DeviceKey_eqb (enrichMetrics totals) key = Some m
           /\ DeviceMetrics.aggregate m = nullish (bucketOf key stats) (allZero key))
    /\ (forall x : number, isFinite x = true -> ingested (Some x) = x)
    /\ (forall x : number, isFinite x = false -> ingested (Some x) = zero)
    /\ ingested None = zero.
Proof.
  intros campaigns key totals stats.
  assert (Hbucket : dget totals key = bucketOf key stats).
  { unfold totals, stats. rewrite aggregateDevicePerformance_allDeviceStats.
    apply fold_addDeviceStat_bucket. }
  split; [exact Hbucket|].
  split.
  { intros before s after -> Hm Hd. split.
    - intros reached. unfold addDeviceStat.
      rewrite (labelled_deviceKeyOf mobile) in Hm.
      rewrite (labelled_deviceKeyOf desktop) in Hd.
      destruct (deviceKeyOf (DeviceStat.device s)) as [[|]|];
        [discriminate Hm | discriminate Hd | reflexivity].
    - intros k. unfold bucketOf, filedUnder. rewrite !filter_app. cbn [filter].
      destruct k; [rewrite Hm | rewrite Hd]; reflexivity. }
  split; [reflexivity|].
  split.
  { eexists. split; [apply enrichMetrics_get|].
    cbn [enrich DeviceMetrics.aggregate]. rewrite Hbucket. now destruct key. }
  split; [intros [q| | |]; try discriminate; reflexivity|].
  split; [intros [q| | |]; try discriminate; reflexivity | reflexivity].
Qed.

End DeviceBuckets.

(** C5, as the specification words it, fails on a mobile entry whose
    impressions are [Infinity]: added verbatim they would make the
    impressions of the bucket infinite, and the bucket has zero
    impressions. *)
Lemma C5_device_filter_and_zero_default_counterexample :
  let campaigns := [deviceCampaign [infiniteImpressions]] in
  option_map DeviceAggregate.impressions
    (dget (aggregateDevicePerformance campaigns) mobile) = Some zero
  /\ option_map DeviceAggregate.impressions
       (DeviceSpec.verbatimBucketOf mobile (DeviceSpec.allDeviceStats campaigns))
     = Some PosInf
  /\ dget (aggregateDevicePerformance campaigns) mobile
     <> DeviceSpec.verbatimBucketOf mobile (DeviceSpec.allDeviceStats campaigns).
Proof.
  cbv zeta. split; [reflexivity|]. split; [reflexivity|].
  intros H.
  assert (E : option_map DeviceAggregate.impressions
                (dget (aggregateDevicePerformance
                         [deviceCampaign [infiniteImpressions]]) mobile)
              = Some PosInf) by (rewrite H; reflexivity).
  discriminate E.
Qed.

(** The two campaigns of [twoDevices]: the mobile bucket holds the sums
    of the entries labelled "Mobile" and "mobile", the desktop bucket the
    entry labelled "DESKTOP", and the tablet entry can be taken out. *)
Lemma C5_device_filter_and_zero_default_witness :
  let totals := aggregateDevicePerformance twoDevices in
  option_map DeviceAggregate.impressions (dget totals mobile) = Some (ofZ 1200)
  /\ option_map DeviceAggregate.revenue (dget totals mobile) = Some (ofZ 110)
  /\ option_map DeviceAggregate.impressions (dget totals desktop) = Some (ofZ 600)
  /\ DeviceSpec.bucketOf mobile (DeviceSpec.allDeviceStats twoDevices)
     = DeviceSpec.bucketOf mobile
         ([deviceStat (Some "Mobile") 1000 50 5 20 80]
          ++ [deviceStat (Some "DESKTOP") 600 30 6 40 60;
              deviceStat (Some "mobile") 200 20 1 10 30]).
Proof.
  cbv zeta.
  destruct (C5_device_filter_and_zero_default twoDevices mobile)
    as (Hmobile & Hother & _).
  destruct (C5_device_filter_and_zero_default twoDevices desktop)
    as (Hdesktop & _).
  rewrite Hmobile, Hdesktop.
  split; [eval_eq|]. split; [eval_eq|]. split; [eval_eq|].
  apply (Hother [deviceStat (Some "Mobile") 1000 50 5 20 80]
           (deviceStat (Some "tablet") 500 10 1 5 10)
           [deviceStat (Some "DESKTOP") 600 30 6 40 60;
            deviceStat (Some "mobile") 200 20 1 10 30]);
    reflexivity.
Defined.

Example tablet_reaches_no_bucket :
  aggregateDevicePerformance
    [deviceCampaign [deviceStat (Some "tablet") 1000 50 5 20 80]]
  = JsMap.empty _ _.
Proof. reflexivity. Qed.

Example both_keys_without_input :
  map fst (enrichMetrics (aggregateDevicePerformance [])) = [mobile; desktop].
Proof. reflexivity. Qed.

(* ================================================================== *)
(** ** The order of the age groups *)

Lemma includes_In xs x : includes xs x = true <-> In x xs.
Proof.
  unfold includes. rewrite existsb_exists. split.
  - intros [y [Hy E]]. apply String.eqb_eq in E. now subst.
  - intros H. exists x. split; [exact H | apply String.eqb_refl].
Qed.

Section AgeOrder.
Context {unicode : Unicode}.
Hypothesis order : codeUnitOrder unicode.

Lemma defaultCompare_le x y :
  gt (defaultCompare x y) zero = false -> notBehind x y.
Proof.
  unfold defaultCompare, notBehind.
  destruct (compareCodeUnits x y); try discriminate;
    intros H; vm_compute in H; discriminate.
Qed.

Lemma defaultCompare_gt x y :
  gt (defaultCompare x y) zero = true -> notBehind y x.
Proof.
  unfold defaultCompare, notBehind.
  rewrite (proj1 order y x).
  destruct (compareCodeUnits x y); simpl; try discriminate;
    intros H; vm_compute in H; discriminate.
Qed.

(** C6.  Whenever the comparison of the code units is an order: the
    ordered age groups are the five canonical labels followed by the
    other labels of the map in ascending order of their code units; the
    tail is sorted, it is a rearrangement of the non-canonical keys, and
    it holds a label exactly when the label is a key of the map and is
    not canonical.  A map whose age groups were observed in the order
    55+, 18-24, Teen gives 18-24, 25-34, 35-44, 45-54, 55+, Teen. *)
Theorem C6_age_group_order :
  (forall ageTotals : AgeTotals,
      exists extras,
        buildOrderedAgeGroups ageTotals
        = ["18-24"; "25-34"; "35-44"; "45-54"; "55+"] ++ extras
        /\ StronglySorted notBehind extras
        /\ Permutation
             (filter (fun g => negb (includes AGE_GROUP_ORDER g)) (JsMap.keys ageTotals))
             extras
        /\ (forall g,
               In g extras
               <-> In g (JsMap.keys ageTotals)
                   /\ ~ In g ["18-24"; "25-34"; "35-44"; "45-54"; "55+"]))
  /\ (forall ageTotals : AgeTotals,
         JsMap.keys ageTotals = ["55+"; "18-24"; "Teen"] ->
         buildOrderedAgeGroups ageTotals
         = ["18-24"; "25-34"; "35-44"; "45-54"; "55+"; "Teen"]).
Proof.
  split.
  - intros m.
    set (others := filter (fun g => negb (includes AGE_GROUP_ORDER g)) (JsMap.keys m)).
    exists (JsArray.sort defaultCompare others).
    split; [reflexivity|].
    split.
    { apply Sorted_StronglySorted.
      - intros a b c. apply (proj2 order).
      - apply sort_sorted with (P := fun _ => True).
        + intros x y _ _. apply defaultCompare_le.
        + intros x y _ _. apply defaultCompare_gt.
        + apply Forall_forall. trivial. }
    split; [apply sort_perm|].
    intros g. split.
    + intros H.
      apply (Permutation_in g (Permutation_sym (sort_perm defaultCompare others))) in H.
      unfold others in H. apply filter_In in H. destruct H as [Hk Hn].
      split; [exact Hk|].
      intros Hin. apply (includes_In AGE_GROUP_ORDER g) in Hin.
      rewrite Hin in Hn. discriminate.
    + intros [Hk Hn].
      apply (Permutation_in g (sort_perm defaultCompare others)).
      unfold others. apply filter_In. split; [exact Hk|].
      destruct (includes AGE_GROUP_ORDER g) eqn:E; [|reflexivity].
      exfalso. apply Hn. now apply (includes_In AGE_GROUP_ORDER g).
  - intros m Hkeys. unfold buildOrderedAgeGroups. rewrite Hkeys. reflexivity.
Qed.

End AgeOrder.

(** The order of the bytes is an order of the strings. *)
Lemma ascii_compare_trans (x y z : ascii) :
  Ascii.compare x y <> Gt -> Ascii.compare y z <> Gt -> Ascii.compare x z <> Gt.
Proof.
  unfold Ascii.compare. rewrite !N.compare_le_iff. apply N.le_trans.
Qed.

Lemma string_compare_trans (a b c : string) :
  String.compare a b <> Gt -> String.compare b c <> Gt -> String.compare a c <> Gt.
Proof.
  revert b c. induction a as [|x a IH]; intros [|y b] [|z c]; cbn [String.compare];
    try congruence.
  destruct (Ascii.compare x y) eqn:Exy; [|intros _|congruence].
  - apply Ascii.compare_eq_iff in Exy. subst y.
    destruct (Ascii.compare x z) eqn:Exz; [apply IH | congruence | congruence].
  - destruct (Ascii.compare y z) eqn:Eyz; [|intros _|congruence].
    + apply Ascii.compare_eq_iff in Eyz. subst z. rewrite Exy. congruence.
    + assert (H : Ascii.compare x z <> Gt).
      { apply ascii_compare_trans with y; congruence. }
      destruct (Ascii.compare x z) eqn:Exz; try congruence.
      apply Ascii.compare_eq_iff in Exz. subst z.
      rewrite Ascii.compare_antisym, Exy in Eyz. discriminate.
Qed.

Lemma ascii_codeUnitOrder : codeUnitOrder asciiStrings.
Proof.
  split.
  - intros a b. apply String.compare_antisym.
  - intros a b c. apply string_compare_trans.
Qed.

(** On strings of ASCII characters: the age groups observed in the order
    55+, 18-24, Teen, and the sorted tail of a map with three labels
    outside the canonical five. *)
Lemma C6_age_group_order_witness :
  (JsMap.keys (ageTotals (aggregateCampaignMetrics [observedAges]))
   = ["55+"; "18-24"; "Teen"]
   /\ buildOrderedAgeGroups (ageTotals (aggregateCampaignMetrics [observedAges]))
      = ["18-24"; "25-34"; "35-44"; "45-54"; "55+"; "Teen"])
  /\ exists extras,
       buildOrderedAgeGroups
         [ ("Teen", createEmptyAgeMetrics); ("55+", createEmptyAgeMetrics);
           ("Adult", createEmptyAgeMetrics); ("65+", createEmptyAgeMetrics) ]
       = ["18-24"; "25-34"; "35-44"; "45-54"; "55+"] ++ extras
       /\ StronglySorted notBehind extras
       /\ Permutation ["Teen"; "Adult"; "65+"] extras.
Proof.
  assert (Hkeys : JsMap.keys (ageTotals (aggregateCampaignMetrics [observedAges]))
                  = ["55+"; "18-24"; "Teen"]) by reflexivity.
  split.
  - split; [exact Hkeys|].
    exact (proj2 (C6_age_group_order ascii_codeUnitOrder) _ Hkeys).
  - destruct (proj1 (C6_age_group_order ascii_codeUnitOrder)
                [ ("Teen", createEmptyAgeMetrics); ("55+", createEmptyAgeMetrics);
                  ("Adult", createEmptyAgeMetrics); ("65+", createEmptyAgeMetrics) ])
      as [extras (Heq & Hsorted & Hperm & _)].
    exists extras. split; [exact Heq|]. split; [exact Hsorted | exact Hperm].
Defined.

Example extras_in_the_order_of_the_bytes :
  buildOrderedAgeGroups
    [ ("Teen", createEmptyAgeMetrics); ("55+", createEmptyAgeMetrics);
      ("Adult", createEmptyAgeMetrics); ("65+", createEmptyAgeMetrics) ]
  = ["18-24"; "25-34"; "35-44"; "45-54"; "55+"; "65+"; "Adult"; "Teen"].
Proof. reflexivity. Qed.

(* ================================================================== *)
(** ** The partition of spend and revenue within one branch *)

Import Partition.

Lemma add_comm (x y : number) : add x y = add y x.
Proof. destruct x, y; simpl; try reflexivity. f_equal. ring. Qed.

Lemma add_assoc (x y z : number) : add x (add y z) = add (add x y) z.
Proof. destruct x, y, z; simpl; try reflexivity. f_equal. ring. Qed.

Section SumOver.
Variable f : AgeMetrics.t -> number.
Hypothesis f_empty : f createEmptyAgeMetrics = zero.

Lemma fold_add_shift (l : list AgeMetrics.t) a s :
  fold_left (fun sum v => add sum (f v)) l (add a s)
  = add (fold_left (fun sum v => add sum (f v)) l a) s.
Proof.
  revert a. induction l as [|v l IH]; intros a; simpl; [reflexivity|].
  rewrite <- IH. f_equal.
  rewrite <- !add_assoc. f_equal. apply add_comm.
Qed.

Lemma sumFrom_sset (m : AgeTotals) key v s a :
  f v = add (f (nullish (sget m key) createEmptyAgeMetrics)) s ->
  fold_left (fun sum v => add sum (f v)) (JsMap.values (sset m key v)) a
  = add (fold_left (fun sum v => add sum (f v)) (JsMap.values m) a) s.
Proof.
  revert a. induction m as [|[k0 v0] m IH]; intros a Hv.
  - cbn in *. rewrite Hv, f_empty, add_zero_l. reflexivity.
  - unfold sset, sget in *. cbn [JsMap.set JsMap.get] in *.
    destruct (String.eqb k0 key).
    + cbn in *. rewrite Hv. rewrite add_assoc. apply fold_add_shift.
    + cbn [JsMap.values map snd fold_left] in *. now apply IH.
Qed.

Lemma sumOver_sset (m : AgeTotals) key v s :
  f v = add (f (nullish (sget m key) createEmptyAgeMetrics)) s ->
  sumOver f (sset m key v) = add (sumOver f m) s.
Proof. apply sumFrom_sset. Qed.
End SumOver.

Lemma ageTotals_addSegment spend revenue total count acc segment :
  ageTotals (addSegment spend revenue total count acc segment)
  = addAgeMetrics (ageTotals acc) (ageGroup segment)
      (mul spend (share total count segment))
      (mul revenue (share total count segment))
      (performanceField Performance.impressions segment)
      (performanceField Performance.clicks segment)
      (performanceField Performance.conversions segment).
Proof.
  unfold addSegment. now destruct (genderKeyOf (genderKey segment)) as [[|]|].
Qed.

(** What the age aggregator allocates of the spend of a campaign is the
    sum of the contributions of its segments; the same for the revenue. *)
Lemma allocatedSpend_fold spend revenue total count segments acc :
  allocatedSpend (ageTotals (fold_left (addSegment spend revenue total count) segments acc))
  = fold_left (fun sum segment => add sum (mul spend (share total count segment)))
      segments (allocatedSpend (ageTotals acc)).
Proof.
  revert acc. induction segments as [|s segments IH]; intros acc; simpl; [reflexivity|].
  rewrite IH. f_equal. rewrite ageTotals_addSegment.
  unfold allocatedSpend, addAgeMetrics. now apply sumOver_sset.
Qed.

Lemma allocatedRevenue_fold spend revenue total count segments acc :
  allocatedRevenue (ageTotals (fold_left (addSegment spend revenue total count) segments acc))
  = fold_left (fun sum segment => add sum (mul revenue (share total count segment)))
      segments (allocatedRevenue (ageTotals acc)).
Proof.
  revert acc. induction segments as [|s segments IH]; intros acc; simpl; [reflexivity|].
  rewrite IH. f_equal. rewrite ageTotals_addSegment.
  unfold allocatedRevenue, addAgeMetrics. now apply sumOver_sset.
Qed.

Lemma allocated_single_campaign c :
  let r := aggregateCampaignMetrics [c] in
  let segments := nullish (Campaign.demographic_breakdown c) [] in
  allocatedSpend (ageTotals r)
  = segmentContributions (nullish (Campaign.spend c) zero) segments
  /\ allocatedRevenue (ageTotals r)
     = segmentContributions (nullish (Campaign.revenue c) zero) segments.
Proof.
  cbv zeta. unfold aggregateCampaignMetrics. cbn [fold_left]. unfold DemographicView.addCampaign.
  destruct (nullish (Campaign.demographic_breakdown c) []) as [|s segments] eqn:E.
  - split; reflexivity.
  - cbn [List.length Nat.eqb]. split.
    + now rewrite allocatedSpend_fold.
    + now rewrite allocatedRevenue_fold.
Qed.

Lemma gt_zero_Fin (t : Qc) : gt (Fin t) zero = true -> (t ?= 0)%Qc = Gt /\ t <> 0%Qc.
Proof.
  change (gt (Fin t) zero) with (match (t ?= 0)%Qc with Gt => true | _ => false end).
  destruct (t ?= 0)%Qc eqn:E; try discriminate.
  intros _. split; [reflexivity|].
  intros ->. now rewrite (proj1 (Qceq_alt 0 0) eq_refl) in E.
Qed.

Lemma natQc_succ n : natQc (S n) = (natQc n + 1)%Qc.
Proof.
  unfold natQc. rewrite Nat2Z.inj_succ. unfold Z.succ.
  apply Qc_is_canon. unfold Qcplus, Q2Qc. cbn [this].
  rewrite !Qred_correct, inject_Z_plus. reflexivity.
Qed.

Lemma natQc_pos n : (0 < n)%nat -> gt (Fin (natQc n)) zero = true.
Proof.
  intros Hn.
  change (gt (Fin (natQc n)) zero)
    with (match (natQc n ?= 0)%Qc with Gt => true | _ => false end).
  assert (H : (natQc n > 0)%Qc).
  { unfold natQc, Qclt, Q2Qc. cbn [this]. rewrite !Qred_correct.
    change 0%Q with (inject_Z 0). rewrite <- Zlt_Qlt. lia. }
  now rewrite (proj1 (Qcgt_alt (natQc n) 0) H).
Qed.

Lemma totalPercentage_stated breakdowns :
  percentagesStated breakdowns ->
  totalPercentage breakdowns = Fin (percentageSum breakdowns).
Proof.
  intros H. unfold totalPercentage.
  assert (G : forall a,
             fold_left
               (fun sum b =>
                  add sum (nullish (DemographicBreakdown.percentage_of_audience b) zero))
               breakdowns (Fin a)
             = Fin (a + percentageSum breakdowns)).
  { induction H as [|b bs [p Hp] _ IH]; intros a; simpl.
    - f_equal. ring.
    - rewrite Hp. cbn [nullish add]. rewrite IH. f_equal.
      unfold statedPercentage. rewrite Hp. ring. }
  unfold zero, ofZ. rewrite G. f_equal.
  change (Q2Qc (inject_Z 0)) with 0%Qc. ring.
Qed.

(** The percentage branch: the shares are the fractions of the total. *)
Lemma contributions_stated (amount t : Qc) count breakdowns :
  percentagesStated breakdowns ->
  gt (Fin t) zero = true ->
  forall a,
    fold_left
      (fun sum segment => add sum (mul (Fin amount) (share (Fin t) count segment)))
      breakdowns (Fin a)
    = Fin (a + amount * percentageSum breakdowns / t).
Proof.
  intros H Ht. destruct (gt_zero_Fin _ Ht) as [Hc Hne].
  induction H as [|b bs [p Hp] _ IH]; intros a; simpl.
  - f_equal. field. exact Hne.
  - unfold share at 2. rewrite Hp, Ht.
    change (div (Fin p) (Fin t))
      with (match (t ?= 0)%Qc with Eq => scaleInf true p | _ => Fin (p / t) end).
    rewrite Hc. cbn [mul add]. rewrite IH. f_equal.
    unfold statedPercentage. rewrite Hp. field. exact Hne.
Qed.

(** The uniform branch: every share is one over the number of segments. *)
Lemma contributions_uniform (amount : Qc) total count breakdowns :
  gt total zero = false ->
  (0 < count)%nat ->
  forall a,
    fold_left
      (fun sum segment => add sum (mul (Fin amount) (share total count segment)))
      breakdowns (Fin a)
    = Fin (a + natQc (List.length breakdowns) * (amount * (1 / natQc count))).
Proof.
  intros Ht Hn.
  destruct (gt_zero_Fin _ (natQc_pos Hn)) as [Hc Hne].
  assert (Hshare : forall s, share total count s = Fin (1 / natQc count)).
  { intros s. unfold share. rewrite Ht.
    assert (D : div one (ofNat count) = Fin (1 / natQc count)).
    { change (div one (ofNat count))
        with (match (natQc count ?= 0)%Qc with
              | Eq => scaleInf true 1
              | _ => Fin (1 / natQc count)
              end).
      now rewrite Hc. }
    now destruct (DemographicBreakdown.percentage_of_audience s). }
  induction breakdowns as [|b bs IH]; intros a.
  - simpl. f_equal. change (natQc 0) with 0%Qc. ring.
  - cbn [fold_left List.length]. rewrite Hshare. cbn [mul add].
    rewrite IH, natQc_succ. f_equal. ring.
Qed.

(** Within one branch the contributions of the segments sum to the
    amount that is shared out. *)
Lemma segmentContributions_single_branch (amount : Qc) breakdowns :
  breakdowns <> [] ->
  singleBranch breakdowns ->
  segmentContributions (Fin amount) breakdowns = Fin amount.
Proof.
  intros Hne [[Hstated Hpos] | Huniform]; unfold segmentContributions.
  - rewrite (totalPercentage_stated Hstated) in *.
    unfold zero at 1, ofZ. change (Q2Qc (inject_Z 0)) with 0%Qc.
    rewrite (@contributions_stated amount _ (List.length breakdowns) _ Hstated Hpos).
    destruct (gt_zero_Fin _ Hpos) as [_ Hnz].
    f_equal. field. exact Hnz.
  - assert (Hn : (0 < List.length breakdowns)%nat).
    { destruct breakdowns; [contradiction | simpl; lia]. }
    unfold zero at 1, ofZ. change (Q2Qc (inject_Z 0)) with 0%Qc.
    rewrite (@contributions_uniform amount _ _ breakdowns Huniform Hn).
    destruct (gt_zero_Fin _ (natQc_pos Hn)) as [_ Hnz].
    f_equal. field. exact Hnz.
Qed.

(** The partition invariant where it holds: a campaign with finite spend
    and revenue (zero when missing) whose segments are all in the
    percentage branch, or all in the uniform branch, has exactly its
    spend and its revenue allocated by the age aggregator. *)
Theorem partition_within_one_branch :
  forall (c : Campaign.t) (spend revenue : Qc) (breakdowns : list DemographicBreakdown.t),
    nullish (Campaign.spend c) zero = Fin spend ->
    nullish (Campaign.revenue c) zero = Fin revenue ->
    Campaign.demographic_breakdown c = Some breakdowns ->
    breakdowns <> [] ->
    singleBranch breakdowns ->
    allocatedSpend (ageTotals (aggregateCampaignMetrics [c])) = Fin spend
    /\ allocatedRevenue (ageTotals (aggregateCampaignMetrics [c])) = Fin revenue.
Proof.
  intros c spend revenue breakdowns Hs Hr Hb Hne Hbranch.
  destruct (allocated_single_campaign c) as [Es Er].
  rewrite Es, Er, Hs, Hr, Hb. cbn [nullish].
  split; now apply segmentContributions_single_branch.
Qed.

(** Campaign A is in the percentage branch, campaign B in the uniform one. *)
Example partition_of_the_scenario :
  allocatedSpend (ageTotals (aggregateCampaignMetrics [campaignA])) = ofZ 100
  /\ allocatedSpend (ageTotals (aggregateCampaignMetrics [campaignB])) = ofZ 50.
Proof.
  split.
  - eapply (@partition_within_one_branch campaignA); try reflexivity; try discriminate.
    left. split; [|reflexivity].
    repeat constructor; eexists; reflexivity.
  - eapply (@partition_within_one_branch campaignB); try reflexivity; try discriminate.
    right. reflexivity.
Qed.

(* ================================================================== *)
(** ** The weekly aggregator *)

Import WeeklyView WeeklySpec.

Lemma gt_sub_zero (a b : Qc) : gt (sub (Fin a) (Fin b)) zero = gt (Fin a) (Fin b).
Proof.
  change (gt (sub (Fin a) (Fin b)) zero)
    with (match (a + - b ?= 0)%Qc with Gt => true | _ => false end).
  change (gt (Fin a) (Fin b))
    with (match (a ?= b)%Qc with Gt => true | _ => false end).
  destruct (a ?= b)%Qc eqn:E.
  - apply Qceq_alt in E. subst b.
    rewrite Qcplus_opp_r.
    now rewrite (proj1 (Qceq_alt 0 0) eq_refl).
  - apply Qclt_alt in E. apply Qclt_minus_iff in E.
    assert (H : (a + - b < 0)%Qc).
    { apply Qclt_minus_iff. now replace (0 + - (a + - b))%Qc with (b + - a)%Qc by ring. }
    now rewrite (proj1 (Qclt_alt (a + - b) 0) H).
  - apply Qcgt_alt in E.
    assert (H : (a + - b > 0)%Qc) by (now apply Qclt_minus_iff in E).
    now rewrite (proj1 (Qcgt_alt (a + - b) 0) H).
Qed.

Lemma gt_asym (a b : Qc) : gt (Fin a) (Fin b) = true -> gt (Fin b) (Fin a) = false.
Proof.
  change (gt (Fin a) (Fin b)) with (match (a ?= b)%Q with Gt => true | _ => false end).
  change (gt (Fin b) (Fin a)) with (match (b ?= a)%Q with Gt => true | _ => false end).
  rewrite <- (Qcompare_antisym a b).
  destruct (a ?= b)%Q; simpl; congruence.
Qed.

Lemma byWeekStart_le getTime x y :
  validStart getTime x -> validStart getTime y ->
  gt (byWeekStart getTime x y) zero = false -> notAfter getTime x y.
Proof.
  unfold validStart, notAfter, byWeekStart.
  destruct (getTime (WeeklyAggregate.weekStart x)) as [a| | |]; try discriminate.
  destruct (getTime (WeeklyAggregate.weekStart y)) as [b| | |]; try discriminate.
  intros _ _. rewrite gt_sub_zero. unfold le. now intros ->.
Qed.

Lemma byWeekStart_gt getTime x y :
  validStart getTime x -> validStart getTime y ->
  gt (byWeekStart getTime x y) zero = true -> notAfter getTime y x.
Proof.
  unfold validStart, notAfter, byWeekStart.
  destruct (getTime (WeeklyAggregate.weekStart x)) as [a| | |]; try discriminate.
  destruct (getTime (WeeklyAggregate.weekStart y)) as [b| | |]; try discriminate.
  intros _ _. rewrite gt_sub_zero. intros H. unfold le.
  now rewrite (gt_asym _ _ H).
Qed.

Lemma weeklyTotals_allWeeks campaigns :
  weeklyTotals campaigns = fold_left addWeek (allWeeks campaigns) (JsMap.empty _ _).
Proof.
  unfold weeklyTotals, allWeeks. generalize (JsMap.empty string WeeklyAggregate.t).
  induction campaigns as [|c cs IH]; simpl; intros t; [reflexivity|].
  rewrite fold_left_app. apply IH.
Qed.

Lemma keyed_app key ws ws' : keyed key (ws ++ ws') = keyed key ws ++ keyed key ws'.
Proof. apply filter_app. Qed.

Lemma sumOf_snoc f ws w : sumOf f (ws ++ [w]) = add (sumOf f ws) (finiteOrZero (f w)).
Proof. unfold sumOf. now rewrite fold_left_app. Qed.

Lemma sumOf_single f w : sumOf f [w] = finiteOrZero (f w).
Proof. unfold sumOf. simpl. apply add_zero_l. Qed.

Lemma keyed_single_same w : keyed (weekKey w) [w] = [w].
Proof. unfold keyed. cbn [filter]. now rewrite String.eqb_refl. Qed.

Lemma keyed_single_other w key : weekKey w <> key -> keyed key [w] = [].
Proof.
  intros H. unfold keyed. cbn [filter].
  now destruct (String.eqb_spec (weekKey w) key).
Qed.

Lemma addWeek_same totals w :
  sget (addWeek totals w) (weekKey w)
  = Some
      match sget totals (weekKey w) with
      | Some existing =>
          {| WeeklyAggregate.weekStart := WeeklyAggregate.weekStart existing;
             WeeklyAggregate.weekEnd := WeeklyAggregate.weekEnd existing;
             WeeklyAggregate.spend :=
               add (WeeklyAggregate.spend existing) (finiteOrZero (WeekStat.spend w));
             WeeklyAggregate.revenue :=
               add (WeeklyAggregate.revenue existing)
                 (finiteOrZero (WeekStat.revenue w)) |}
      | None =>
          {| WeeklyAggregate.weekStart := WeekStat.week_start w;
             WeeklyAggregate.weekEnd := WeekStat.week_end w;
             WeeklyAggregate.spend := add zero (finiteOrZero (WeekStat.spend w));
             WeeklyAggregate.revenue := add zero (finiteOrZero (WeekStat.revenue w)) |}
      end.
Proof.
  unfold addWeek. rewrite sget_sset_same.
  now destruct (sget totals (weekKey w)).
Qed.

Lemma addWeek_other totals w key :
  weekKey w <> key -> sget (addWeek totals w) key = sget totals key.
Proof. intros H. unfold addWeek. now apply sget_sset_other. Qed.

(** Every bucket holds the sums over exactly the entries of its key. *)
Lemma fold_addWeek_bucket weeks key :
  sget (fold_left addWeek weeks (JsMap.empty _ _)) key = bucketOf key weeks.
Proof.
  induction weeks as [|w ws IH] using rev_ind; [reflexivity|].
  rewrite fold_left_app. cbn [fold_left].
  destruct (String.eqb_spec (weekKey w) key) as [E|E].
  - subst key. rewrite addWeek_same, IH.
    unfold bucketOf. rewrite keyed_app, keyed_single_same.
    destruct (keyed (weekKey w) ws) as [|w0 r] eqn:K.
    + reflexivity.
    + rewrite <- app_comm_cons.
      rewrite (app_comm_cons r [w] w0).
      rewrite (sumOf_snoc WeekStat.spend (w0 :: r) w).
      rewrite (sumOf_snoc WeekStat.revenue (w0 :: r) w).
      reflexivity.
  - rewrite addWeek_other by assumption. rewrite IH.
    unfold bucketOf. rewrite keyed_app, keyed_single_other by assumption.
    now rewrite app_nil_r.
Qed.

Lemma weekKey_pair s1 e1 s2 e2 :
  noUnderscore s1 = true -> noUnderscore s2 = true ->
  (s1 ++ "_" ++ e1)%string = (s2 ++ "_" ++ e2)%string -> s1 = s2 /\ e1 = e2.
Proof.
  revert s2. induction s1 as [|c s1 IH]; intros [|d s2]; simpl.
  - intros _ _ [= ->]. split; reflexivity.
  - intros _ H [= <- _]. simpl in H. discriminate.
  - intros H _ [= -> _]. simpl in H. discriminate.
  - intros H1 H2 [= -> E].
    apply andb_true_iff in H1, H2.
    destruct (IH s2 (proj2 H1) (proj2 H2) E) as [-> ->]. split; reflexivity.
Qed.

Example isoDateTime_example :
  isoDateTime "1970-01-02" = ofZ 86400000
  /\ isoDateTime "2024-01-01" = ofZ 1704067200000
  /\ isoDateTime "2024-02-30" = NaN
  /\ isoDateTime "soon" = NaN.
Proof. repeat split; reflexivity. Qed.

Import WeekExamples.

(** C7, as stated, fails twice.  The entries [weekA] and [weekB] have
    different boundary pairs and the same joined key
    [2024-01-01_2024-01-07_2024-01-14]: they end in one bucket, with the
    boundaries of the first and the sums of both.  And with a week start
    that is no date between them, the bucket of February stays in front of
    the bucket of January. *)
Lemma C7_distinct_pairs_share_a_bucket :
  (WeekStat.week_start weekA, WeekStat.week_end weekA)
  <> (WeekStat.week_start weekB, WeekStat.week_end weekB)
  /\ aggregateWeeklyPerformance isoDateTime [weekCampaign [weekA; weekB]]
     = [ {| WeeklyAggregate.weekStart := "2024-01-01";
            WeeklyAggregate.weekEnd := "2024-01-07_2024-01-14";
            WeeklyAggregate.spend := ofZ 15;
            WeeklyAggregate.revenue := ofZ 50 |} ]
  /\ map WeeklyAggregate.weekStart
       (aggregateWeeklyPerformance isoDateTime [weekCampaign unparsableWeeks])
     = ["2024-02-05"; "soon"; "2024-01-01"]
  /\ gt (isoDateTime "2024-02-05") (isoDateTime "2024-01-01") = true.
Proof.
  split; [discriminate|].
  split; [vm_compute; reflexivity|].
  split; reflexivity.
Qed.

(** C7, amended.  The bucket found under a key holds the boundaries of
    the first entry whose joined key [week_start_week_end] is that key and
    the sums of spend and revenue over all the entries with that joined
    key, and there is no bucket for a key that no entry has: two entries
    are merged exactly when their joined keys are the same string.  For
    entries whose [week_start] has no underscore, as with ISO dates, the
    joined keys are the same exactly when the boundary pairs are.  The
    final list is a rearrangement of the buckets and, when the
    [week_start] of every bucket parses to a date, it is sorted ascending
    by that date. *)
Theorem C7_week_buckets_by_joined_key :
  (forall (campaigns : list Campaign.t) (key : string),
      sget (weeklyTotals campaigns) key = bucketOf key (allWeeks campaigns))
  /\ (forall w1 w2 : WeekStat.t,
         noUnderscore (WeekStat.week_start w1) = true ->
         noUnderscore (WeekStat.week_start w2) = true ->
         (weekKey w1 = weekKey w2
          <-> WeekStat.week_start w1 = WeekStat.week_start w2
              /\ WeekStat.week_end w1 = WeekStat.week_end w2))
  /\ (forall (getTime : string -> number) (campaigns : list Campaign.t),
         Permutation (JsMap.values (weeklyTotals campaigns))
           (aggregateWeeklyPerformance getTime campaigns)
         /\ (Forall (validStart getTime) (JsMap.values (weeklyTotals campaigns)) ->
             Sorted (notAfter getTime) (aggregateWeeklyPerformance getTime campaigns))).
Proof.
  split; [|split].
  - intros campaigns key. rewrite weeklyTotals_allWeeks. apply fold_addWeek_bucket.
  - intros w1 w2 H1 H2. unfold weekKey. split.
    + now apply weekKey_pair.
    + intros [-> ->]. reflexivity.
  - intros getTime campaigns. unfold aggregateWeeklyPerformance. split.
    + apply sort_perm.
    + intros Hvalid.
      apply sort_sorted with (P := validStart getTime).
      * intros x y. apply byWeekStart_le.
      * intros x y. apply byWeekStart_gt.
      * exact Hvalid.
Qed.

(** Three ISO weeks reported out of order by two campaigns come out by
    date, the week reported twice as one bucket. *)
Lemma C7_week_buckets_by_joined_key_witness :
  Sorted (notAfter isoDateTime) (aggregateWeeklyPerformance isoDateTime threeWeeks)
  /\ (weekKey (weekStat "2024-01-15" "2024-01-21" 7 9)
      = weekKey (weekStat "2024-01-15" "2024-01-21" 3 1)
      <-> "2024-01-15" = "2024-01-15" /\ "2024-01-21" = "2024-01-21").
Proof.
  split.
  - apply (proj2 (proj2 C7_week_buckets_by_joined_key) isoDateTime threeWeeks).
    repeat constructor.
  - apply (proj1 (proj2 C7_week_buckets_by_joined_key)
             (weekStat "2024-01-15" "2024-01-21" 7 9)
             (weekStat "2024-01-15" "2024-01-21" 3 1)); reflexivity.
Defined.

Example three_weeks_in_order :
  map (fun a => (WeeklyAggregate.weekStart a, WeeklyAggregate.spend a))
    (aggregateWeeklyPerformance isoDateTime threeWeeks)
  = [("2024-01-01", ofZ 10); ("2024-01-08", ofZ 4); ("2024-01-15", ofZ 10)].
Proof. vm_compute. reflexivity. Qed.

(** The same week written in two ways stays in two buckets. *)
Example differing_formats_do_not_merge :
  map WeeklyAggregate.weekStart
    (JsMap.values
       (weeklyTotals
          [weekCampaign [ weekStat "2024-01-01" "2024-01-07" 10 30;
                          weekStat "2024/01/01" "2024/01/07" 5 20 ]]))
  = ["2024-01-01"; "2024/01/01"].
Proof. reflexivity. Qed.

(* ================================================================== *)
(** ** The region aggregator *)

Import RegionView.

(** An entry whose name resolves to nothing leaves the totals as they
    are, and its name is kept for the warning. *)
Lemma addRegionStat_unresolved acc regionStat :
  resolveCoordinates (RegionStat.region regionStat) = None ->
  totals (addRegionStat acc regionStat) = totals acc
  /\ In (RegionStat.region regionStat) (missingRegions (addRegionStat acc regionStat)).
Proof.
  intros H. unfold addRegionStat. rewrite H. simpl. split; [reflexivity|].
  unfold setAdd.
  destruct (includes (missingRegions acc) (RegionStat.region regionStat)) eqn:E.
  - now apply includes_In.
  - apply in_or_app. right. now left.
Qed.

(** A name is resolved exactly when its key is a property of the table
    object, its own or an inherited one. *)
Lemma resolveCoordinates_None region :
  resolveCoordinates region = None
  <-> sget REGION_COORDINATES (normalizeKey region) = None
      /\ ~ In (normalizeKey region) Object_prototype.
Proof.
  unfold resolveCoordinates, property.
  destruct (sget REGION_COORDINATES (normalizeKey region)) as [c|].
  - split; [discriminate | intros [H _]; discriminate].
  - destruct (includes Object_prototype (normalizeKey region)) eqn:E.
    + apply includes_In in E. split; [discriminate | intros [_ H]; contradiction].
    + split; [|reflexivity]. intros _. split; [reflexivity|].
      intros H. apply (includes_In Object_prototype) in H. congruence.
Qed.

Example atlantis_is_excluded :
  aggregateRegionalPerformanceLogged
    [regionCampaign [ regionStat "Atlantis" "Nowhere" 10 20;
                      regionStat " Dubai" "UAE" 30 90 ]]
  = ([ {| RegionAggregate.region := " Dubai";
          RegionAggregate.country := "UAE";
          RegionAggregate.latitude := Some (decimal4 252048);
          RegionAggregate.longitude := Some (decimal4 552708);
          RegionAggregate.spend := ofZ 30;
          RegionAggregate.revenue := ofZ 90 |} ],
     [["Atlantis"]]).
Proof. vm_compute. reflexivity. Qed.

(** C8 (an unknown region name can reach the aggregate).  The name
    "Constructor" becomes the key [constructor], which is no key of the
    table; the lookup finds the inherited property of that name, so the
    entry is not skipped: it is aggregated without coordinates, it is a
    point of the revenue map, and no warning names it. *)
Theorem C8_inherited_property_is_not_excluded :
  sget REGION_COORDINATES (normalizeKey "Constructor") = None
  /\ aggregateRegionalPerformanceLogged
       [regionCampaign [regionStat "Constructor" "Nowhere" 10 20]]
     = ([ {| RegionAggregate.region := "Constructor";
             RegionAggregate.country := "Nowhere";
             RegionAggregate.latitude := None;
             RegionAggregate.longitude := None;
             RegionAggregate.spend := ofZ 10;
             RegionAggregate.revenue := ofZ 20 |} ],
        [])
  /\ map MapPoint.label
       (revenueMapData
          (aggregateRegionalPerformance
             [regionCampaign [regionStat "Constructor" "Nowhere" 10 20]]))
     = ["Constructor"].
Proof.
  split; [reflexivity|].
  split; [vm_compute; reflexivity | reflexivity].
Qed.

(* ================================================================== *)
(** ** The fetcher *)

Lemma fetch_network_failure reason :
  fetchMarketingData (Rejected reason) = Fulfilled None.
Proof. reflexivity. Qed.

Lemma fetch_bad_status statusText body :
  fetchMarketingData
    (Fulfilled {| ok := false; statusText := statusText; json := body |})
  = Fulfilled None.
Proof. reflexivity. Qed.

Lemma fetch_success statusText body :
  fetchMarketingData
    (Fulfilled {| ok := true; statusText := statusText; json := Fulfilled body |})
  = Fulfilled (Some body).
Proof. reflexivity. Qed.

(** After a failure that the fetcher turns into [null] the page
    aggregates the empty campaign list. *)
Lemma page_after_null fetched :
  fetchMarketingData fetched = Fulfilled None ->
  DemographicView fetched = Fulfilled (aggregateCampaignMetrics []).
Proof. unfold DemographicView. now intros ->. Qed.

(** C9 (a body that does not parse is not caught).  On a response with a
    success status whose body fails to parse, [response.json()] rejects
    after the [try] block has returned it: the promise of
    [fetchMarketingData] rejects with the same reason, and so does the
    page that awaits it. *)
Theorem C9_parse_failure_reaches_the_caller :
  forall statusText reason : string,
    let fetched :=
      Fulfilled {| ok := true; statusText := statusText; json := Rejected reason |} in
    fetchMarketingData fetched = Rejected reason
    /\ DemographicView fetched = Rejected reason.
Proof. intros statusText reason. split; reflexivity. Qed.

(* ================================================================== *)
(** * Further properties of the code *)

(** ** Keys of a map *)

Section JsMapKeys.
Variables K V : Type.
Variable eqb : K -> K -> bool.
Hypothesis eqb_spec : forall a b, reflect (a = b) (eqb a b).

Lemma get_Some_keys (m : JsMap.t K V) k v :
  JsMap.get eqb m k = Some v -> In k (JsMap.keys m).
Proof.
  intros H. destruct (in_dec (fun a b => reflect_dec _ _ (eqb_spec a b)) k (JsMap.keys m))
    as [Hin|Hout]; [exact Hin|].
  apply (get_None_keys eqb eqb_spec) in Hout. congruence.
Qed.

Lemma keys_get_Some (m : JsMap.t K V) k :
  In k (JsMap.keys m) -> exists v, JsMap.get eqb m k = Some v.
Proof.
  intros Hin. destruct (JsMap.get eqb m k) as [v|] eqn:E; [now exists v|].
  apply (get_None_keys eqb eqb_spec) in E. contradiction.
Qed.

Lemma In_keys_set (m : JsMap.t K V) k v k' :
  In k' (JsMap.keys (JsMap.set eqb m k v)) <-> k' = k \/ In k' (JsMap.keys m).
Proof.
  destruct (JsMap.get eqb m k) as [w|] eqn:E.
  - rewrite (keys_set_present eqb eqb_spec m k v E). split; [now right|].
    intros [->|H]; [|exact H]. eapply get_Some_keys; eassumption.
  - rewrite (keys_set_absent eqb eqb_spec m k v E), in_app_iff. simpl.
    split; [intros [H|[<-|[]]]; auto | intros [->|H]; auto].
Qed.

Lemma NoDup_keys_set (m : JsMap.t K V) k v :
  NoDup (JsMap.keys m) -> NoDup (JsMap.keys (JsMap.set eqb m k v)).
Proof.
  intros Hnd. destruct (JsMap.get eqb m k) as [w|] eqn:E.
  - now rewrite (keys_set_present eqb eqb_spec m k v E).
  - rewrite (keys_set_absent eqb eqb_spec m k v E).
    apply (get_None_keys eqb eqb_spec) in E.
    apply NoDup_rev in Hnd. rewrite <- (rev_involutive (JsMap.keys m ++ [k])).
    apply NoDup_rev. rewrite rev_app_distr. simpl.
    constructor; [now rewrite <- in_rev | exact Hnd].
Qed.

Lemma length_keys_values (m : JsMap.t K V) :
  List.length (JsMap.values m) = List.length (JsMap.keys m).
Proof. unfold JsMap.values, JsMap.keys. now rewrite !length_map. Qed.
End JsMapKeys.

(** ** The demographic aggregates *)

Import Invariant.

Lemma wellKeyed_addAgeMetrics (m m' : AgeTotals) key s r i c v :
  NoDup (JsMap.keys m) -> incl (JsMap.keys m') (JsMap.keys m) ->
  NoDup (JsMap.keys (addAgeMetrics m key s r i c v))
  /\ incl (JsMap.keys m') (JsMap.keys (addAgeMetrics m key s r i c v))
  /\ incl (JsMap.keys (addAgeMetrics m' key s r i c v))
       (JsMap.keys (addAgeMetrics m key s r i c v)).
Proof.
  intros Hnd Hincl. unfold addAgeMetrics, sset. split; [|split].
  - now apply (NoDup_keys_set String.eqb string_eqb_spec).
  - intros k Hk. apply (In_keys_set String.eqb string_eqb_spec). right. now apply Hincl.
  - intros k Hk. apply (In_keys_set String.eqb string_eqb_spec) in Hk.
    apply (In_keys_set String.eqb string_eqb_spec). destruct Hk as [->|Hk]; [now left|].
    right. now apply Hincl.
Qed.

Lemma wellKeyed_addSegment spend revenue total count acc segment :
  wellKeyed acc -> wellKeyed (addSegment spend revenue total count acc segment).
Proof.
  intros (Ha & Hm & Hf & Him & Hif). unfold wellKeyed, addSegment.
  set (age := ageGroup segment).
  set (s := mul spend _). set (r := mul revenue _).
  set (i := performanceField Performance.impressions segment).
  set (c := performanceField Performance.clicks segment).
  set (v := performanceField Performance.conversions segment).
  destruct (@wellKeyed_addAgeMetrics _ _ age s r i c v Ha Him) as (Na & Im & Im').
  destruct (@wellKeyed_addAgeMetrics _ _ age s r i c v Ha Hif) as (_ & If & If').
  destruct (genderKeyOf (genderKey segment)) as [[|]|]; cbn [ageTotals genderAgeTotals
    GenderAgeTotals.male GenderAgeTotals.female]; repeat split;
    try assumption;
    unfold addAgeMetrics, sset; now apply (NoDup_keys_set String.eqb string_eqb_spec).
Qed.

Lemma fold_invariant {A B : Type} (P : A -> Prop) (f : A -> B -> A) l a :
  (forall a b, P a -> P (f a b)) -> P a -> P (fold_left f l a).
Proof.
  intros Hf. revert a. induction l as [|b l IH]; intros a Ha; simpl; auto.
Qed.

Lemma invariant_aggregateCampaignMetrics (P : Aggregates -> Prop) campaigns :
  (forall spend revenue total count acc segment,
      P acc -> P (addSegment spend revenue total count acc segment)) ->
  P emptyAggregates ->
  P (aggregateCampaignMetrics campaigns).
Proof.
  intros Hstep Hinit. unfold aggregateCampaignMetrics.
  apply fold_invariant; [|exact Hinit].
  intros acc c Hacc. unfold DemographicView.addCampaign.
  destruct (List.length _ =? 0)%nat; [exact Hacc|].
  apply fold_invariant; [|exact Hacc]. intros a b. apply Hstep.
Qed.

Lemma wellKeyed_aggregateCampaignMetrics campaigns :
  wellKeyed (aggregateCampaignMetrics campaigns).
Proof.
  apply invariant_aggregateCampaignMetrics.
  - intros. now apply wellKeyed_addSegment.
  - repeat split; try constructor; intros k [].
Qed.

(** X1.  In the aggregates of any campaign list no age group occurs
    twice in a map, and every age group of the male or the female map is
    an age group of the age totals. *)
Theorem aggregates_well_keyed :
  forall campaigns : list Campaign.t, wellKeyed (aggregateCampaignMetrics campaigns).
Proof.
  intros campaigns. apply invariant_aggregateCampaignMetrics.
  - intros. now apply wellKeyed_addSegment.
  - repeat split; try constructor; intros k [].
Qed.


(** ** The order of the table rows and of the chart points *)

Import DemographicPage.

Lemma in_buildOrderedAgeGroups (m : AgeTotals) g :
  In g (JsMap.keys m) -> In g (buildOrderedAgeGroups m).
Proof.
  intros Hin. unfold buildOrderedAgeGroups. apply in_or_app.
  destruct (includes AGE_GROUP_ORDER g) eqn:E.
  - left. now apply includes_In.
  - right. eapply Permutation_in; [apply sort_perm|].
    apply filter_In. split; [exact Hin | now rewrite E].
Qed.

Lemma NoDup_buildOrderedAgeGroups (m : AgeTotals) :
  NoDup (JsMap.keys m) -> NoDup (buildOrderedAgeGroups m).
Proof.
  intros Hnd. unfold buildOrderedAgeGroups.
  set (others := filter (fun g => negb (includes AGE_GROUP_ORDER g)) (JsMap.keys m)).
  assert (Hothers : NoDup (JsArray.sort defaultCompare others)).
  { eapply Permutation_NoDup; [apply sort_perm|]. now apply NoDup_filter. }
  assert (Hdisjoint : forall g, In g AGE_GROUP_ORDER ->
                                ~ In g (JsArray.sort defaultCompare others)).
  { intros g Hc Hs.
    apply (Permutation_in g (Permutation_sym (sort_perm defaultCompare others))) in Hs.
    unfold others in Hs. apply filter_In in Hs. destruct Hs as [_ Hn].
    apply (includes_In AGE_GROUP_ORDER g) in Hc. rewrite Hc in Hn. discriminate. }
  assert (Hcanon : NoDup AGE_GROUP_ORDER).
  { unfold AGE_GROUP_ORDER.
    repeat (constructor; [simpl; intuition discriminate|]). constructor. }
  revert Hcanon Hdisjoint. generalize AGE_GROUP_ORDER as c.
  induction c as [|x c IH]; intros Hc Hd; simpl; [exact Hothers|].
  inversion Hc; subst. constructor.
  - rewrite in_app_iff. intros [H|H]; [contradiction|].
    apply (Hd x); [now left | exact H].
  - apply IH; [assumption|]. intros g Hg. apply Hd. now right.
Qed.

Lemma extras_nil (ordered keys : list string) :
  incl keys ordered -> filter (fun g => negb (includes ordered g)) keys = [].
Proof.
  intros Hincl. induction keys as [|k keys IH]; [reflexivity|]. simpl.
  assert (E : includes ordered k = true) by (apply includes_In, Hincl; now left).
  rewrite E. simpl. apply IH. intros g Hg. apply Hincl. now right.
Qed.

Lemma tableRow_labels g totals :
  map AgeTableRow.ageGroup (tableRow g totals) = if hasActivity totals then [g] else [].
Proof.
  unfold tableRow, hasActivity.
  now destruct (gt (AgeMetrics.impressions totals) zero
                || gt (AgeMetrics.clicks totals) zero
                || gt (AgeMetrics.conversions totals) zero).
Qed.

Lemma table_labels (m : AgeTotals) ordered :
  map AgeTableRow.ageGroup (buildGenderAgeTableData m ordered)
  = filter (active m)
      (ordered ++ filter (fun g => negb (includes ordered g)) (JsMap.keys m)).
Proof.
  unfold buildGenderAgeTableData.
  generalize (ordered ++ filter (fun g => negb (includes ordered g)) (JsMap.keys m)).
  intros l. induction l as [|g l IH]; [reflexivity|].
  cbn [flat_map filter]. rewrite map_app, IH. unfold active at 2.
  destruct (sget m g) as [totals|]; [|reflexivity].
  rewrite tableRow_labels. now destruct (hasActivity totals).
Qed.

(** X3.  On the page built from any campaign list the ordered age groups
    hold every observed age group and none twice, and the rows of the
    male and of the female table are the age groups with activity in that
    map, each once and in the order of the ordered age groups. *)
Theorem table_rows_follow_the_age_order :
  forall campaigns : list Campaign.t,
    let r := aggregateCampaignMetrics campaigns in
    let p := pageData campaigns in
    NoDup (orderedAgeGroups p)
    /\ incl (JsMap.keys (ageTotals r)) (orderedAgeGroups p)
    /\ map AgeTableRow.ageGroup (maleAgeTableData p)
       = filter (active (GenderAgeTotals.male (genderAgeTotals r))) (orderedAgeGroups p)
    /\ map AgeTableRow.ageGroup (femaleAgeTableData p)
       = filter (active (GenderAgeTotals.female (genderAgeTotals r))) (orderedAgeGroups p)
    /\ NoDup (map AgeTableRow.ageGroup (maleAgeTableData p))
    /\ NoDup (map AgeTableRow.ageGroup (femaleAgeTableData p)).
Proof.
  intros campaigns r p.
  destruct (wellKeyed_aggregateCampaignMetrics campaigns) as (Ha & Hm & Hf & Him & Hif).
  fold r in Ha, Hm, Hf, Him, Hif.
  assert (Hnd : NoDup (orderedAgeGroups p)) by (now apply NoDup_buildOrderedAgeGroups).
  assert (Hincl : incl (JsMap.keys (ageTotals r)) (orderedAgeGroups p)).
  { intros g Hg. now apply in_buildOrderedAgeGroups. }
  assert (Em : map AgeTableRow.ageGroup (maleAgeTableData p)
               = filter (active (GenderAgeTotals.male (genderAgeTotals r)))
                   (orderedAgeGroups p)).
  { unfold p, pageData. cbn [maleAgeTableData orderedAgeGroups]. fold r.
    rewrite table_labels, extras_nil, app_nil_r; [reflexivity|].
    intros g Hg. apply Hincl. now apply Him. }
  assert (Ef : map AgeTableRow.ageGroup (femaleAgeTableData p)
               = filter (active (GenderAgeTotals.female (genderAgeTotals r)))
                   (orderedAgeGroups p)).
  { unfold p, pageData. cbn [femaleAgeTableData orderedAgeGroups]. fold r.
    rewrite table_labels, extras_nil, app_nil_r; [reflexivity|].
    intros g Hg. apply Hincl. now apply Hif. }
  repeat split; try assumption.
  - rewrite Em. now apply NoDup_filter.
  - rewrite Ef. now apply NoDup_filter.
Qed.

Lemma series_labels (m : AgeTotals) ordered k cm fb :
  map SeriesPoint.label (buildAgeSeries m ordered k cm fb) = filter (charted m k) ordered.
Proof.
  unfold buildAgeSeries. induction ordered as [|g l IH]; [reflexivity|].
  cbn [flat_map filter]. rewrite map_app, IH. unfold charted at 2.
  now destruct (le (seriesValue m k g) zero).
Qed.

Lemma series_point (m : AgeTotals) ordered k cm fb p :
  In p (buildAgeSeries m ordered k cm fb) ->
  In (SeriesPoint.label p) ordered
  /\ SeriesPoint.value p = seriesValue m k (SeriesPoint.label p)
  /\ le (SeriesPoint.value p) zero = false
  /\ SeriesPoint.color p = seriesColor cm fb (SeriesPoint.label p).
Proof.
  unfold buildAgeSeries. rewrite in_flat_map. intros [g [Hg Hp]].
  destruct (le (seriesValue m k g) zero) eqn:E; [destruct Hp|].
  destruct Hp as [<-|[]]. simpl. repeat split; assumption.
Qed.

(** X4.  The points of a chart series are the labels of the ordered age
    groups whose total of the metric is not zero or less, in that order;
    the value of a point is that total (zero would stand for a label
    without totals, and gets no point); its color is the own entry of the
    palette for its label, and the fallback color when the label is
    neither in the palette nor a member of [Object.prototype]. *)
Theorem age_series_points :
  forall (m : AgeTotals) (ordered : list string) (k : AgeMetricKey)
         (palette : StringMap string) (fallback : string),
    let series := buildAgeSeries m ordered k palette fallback in
    map SeriesPoint.label series = filter (charted m k) ordered
    /\ (forall p, In p series ->
          exists totals,
            sget m (SeriesPoint.label p) = Some totals
            /\ SeriesPoint.value p = metric k totals
            /\ le (SeriesPoint.value p) zero = false)
    /\ (forall p c, In p series ->
          sget palette (SeriesPoint.label p) = Some c ->
          SeriesPoint.color p = JsObject.Own c)
    /\ (forall p, In p series ->
          sget palette (SeriesPoint.label p) = None ->
          ~ In (SeriesPoint.label p) RegionView.Object_prototype ->
          SeriesPoint.color p = JsObject.Own fallback).
Proof.
  intros m ordered k palette fallback series.
  split; [apply series_labels|]. split; [|split].
  - intros p Hp. destruct (series_point _ _ _ _ _ _ Hp) as (_ & Hv & Hle & _).
    unfold seriesValue in Hv.
    destruct (sget m (SeriesPoint.label p)) as [totals|] eqn:E.
    + exists totals. repeat split; assumption.
    + rewrite Hv in Hle. vm_compute in Hle. discriminate.
  - intros p c Hp Hc. destruct (series_point _ _ _ _ _ _ Hp) as (_ & _ & _ & ->).
    unfold seriesColor, JsObject.get. now rewrite Hc.
  - intros p Hp Hc Hn. destruct (series_point _ _ _ _ _ _ Hp) as (_ & _ & _ & ->).
    unfold seriesColor, JsObject.get. rewrite Hc.
    destruct (includes RegionView.Object_prototype (SeriesPoint.label p)) eqn:E;
      [|reflexivity].
    apply includes_In in E. contradiction.
Qed.

Lemma age_series_points_witness :
  let p := pageData [campaignA] in
  exists point totals,
    In point (ageSpendData p)
    /\ sget (ageTotals (aggregateCampaignMetrics [campaignA])) (SeriesPoint.label point)
       = Some totals
    /\ SeriesPoint.value point = metric metric_spend totals
    /\ le (SeriesPoint.value point) zero = false.
Proof.
  intros p.
  pose (point := hd {| SeriesPoint.label := ""; SeriesPoint.value := zero;
                       SeriesPoint.color := JsObject.Own "" |} (ageSpendData p)).
  assert (Hin : In point (ageSpendData p)) by (vm_compute; left; reflexivity).
  destruct (proj1 (proj2 (age_series_points
                            (ageTotals (aggregateCampaignMetrics
                                          (unicode := asciiStrings) [campaignA]))
                            (orderedAgeGroups p) metric_spend
                            AGE_SPEND_COLOR_MAP DEFAULT_SPEND_COLOR)) point Hin)
    as [totals H].
  exists point, totals. split; [exact Hin | exact H].
Defined.

Example series_of_the_scenario :
  map (fun p => (SeriesPoint.label p, SeriesPoint.value p, SeriesPoint.color p))
    (ageSpendData (pageData [campaignA; campaignB]))
  = [ ("18-24", ofZ 110, JsObject.Own "#60A5FA");
      ("25-34", ofZ 40, JsObject.Own "#3B82F6") ].
Proof. vm_compute. repeat (f_equal; try (apply Qc_is_canon; reflexivity)). Qed.


(** ** The region aggregator: buckets, order and warning *)

Import RegionPage RegionSpec.

Section RegionBuckets.
Context {unicode : Unicode}.

Lemma accumulateRegions_allRegionStats campaigns :
  accumulateRegions campaigns
  = fold_left addRegionStat (allRegionStats campaigns)
      {| totals := JsMap.empty _ _; missingRegions := [] |}.
Proof.
  unfold accumulateRegions, allRegionStats.
  generalize {| totals := JsMap.empty string RegionAggregate.t; missingRegions := [] |}.
  induction campaigns as [|c cs IH]; simpl; intros t; [reflexivity|].
  rewrite fold_left_app. apply IH.
Qed.

Lemma region_filedUnder_app key l l' :
  RegionSpec.filedUnder key (l ++ l')
  = RegionSpec.filedUnder key l ++ RegionSpec.filedUnder key l'.
Proof. apply filter_app. Qed.

Lemma region_sumField_snoc f l s :
  RegionSpec.sumField f (l ++ [s])
  = add (RegionSpec.sumField f l) (finiteOrZero (f s)).
Proof. unfold RegionSpec.sumField. now rewrite fold_left_app. Qed.

Lemma region_filedUnder_single_same s coordinates :
  resolveCoordinates (RegionStat.region s) = Some coordinates ->
  RegionSpec.filedUnder (normalizeKey (RegionStat.region s)) [s] = [s].
Proof.
  intros H. unfold RegionSpec.filedUnder, resolves. cbn [filter].
  now rewrite H, String.eqb_refl.
Qed.

Lemma region_filedUnder_single_other s key :
  resolveCoordinates (RegionStat.region s) = None
  \/ normalizeKey (RegionStat.region s) <> key ->
  RegionSpec.filedUnder key [s] = [].
Proof.
  intros H. unfold RegionSpec.filedUnder, resolves. cbn [filter].
  destruct H as [-> | H]; [reflexivity|].
  destruct (String.eqb_spec (normalizeKey (RegionStat.region s)) key);
    [contradiction|]. now rewrite andb_false_r.
Qed.

Lemma fold_addRegionStat_bucket stats key :
  sget (totals (fold_left addRegionStat stats
                  {| totals := JsMap.empty _ _; missingRegions := [] |})) key
  = RegionSpec.bucketOf key stats.
Proof.
  induction stats as [|s l IH] using rev_ind; [reflexivity|].
  rewrite fold_left_app. cbn [fold_left].
  unfold addRegionStat at 1.
  destruct (resolveCoordinates (RegionStat.region s)) as [coordinates|] eqn:Er.
  - cbn [totals].
    destruct (String.eqb_spec (normalizeKey (RegionStat.region s)) key) as [E|E].
    + subst key. rewrite sget_sset_same, IH. unfold RegionSpec.bucketOf.
      rewrite region_filedUnder_app, (region_filedUnder_single_same _ Er).
      destruct (RegionSpec.filedUnder (normalizeKey (RegionStat.region s)) l)
        as [|s0 r] eqn:F.
      * cbn [app nullish RegionAggregate.region RegionAggregate.country
             RegionAggregate.latitude RegionAggregate.longitude
             RegionAggregate.spend RegionAggregate.revenue].
        rewrite Er. reflexivity.
      * cbn [nullish RegionAggregate.region RegionAggregate.country
             RegionAggregate.latitude RegionAggregate.longitude
             RegionAggregate.spend RegionAggregate.revenue].
        rewrite <- app_comm_cons, (app_comm_cons r [s] s0).
        rewrite !region_sumField_snoc. reflexivity.
    + rewrite sget_sset_other by assumption. rewrite IH.
      unfold RegionSpec.bucketOf.
      rewrite region_filedUnder_app, region_filedUnder_single_other, app_nil_r;
        [reflexivity | now right].
  - cbn [totals]. rewrite IH. unfold RegionSpec.bucketOf.
    rewrite region_filedUnder_app, region_filedUnder_single_other, app_nil_r;
      [reflexivity | now left].
Qed.

(** X7.  For any campaign list the region totals have a bucket for a key
    exactly when some entry resolves to coordinates and has that
    normalized name (the name trimmed, then lowercased); the bucket keeps
    the name, the country and the coordinates of the first such entry and
    holds the sums of the coerced spend and revenue over all of them, in
    their order.  Entries whose names normalize to one key share a
    bucket. *)
Theorem region_bucket_is_sum_of_its_entries :
  forall (campaigns : list Campaign.t) (key : string),
    sget (totals (accumulateRegions campaigns)) key
    = RegionSpec.bucketOf key (allRegionStats campaigns).
Proof.
  intros campaigns key. rewrite accumulateRegions_allRegionStats.
  apply fold_addRegionStat_bucket.
Qed.

End RegionBuckets.

Import RegionExamples.

Example dubai_in_three_spellings :
  option_map
    (fun a => (RegionAggregate.region a, RegionAggregate.country a,
               RegionAggregate.spend a, RegionAggregate.revenue a))
    (sget (totals (accumulateRegions gulf)) "dubai")
  = Some ("Dubai", "UAE", ofZ 37, ofZ 110).
Proof. vm_compute. reflexivity. Qed.

(** ** Order on numbers *)

Lemma le_Fin (a b : Qc) : le (Fin a) (Fin b) = true <-> (a <= b)%Qc.
Proof.
  change (le (Fin a) (Fin b))
    with (negb (match (a ?= b)%Qc with Gt => true | _ => false end)).
  rewrite Qcle_alt. destruct (a ?= b)%Qc; simpl; split; congruence.
Qed.

Lemma gt_Fin (a b : Qc) : gt (Fin a) (Fin b) = true <-> (b < a)%Qc.
Proof.
  change (gt (Fin a) (Fin b)) with (match (a ?= b)%Qc with Gt => true | _ => false end).
  pose proof (Qcgt_alt a b) as H.
  destruct (a ?= b)%Qc; split; intros H'; try discriminate; try reflexivity;
    try (now apply H); apply H in H'; discriminate.
Qed.

Lemma le_refl_finite (x : number) : isFinite x = true -> le x x = true.
Proof. destruct x; try discriminate. intros _. apply le_Fin, Qcle_refl. Qed.

Lemma le_trans (x y z : number) : le x y = true -> le y z = true -> le x z = true.
Proof.
  destruct x as [a| | |], y as [b| | |], z as [c| | |]; intros H1 H2;
    try reflexivity; try discriminate H1; try discriminate H2.
  apply le_Fin. apply le_Fin in H1, H2. eapply Qcle_trans; eassumption.
Qed.

Lemma gt_le_asym (x y : number) : gt x y = true -> le y x = true.
Proof.
  destruct x as [a| | |], y as [b| | |]; intros H;
    try reflexivity; try discriminate H.
  apply le_Fin. apply gt_Fin in H. now apply Qclt_le_weak.
Qed.

Lemma not_gt_le_finite (x y : number) :
  isFinite x = true -> isFinite y = true -> gt x y = false -> le x y = true.
Proof.
  destruct x as [a| | |], y as [b| | |]; try discriminate. intros _ _ H.
  unfold le. now rewrite H.
Qed.

Lemma gt_sub_zero_finite (x y : number) :
  isFinite x = true -> isFinite y = true -> gt (sub x y) zero = gt x y.
Proof.
  destruct x as [a| | |], y as [b| | |]; try discriminate. intros _ _.
  apply gt_sub_zero.
Qed.

(** ** The region aggregates in order *)

Lemma setAdd_In s x y : In y (setAdd s x) <-> y = x \/ In y s.
Proof.
  unfold setAdd. destruct (includes s x) eqn:E.
  - apply includes_In in E. split; [now right | intros [->|H]; assumption].
  - rewrite in_app_iff. simpl. split; [intros [H|[<-|[]]]; auto | intros [->|H]; auto].
Qed.

Lemma setAdd_NoDup s x : NoDup s -> NoDup (setAdd s x).
Proof.
  intros H. unfold setAdd. destruct (includes s x) eqn:E; [exact H|].
  assert (Hn : ~ In x s).
  { intros Hin. apply (includes_In s x) in Hin. congruence. }
  apply NoDup_rev in H. rewrite <- (rev_involutive (s ++ [x])).
  apply NoDup_rev. rewrite rev_app_distr. simpl.
  constructor; [now rewrite <- in_rev | exact H].
Qed.

Section RegionOrder.
Context {unicode : Unicode}.

Lemma addRegionStat_finite acc s :
  Forall finiteRegion (JsMap.values (totals acc)) ->
  Forall finiteRegion (JsMap.values (totals (addRegionStat acc s))).
Proof.
  intros H. unfold addRegionStat.
  destruct (resolveCoordinates (RegionStat.region s)) as [c|]; [|exact H].
  cbn [totals]. rewrite Forall_forall in *. intros x Hx.
  unfold sset in Hx.
  apply (In_values_set String.eqb string_eqb_spec) in Hx.
  destruct Hx as [-> | Hx]; [|now apply H].
  destruct (sget (totals acc) (normalizeKey (RegionStat.region s))) as [a|] eqn:E;
    cbn [nullish].
  - assert (Ha : finiteRegion a).
    { apply H. eapply (get_Some_In String.eqb string_eqb_spec). exact E. }
    destruct Ha as [Hs Hr].
    split; cbn [RegionAggregate.spend RegionAggregate.revenue]; apply add_isFinite;
      auto using finiteOrZero_isFinite.
  - split; cbn [RegionAggregate.spend RegionAggregate.revenue]; apply add_isFinite;
      auto using finiteOrZero_isFinite.
Qed.

Lemma accumulateRegions_finite campaigns :
  Forall finiteRegion (JsMap.values (totals (accumulateRegions campaigns))).
Proof.
  rewrite accumulateRegions_allRegionStats.
  apply (fold_invariant
           (fun acc => Forall finiteRegion (JsMap.values (totals acc)))).
  - intros acc s. apply addRegionStat_finite.
  - constructor.
Qed.

Lemma revenueNotBelow_trans a b c :
  revenueNotBelow a b -> revenueNotBelow b c -> revenueNotBelow a c.
Proof. unfold revenueNotBelow. intros H1 H2. eapply le_trans; eassumption. Qed.

Lemma Sorted_StronglySorted_on {A : Type} (R : A -> A -> Prop) (l : list A) :
  (forall a b c, R a b -> R b c -> R a c) -> Sorted R l -> StronglySorted R l.
Proof. intros Ht. apply Sorted_StronglySorted. exact Ht. Qed.

Lemma StronglySorted_filter {A : Type} (R : A -> A -> Prop) (p : A -> bool) l :
  StronglySorted R l -> StronglySorted R (filter p l).
Proof.
  induction 1 as [|x l Hs IH Hall]; simpl; [constructor|].
  destruct (p x); [|exact IH]. constructor; [exact IH|].
  rewrite Forall_forall in *. intros y Hy. apply Hall.
  now apply filter_In in Hy.
Qed.

Lemma StronglySorted_map {A B : Type} (R : A -> A -> Prop) (S : B -> B -> Prop)
  (g : A -> B) l :
  (forall a b, R a b -> S (g a) (g b)) ->
  StronglySorted R l -> StronglySorted S (map g l).
Proof.
  intros Hg. induction 1 as [|x l Hs IH Hall]; simpl; constructor; [exact IH|].
  rewrite Forall_forall in *. intros y Hy. apply in_map_iff in Hy.
  destruct Hy as [a [<- Ha]]. apply Hg. now apply Hall.
Qed.

Lemma regions_strongly_sorted campaigns :
  StronglySorted revenueNotBelow (aggregateRegionalPerformance campaigns).
Proof.
  apply Sorted_StronglySorted_on; [apply revenueNotBelow_trans|].
  unfold aggregateRegionalPerformance, aggregateRegionalPerformanceLogged. cbn [fst].
  apply sort_sorted with (P := finiteRegion).
  - intros x y [_ Hx] [_ Hy] H. unfold byRevenueDescending in H.
    rewrite gt_sub_zero_finite in H by assumption.
    unfold revenueNotBelow. now apply not_gt_le_finite.
  - intros x y [_ Hx] [_ Hy] H. unfold byRevenueDescending in H.
    rewrite gt_sub_zero_finite in H by assumption.
    unfold revenueNotBelow. now apply gt_le_asym.
  - apply accumulateRegions_finite.
Qed.

Lemma regions_finite campaigns :
  Forall finiteRegion (aggregateRegionalPerformance campaigns).
Proof.
  eapply Permutation_Forall; [|apply accumulateRegions_finite].
  apply sort_perm.
Qed.

(** X8.  For any campaign list the region aggregates are a rearrangement
    of the buckets in which every aggregate has at least the revenue of
    every aggregate behind it. *)
Theorem regions_sorted_by_revenue_descending :
  forall campaigns : list Campaign.t,
    StronglySorted revenueNotBelow (aggregateRegionalPerformance campaigns)
    /\ Permutation (JsMap.values (totals (accumulateRegions campaigns)))
         (aggregateRegionalPerformance campaigns).
Proof.
  intros campaigns. split; [apply regions_strongly_sorted | apply sort_perm].
Qed.

(** X9.  The region shown as top city, the first aggregate, has the
    largest revenue of all the aggregates. *)
Theorem top_city_has_the_largest_revenue :
  forall (campaigns : list Campaign.t) (top r : RegionAggregate.t),
    topRevenueRegion (aggregateRegionalPerformance campaigns) = Some top ->
    In r (aggregateRegionalPerformance campaigns) ->
    le (RegionAggregate.revenue r) (RegionAggregate.revenue top) = true.
Proof.
  intros campaigns top r Htop Hin.
  pose proof (regions_strongly_sorted campaigns) as Hs.
  pose proof (regions_finite campaigns) as Hf.
  unfold topRevenueRegion in Htop.
  destruct (aggregateRegionalPerformance campaigns) as [|x l]; [discriminate|].
  injection Htop as ->. destruct Hin as [<-|Hin].
  - apply le_refl_finite. inversion Hf as [|? ? [_ Hr] _]. exact Hr.
  - inversion Hs as [|? ? _ Hall]; subst.
    rewrite Forall_forall in Hall. now apply Hall.
Qed.

End RegionOrder.

Import RegionExamples.

(** Riyadh, with revenue 200, is in front of Dubai, with 110. *)
Lemma top_city_has_the_largest_revenue_witness :
  le (RegionAggregate.revenue (nth 1 (aggregateRegionalPerformance gulf) noRegion))
     (RegionAggregate.revenue (nth 0 (aggregateRegionalPerformance gulf) noRegion))
  = true.
Proof.
  apply (top_city_has_the_largest_revenue gulf).
  - vm_compute. reflexivity.
  - vm_compute. right. left. reflexivity.
Defined.

Example regions_of_the_gulf :
  map (fun a => (RegionAggregate.region a, RegionAggregate.revenue a))
    (aggregateRegionalPerformance gulf)
  = [("Riyadh", ofZ 200); ("Dubai", ofZ 110)]
  /\ snd (aggregateRegionalPerformanceLogged gulf) = [["Atlantis"]].
Proof. split; vm_compute; reflexivity. Qed.

Section RegionWarning.
Context {unicode : Unicode}.

Lemma missing_fold stats acc :
  NoDup (missingRegions acc) ->
  let out := fold_left addRegionStat stats acc in
  NoDup (missingRegions out)
  /\ forall name,
       In name (missingRegions out)
       <-> In name (missingRegions acc)
           \/ exists s, In s stats /\ RegionStat.region s = name
                        /\ resolveCoordinates name = None.
Proof.
  revert acc. induction stats as [|s l IH]; intros acc Hnd; cbn [fold_left].
  - split; [exact Hnd|]. intros name. split; [now left|].
    intros [H|[s [[] _]]]. exact H.
  - assert (Hnd' : NoDup (missingRegions (addRegionStat acc s))).
    { unfold addRegionStat.
      destruct (resolveCoordinates (RegionStat.region s)); cbn [missingRegions];
        [exact Hnd | now apply setAdd_NoDup]. }
    destruct (IH _ Hnd') as [Hout Hiff]. split; [exact Hout|].
    intros name. rewrite Hiff. unfold addRegionStat.
    destruct (resolveCoordinates (RegionStat.region s)) as [c|] eqn:E;
      cbn [missingRegions].
    + split.
      * intros [H|[s' [Hs' H]]]; [now left|]. right. exists s'. split; [now right|exact H].
      * intros [H|[s' [[<-|Hs'] [Hn Hr]]]]; [now left | | right; exists s'; auto].
        subst name. congruence.
    + rewrite setAdd_In. split.
      * intros [[->|H]|[s' [Hs' H]]].
        -- right. exists s. repeat split; [now left | exact E].
        -- now left.
        -- right. exists s'. split; [now right | exact H].
      * intros [H|[s' [[<-|Hs'] [Hn Hr]]]].
        -- left. now right.
        -- left. left. now symmetry.
        -- right. exists s'. auto.
Qed.

(** X10.  For any campaign list the names kept for the warning are the
    names of the entries that resolve to no coordinates, each of them
    once; the aggregator writes one warning with these names when there
    is such a name and writes nothing otherwise. *)
Theorem region_warning_lists_the_unresolved_names :
  forall campaigns : list Campaign.t,
    let missing := missingRegions (accumulateRegions campaigns) in
    NoDup missing
    /\ (forall name,
          In name missing
          <-> exists s, In s (allRegionStats campaigns)
                        /\ RegionStat.region s = name
                        /\ resolveCoordinates name = None)
    /\ snd (aggregateRegionalPerformanceLogged campaigns)
       = match missing with [] => [] | _ :: _ => [missing] end.
Proof.
  intros campaigns missing. unfold missing.
  rewrite accumulateRegions_allRegionStats.
  destruct (@missing_fold (allRegionStats campaigns)
              {| totals := JsMap.empty _ _; missingRegions := [] |})
    as [Hnd Hiff]; [constructor|].
  split; [exact Hnd|]. split.
  - intros name. rewrite Hiff. cbn [missingRegions]. split.
    + intros [[]|H]. exact H.
    + intros H. now right.
  - unfold aggregateRegionalPerformanceLogged. cbn [snd].
    rewrite accumulateRegions_allRegionStats.
    destruct (missingRegions (fold_left _ _ _)); reflexivity.
Qed.

End RegionWarning.

(** ** The map points and the totals of the region page *)

Import MapSpec.

Section MapPoints.
Context {unicode : Unicode}.

(** X12.  For any campaign list every point of the revenue map and of
    the spend map has a positive value, the points of the revenue map
    come with descending values, and neither map has more points than
    there are region aggregates. *)
Theorem map_points_are_positive_and_ordered :
  forall campaigns : list Campaign.t,
    let aggregates := aggregateRegionalPerformance campaigns in
    Forall positive (revenueMapData aggregates)
    /\ Forall positive (spendMapData aggregates)
    /\ StronglySorted valueNotBelow (revenueMapData aggregates)
    /\ (List.length (revenueMapData aggregates) <= regionCount aggregates)%nat
    /\ (List.length (spendMapData aggregates) <= regionCount aggregates)%nat.
Proof.
  intros campaigns aggregates.
  split; [|split; [|split; [|split]]].
  - unfold revenueMapData. apply Forall_forall. intros p Hp.
    apply in_map_iff in Hp. destruct Hp as [a [<- Ha]].
    apply filter_In in Ha. exact (proj2 Ha).
  - unfold spendMapData. apply Forall_forall. intros p Hp.
    apply in_map_iff in Hp. destruct Hp as [a [<- Ha]].
    apply filter_In in Ha. exact (proj2 Ha).
  - unfold revenueMapData.
    apply StronglySorted_map with (R := revenueNotBelow); [intros a b H; exact H|].
    apply StronglySorted_filter. apply regions_strongly_sorted.
  - unfold revenueMapData, regionCount. rewrite length_map. apply filter_length_le.
  - unfold spendMapData, regionCount. rewrite length_map. apply filter_length_le.
Qed.

End MapPoints.

Example totals_of_the_gulf :
  totalRevenue (aggregateRegionalPerformance gulf) = ofZ 310
  /\ totalSpend (aggregateRegionalPerformance gulf) = ofZ 87
  /\ regionCount (aggregateRegionalPerformance gulf) = 2%nat.
Proof. repeat split; vm_compute; reflexivity. Qed.

(** ** The weekly aggregates: distinct keys *)

Lemma addWeek_set totals w :
  exists v,
    addWeek totals w = sset totals (weekKey w) v
    /\ (exists d,
           WeeklyAggregate.spend v
           = add (WeeklyAggregate.spend (nullish (sget totals (weekKey w)) d))
                 (finiteOrZero (WeekStat.spend w))
           /\ WeeklyAggregate.spend d = zero)
    /\ (exists d,
           WeeklyAggregate.revenue v
           = add (WeeklyAggregate.revenue (nullish (sget totals (weekKey w)) d))
                 (finiteOrZero (WeekStat.revenue w))
           /\ WeeklyAggregate.revenue d = zero).
Proof.
  unfold addWeek. eexists. split; [reflexivity|].
  split; eexists; split; reflexivity.
Qed.

Lemma weekly_keys_fold weeks :
  let t := fold_left addWeek weeks (JsMap.empty _ _) in
  NoDup (JsMap.keys t)
  /\ (forall key, In key (JsMap.keys t) <-> exists w, In w weeks /\ weekKey w = key).
Proof.
  induction weeks as [|w l IH] using rev_ind.
  - cbn. split; [constructor|].
    intros key. split; [intros [] | intros [w [[] _]]].
  - cbv zeta in *. rewrite fold_left_app. cbn [fold_left].
    destruct IH as (Hnd & Hiff).
    set (t := fold_left addWeek l (JsMap.empty _ _)) in *.
    destruct (addWeek_set t w) as [v [E _]].
    split.
    + rewrite E. unfold sset. now apply (NoDup_keys_set String.eqb string_eqb_spec).
    + intros key. rewrite E. unfold sset.
      rewrite (In_keys_set String.eqb string_eqb_spec), Hiff. split.
      * intros [->|[w' [Hw' Hk]]].
        -- exists w. split; [apply in_or_app; right; now left | reflexivity].
        -- exists w'. split; [apply in_or_app; now left | exact Hk].
      * intros [w' [Hw' Hk]]. apply in_app_or in Hw'.
        destruct Hw' as [Hw'|[<-|[]]]; [right; now exists w' | left; now symmetry].
Qed.

(** X15.  Whatever the date parser, the weekly aggregates have one
    element for each joined key that occurs among the weekly entries: no
    key has two buckets, a key has a bucket exactly when an entry has it,
    and there are as many aggregates as keys. *)
Theorem weekly_aggregates_one_per_key :
  forall (getTime : string -> number) (campaigns : list Campaign.t),
    NoDup (JsMap.keys (weeklyTotals campaigns))
    /\ (forall key,
          In key (JsMap.keys (weeklyTotals campaigns))
          <-> exists w, In w (allWeeks campaigns) /\ weekKey w = key)
    /\ List.length (aggregateWeeklyPerformance getTime campaigns)
       = List.length (JsMap.keys (weeklyTotals campaigns)).
Proof.
  intros getTime campaigns.
  assert (Hp : Permutation (JsMap.values (weeklyTotals campaigns))
                 (aggregateWeeklyPerformance getTime campaigns)) by apply sort_perm.
  rewrite <- (Permutation_length Hp), length_keys_values.
  rewrite weeklyTotals_allWeeks in *.
  destruct (weekly_keys_fold (allWeeks campaigns)) as (Hnd & Hiff).
  repeat split; try assumption; apply Hiff.
Qed.

(** ** The page without data *)

Import EmptyPage.

Lemma aggregate_without_segments campaigns :
  Forall withoutSegments campaigns ->
  aggregateCampaignMetrics campaigns = emptyAggregates.
Proof.
  intros H. unfold aggregateCampaignMetrics.
  induction H as [|c l Hc _ IH]; [reflexivity|]. cbn [fold_left].
  rewrite addCampaign_no_breakdown; [exact IH|].
  destruct Hc as [-> | ->]; reflexivity.
Qed.

(** X16.  A campaign list in which no campaign brings a segment gives
    the page without data: gender totals of zero, the five canonical age
    groups, no chart point and no table row.  The page is the same when
    the fetch fails, when the status is no success, and when the body has
    no campaign list. *)
Theorem page_without_data :
  (forall campaigns : list Campaign.t,
      Forall withoutSegments campaigns -> pageData campaigns = emptyPage)
  /\ (forall reason : string, page (Rejected reason) = Fulfilled emptyPage)
  /\ (forall (statusText : string) (body : settled MarketingData),
         page (Fulfilled {| ok := false; statusText := statusText; json := body |})
         = Fulfilled emptyPage)
  /\ (forall statusText : string,
         page (Fulfilled {| ok := true; statusText := statusText;
                            json := Fulfilled {| campaigns := None |} |})
         = Fulfilled emptyPage).
Proof.
  split; [|repeat split].
  intros campaigns H. unfold pageData.
  rewrite (aggregate_without_segments H). reflexivity.
Qed.

Lemma page_without_data_witness :
  pageData [unbrokenCampaign; emptyCampaign] = emptyPage.
Proof.
  apply (proj1 page_without_data).
  repeat constructor.
Defined.

(** ** [Math.max] *)

Lemma max2_finite_bounds acc x :
  acc = NegInf \/ isFinite acc = true ->
  isFinite x = true ->
  isFinite (JsMath.max2 acc x) = true
  /\ le acc (JsMath.max2 acc x) = true
  /\ le x (JsMath.max2 acc x) = true
  /\ (JsMath.max2 acc x = acc \/ JsMath.max2 acc x = x).
Proof.
  intros Hacc Hx. destruct x as [b| | |]; try discriminate.
  destruct Hacc as [-> | Hacc].
  - change (JsMath.max2 NegInf (Fin b)) with (Fin b).
    repeat split; auto. now apply le_refl_finite.
  - destruct acc as [a| | |]; try discriminate.
    unfold JsMath.max2. destruct (gt (Fin a) (Fin b)) eqn:E.
    + repeat split; auto.
      * now apply le_refl_finite.
      * now apply gt_le_asym.
    + repeat split; auto.
      * now apply not_gt_le_finite.
      * now apply le_refl_finite.
Qed.

Lemma max_fold_bounds l acc :
  acc = NegInf \/ isFinite acc = true ->
  Forall (fun x => isFinite x = true) l ->
  let m := fold_left JsMath.max2 l acc in
  (m = NegInf \/ isFinite m = true)
  /\ le acc m = true
  /\ (forall x, In x l -> le x m = true)
  /\ (m = acc \/ In m l).
Proof.
  revert acc. induction l as [|x l IH]; intros acc Hacc Hl; cbn [fold_left].
  - split; [exact Hacc|]. split; [|split; [intros x [] | now left]].
    destruct Hacc as [-> | H]; [reflexivity | now apply le_refl_finite].
  - inversion Hl as [|? ? Hx Hl']; subst.
    destruct (@max2_finite_bounds acc x Hacc Hx) as (Hf & Ha & Hxm & Hor).
    destruct (IH (JsMath.max2 acc x) (or_intror Hf) Hl') as (Hm & Hle & Hall & Hin).
    split; [exact Hm|]. split; [eapply le_trans; eassumption|]. split.
    + intros y [<-|Hy]; [eapply le_trans; eassumption | now apply Hall].
    + destruct Hin as [Hin|Hin]; [|right; now right].
      rewrite Hin. destruct Hor as [->| ->]; [now left | right; now left].
Qed.

(** ** The line chart *)

Import LineChart.

Lemma maxValue_bounds data :
  Forall (fun p => isFinite (DataPoint.value p) = true) data ->
  exists m : Qc,
    maxValue data = Fin m
    /\ (0 <= m)%Qc
    /\ forall p, In p data -> le (DataPoint.value p) (Fin m) = true.
Proof.
  intros H. unfold maxValue, JsMath.max.
  assert (Hl : Forall (fun x => isFinite x = true) (map DataPoint.value data ++ [zero])).
  { apply Forall_app. split; [|repeat constructor].
    apply Forall_forall. intros x Hx. apply in_map_iff in Hx.
    destruct Hx as [p [<- Hp]]. rewrite Forall_forall in H. now apply H. }
  destruct (@max_fold_bounds _ NegInf (or_introl eq_refl) Hl) as (Hm & _ & Hall & _).
  cbv zeta in *.
  set (m := fold_left JsMath.max2 (map DataPoint.value data ++ [zero]) NegInf) in *.
  assert (Hz : le zero m = true).
  { apply Hall. apply in_or_app. right. now left. }
  destruct m as [q| | |] eqn:Em; try discriminate Hz;
    try (destruct Hm as [Hm|Hm]; discriminate Hm).
  exists q. split; [reflexivity|]. split.
  - now apply le_Fin in Hz.
  - intros p Hp. apply Hall. apply in_or_app. left. now apply in_map.
Qed.

(** The divisor of the chart is positive whatever the data. *)
Lemma safeMaxValue_positive data : gt (safeMaxValue data) zero = true.
Proof.
  unfold safeMaxValue. destruct (gt (maxValue data) zero) eqn:E; [exact E|reflexivity].
Qed.

Lemma Qcle_div_l (a b m : Qc) : (0 < m)%Qc -> (a <= b * m)%Qc -> (a / m <= b)%Qc.
Proof.
  intros Hm H. apply Qcmult_lt_0_le_reg_r with m; [exact Hm|].
  replace (a / m * m)%Qc with a; [exact H|].
  field. intros E. rewrite E in Hm. now apply (Qclt_not_eq _ _ Hm).
Qed.

Lemma Qcle_div_r (a b m : Qc) : (0 < m)%Qc -> (a * m <= b)%Qc -> (a <= b / m)%Qc.
Proof.
  intros Hm H. apply Qcmult_lt_0_le_reg_r with m; [exact Hm|].
  replace (b / m * m)%Qc with b; [exact H|].
  field. intros E. rewrite E in Hm. now apply (Qclt_not_eq _ _ Hm).
Qed.

Lemma div_Fin_pos (a b : Qc) : (0 < b)%Qc -> div (Fin a) (Fin b) = Fin (a / b).
Proof.
  intros Hb.
  change (div (Fin a) (Fin b))
    with (match (b ?= 0)%Qc with Eq => scaleInf true a | _ => Fin (a / b) end).
  now rewrite (proj1 (Qcgt_alt b 0) Hb).
Qed.

Lemma unit_interval (v m : Qc) :
  (0 <= v)%Qc -> (v <= m)%Qc -> (0 < m)%Qc ->
  (0 <= 1 + - (v / m))%Qc /\ (1 + - (v / m) <= 1)%Qc.
Proof.
  intros Hv Hvm Hm. split.
  - apply (proj1 (Qcle_minus_iff (v / m) 1)).
    apply Qcle_div_l; [exact Hm | now rewrite Qcmult_1_l].
  - apply Qcle_minus_iff.
    replace (1 + - (1 + - (v / m)))%Qc with (v / m)%Qc by ring.
    apply Qcle_div_r; [exact Hm | now rewrite Qcmult_0_l].
Qed.

Lemma pointY_range (h m v : Qc) :
  (0 <= h + - Q2Qc (inject_Z 36) + - Q2Qc (inject_Z 48))%Qc ->
  (0 < m)%Qc -> (0 <= v)%Qc -> (v <= m)%Qc ->
  le margin_top (pointY (Fin h) (Fin m) (Fin v)) = true
  /\ le (pointY (Fin h) (Fin m) (Fin v)) (add margin_top (innerHeight (Fin h))) = true.
Proof.
  intros Hh Hm Hv Hvm.
  destruct (@unit_interval v m Hv Hvm Hm) as [Ht0 Ht1].
  assert (Hg : gt (Fin m) zero = true) by (apply (proj2 (gt_Fin m 0)); exact Hm).
  unfold pointY. rewrite Hg, (@div_Fin_pos v m Hm).
  unfold innerHeight, margin_top, margin_bottom, one, ofZ in *. cbn [sub add neg mul].
  set (H := (h + - Q2Qc (inject_Z 36) + - Q2Qc (inject_Z 48))%Qc) in *.
  set (t := (Q2Qc (inject_Z 1) + - (v / m))%Qc) in *.
  split; apply le_Fin.
  - apply Qcle_minus_iff.
    replace (Q2Qc (inject_Z 36) + t * H + - Q2Qc (inject_Z 36))%Qc with (t * H)%Qc by ring.
    rewrite <- (Qcmult_0_l H). now apply Qcmult_le_compat_r.
  - apply Qcplus_le_compat; [apply Qcle_refl|].
    rewrite <- (Qcmult_1_l H) at 2. now apply Qcmult_le_compat_r.
Qed.

Lemma mapIndexed_In {A B : Type} (f : A -> nat -> B) l index b :
  In b (mapIndexed f l index) -> exists a k, In a l /\ b = f a k.
Proof.
  revert index. induction l as [|a l IH]; intros index; simpl; [intros []|].
  intros [<-|H].
  - exists a, index. split; [now left | reflexivity].
  - destruct (IH _ H) as [a' [k [Ha' ->]]]. exists a', k. split; [now right | reflexivity].
Qed.

Lemma mapIndexed_map {A B C : Type} (f : A -> nat -> B) (g : B -> C) (h : nat -> C)
  l index :
  (forall a k, g (f a k) = h k) ->
  map g (mapIndexed f l index) = map h (seq index (List.length l)).
Proof.
  intros Hg. revert index. induction l as [|a l IH]; intros index; simpl; [reflexivity|].
  now rewrite Hg, IH.
Qed.

Lemma mapIndexed_map_item {A B C : Type} (f : A -> nat -> B) (g : B -> C) (h : A -> C)
  l index :
  (forall a k, g (f a k) = h a) ->
  map g (mapIndexed f l index) = map h l.
Proof.
  intros Hg. revert index. induction l as [|a l IH]; intros index; simpl; [reflexivity|].
  now rewrite Hg, IH.
Qed.

Lemma margins_sum :
  (- Q2Qc (inject_Z 36) + - Q2Qc (inject_Z 48))%Qc = (- Q2Qc (inject_Z 84))%Qc.
Proof. apply Qc_is_canon. reflexivity. Qed.

(** X17.  For a chart of finite height of at least 84 (the two vertical
    margins) over data whose values are finite and not negative, every
    point is drawn inside the plot: its [y] is between the top margin and
    the base line.  The value the chart divides by is positive whatever
    the data, so the branch for a divisor of zero is never taken. *)
Theorem chart_points_stay_in_the_plot :
  forall (height : option number) (data : list DataPoint.t) (pts : list Point.t),
    chart height data = Some pts ->
    isFinite (nullish height DEFAULT_HEIGHT) = true ->
    le (ofZ 84) (nullish height DEFAULT_HEIGHT) = true ->
    Forall (fun p => nonNegative (DataPoint.value p)) data ->
    gt (safeMaxValue data) zero = true
    /\ Forall
         (fun pt =>
            le margin_top (Point.y pt) = true
            /\ le (Point.y pt)
                 (add margin_top (innerHeight (nullish height DEFAULT_HEIGHT))) = true)
         pts.
Proof.
  intros height data pts Hchart Hfin Hheight Hdata.
  split; [apply safeMaxValue_positive|].
  destruct data as [|p0 data']; [discriminate|].
  injection Hchart as <-.
  set (data := p0 :: data') in *.
  destruct (nullish height DEFAULT_HEIGHT) as [h| | |]; try discriminate.
  assert (Hh : (0 <= h + - Q2Qc (inject_Z 36) + - Q2Qc (inject_Z 48))%Qc).
  { apply le_Fin in Hheight. rewrite <- Qcplus_assoc, margins_sum.
    apply (proj1 (Qcle_minus_iff (Q2Qc (inject_Z 84)) h)). exact Hheight. }
  assert (Hvalues : Forall (fun p => isFinite (DataPoint.value p) = true) data).
  { eapply Forall_impl; [|exact Hdata]. intros p [H _]. exact H. }
  destruct (maxValue_bounds Hvalues) as [m' (Hmax & Hm0 & Hbound)].
  assert (Hsafe : exists m : Qc,
             safeMaxValue data = Fin m /\ (0 < m)%Qc
             /\ forall p, In p data -> le (DataPoint.value p) (Fin m) = true).
  { unfold safeMaxValue. rewrite Hmax. destruct (gt (Fin m') zero) eqn:E.
    - exists m'. split; [reflexivity|]. split; [|exact Hbound].
      now apply (proj1 (gt_Fin m' 0)).
    - exists (Q2Qc (inject_Z 1)). split; [reflexivity|]. split; [reflexivity|].
      intros p Hp. eapply le_trans; [apply Hbound, Hp|].
      apply le_Fin. apply Qcle_trans with 0%Qc; [|discriminate].
      apply Qcnot_lt_le. intros Hlt.
      apply (proj2 (gt_Fin m' 0)) in Hlt.
      change (Fin 0%Qc) with zero in Hlt. congruence. }
  destruct Hsafe as [m (Hsafe & Hm & Hle)].
  apply Forall_forall. intros pt Hpt.
  unfold points in Hpt. apply mapIndexed_In in Hpt.
  destruct Hpt as [p [k [Hp ->]]]. cbn [Point.y]. rewrite Hsafe.
  rewrite Forall_forall in Hdata. destruct (Hdata p Hp) as [Hpf Hp0].
  specialize (Hle p Hp).
  destruct (DataPoint.value p) as [v| | |]; try discriminate.
  apply pointY_range; try assumption.
  - now apply le_Fin in Hp0.
  - now apply le_Fin in Hle.
Qed.

Import ChartExamples.

(** Values 30, 120 and 0 on the default height of 320. *)
Lemma chart_points_stay_in_the_plot_witness :
  Forall
    (fun pt =>
       le margin_top (Point.y pt) = true
       /\ le (Point.y pt) (add margin_top (innerHeight DEFAULT_HEIGHT)) = true)
    (points DEFAULT_HEIGHT threePoints).
Proof.
  apply (@chart_points_stay_in_the_plot None threePoints (points DEFAULT_HEIGHT threePoints)).
  - reflexivity.
  - reflexivity.
  - reflexivity.
  - repeat constructor.
Defined.

Example chart_of_three_points :
  map (fun pt => (Point.x pt, Point.y pt)) (points DEFAULT_HEIGHT threePoints)
  = [ (ofZ 60, ofZ 213); (ofZ 180, ofZ 36); (ofZ 300, ofZ 272) ].
Proof. vm_compute. repeat (f_equal; try (apply Qc_is_canon; reflexivity)). Qed.

Lemma natQc_pred n : (1 <= n)%nat -> (natQc n + - Q2Qc (inject_Z 1))%Qc = natQc (n - 1).
Proof.
  intros Hn. destruct n as [|k]; [lia|].
  rewrite natQc_succ. replace (S k - 1)%nat with k by lia.
  change (Q2Qc (inject_Z 1)) with 1%Qc. ring.
Qed.

Lemma natQc_positive n : (1 <= n)%nat -> (0 < natQc n)%Qc.
Proof.
  intros Hn. apply (proj1 (gt_Fin (natQc n) 0)).
  change (Fin 0%Qc) with zero. apply natQc_pos. lia.
Qed.

Lemma innerWidth_spec n :
  (1 <= n)%nat ->
  exists W : Qc,
    innerWidth n = Fin W
    /\ (natQc (n - 1) * Q2Qc (inject_Z 80) <= W)%Qc
    /\ (Q2Qc (inject_Z 240) <= W)%Qc.
Proof.
  intros Hn. unfold innerWidth.
  change (sub (ofNat n) one) with (Fin (natQc n + - Q2Qc (inject_Z 1))).
  rewrite (natQc_pred Hn).
  set (a := (natQc (n - 1) * Q2Qc (inject_Z 80))%Qc).
  change (JsMath.max [mul (Fin (natQc (n - 1))) (ofZ 80); ofZ 240])
    with (if gt (Fin a) (ofZ 240) then Fin a else ofZ 240).
  destruct (gt (Fin a) (ofZ 240)) eqn:E.
  - exists a. split; [reflexivity|]. split; [apply Qcle_refl|].
    apply Qclt_le_weak. now apply (proj1 (gt_Fin a (Q2Qc (inject_Z 240)))).
  - exists (Q2Qc (inject_Z 240)). split; [reflexivity|]. split; [|apply Qcle_refl].
    apply le_Fin. now apply not_gt_le_finite.
Qed.

Lemma pointX_form n :
  (2 <= n)%nat ->
  exists W : Qc,
    innerWidth n = Fin W
    /\ (natQc (n - 1) * Q2Qc (inject_Z 80) <= W)%Qc
    /\ forall i,
         pointX n i = Fin (Q2Qc (inject_Z 60) + natQc i / natQc (n - 1) * W).
Proof.
  intros Hn. destruct (@innerWidth_spec n ltac:(lia)) as [W (HW & Hstep & _)].
  exists W. split; [exact HW|]. split; [exact Hstep|].
  intros i. unfold pointX. rewrite HW.
  replace (n =? 1)%nat with false by (symmetry; apply Nat.eqb_neq; lia).
  change (sub (ofNat n) one) with (Fin (natQc n + - Q2Qc (inject_Z 1))).
  rewrite (@natQc_pred n ltac:(lia)).
  change (ofNat i) with (Fin (natQc i)).
  rewrite (@div_Fin_pos (natQc i) (natQc (n - 1)) (@natQc_positive (n - 1) ltac:(lia))).
  reflexivity.
Qed.

(** X18.  The chart has one point for each data point, in the order of
    the data and with its label and value.  A single point is centered at
    x = 180.  With two or more points the first is on the left margin,
    the last on the right edge of the plot, and each point is to the
    right of the one before it; the plot is at least 240 wide. *)
Theorem chart_points_are_spread :
  forall (height : number) (data : list DataPoint.t),
    let n := List.length data in
    map Point.x (points height data) = map (pointX n) (seq 0 n)
    /\ map Point.label (points height data) = map DataPoint.label data
    /\ map Point.value (points height data) = map DataPoint.value data
    /\ pointX 1 0 = ofZ 180
    /\ ((1 <= n)%nat -> le (ofZ 240) (innerWidth n) = true)
    /\ ((2 <= n)%nat ->
        pointX n 0 = margin_left
        /\ pointX n (n - 1) = add margin_left (innerWidth n)
        /\ forall i, (S i < n)%nat ->
                     lt (pointX n i) (pointX n (S i)) = true).
Proof.
  intros height data n.
  split; [|split; [|split; [|split; [|split]]]].
  - unfold points. now apply mapIndexed_map.
  - unfold points. now apply mapIndexed_map_item.
  - unfold points. now apply mapIndexed_map_item.
  - vm_compute. apply Fin_ext. reflexivity.
  - intros Hn. destruct (innerWidth_spec Hn) as [W (-> & _ & H240)].
    now apply le_Fin.
  - intros Hn. destruct (pointX_form Hn) as [W (HW & Hstep & Hx)].
    assert (Hm : (0 < natQc (n - 1))%Qc) by (apply natQc_positive; lia).
    assert (Hne : natQc (n - 1) <> 0%Qc).
    { intros E. rewrite E in Hm. now apply (Qclt_not_eq _ _ Hm). }
    split; [|split].
    + rewrite Hx. unfold margin_left, ofZ. f_equal;
        try (change (natQc 0) with 0%Qc; field; exact Hne).
    + rewrite Hx, HW. unfold margin_left, ofZ. cbn [add]. f_equal.
      field; try exact Hne.
    + intros i Hi. rewrite !Hx. unfold lt. apply (proj2 (gt_Fin _ _)).
      rewrite natQc_succ. apply Qclt_minus_iff.
      replace (Q2Qc (inject_Z 60) + (natQc i + 1) / natQc (n - 1) * W
               + - (Q2Qc (inject_Z 60) + natQc i / natQc (n - 1) * W))%Qc
        with (W / natQc (n - 1))%Qc by (field; try exact Hne).
      apply Qclt_le_trans with (Q2Qc (inject_Z 80)); [reflexivity|].
      apply Qcle_div_r; [exact Hm|]. now rewrite Qcmult_comm.
Qed.

(** Three points: x = 60, 180 and 300. *)
Lemma chart_points_are_spread_witness :
  lt (pointX 3 0) (pointX 3 1) = true.
Proof.
  apply (proj2 (proj2 (proj2 (proj2 (proj2
           (chart_points_are_spread DEFAULT_HEIGHT threePoints)))))); simpl; lia.
Defined.

(** ** [Math.min] and the bubble map *)

Import BubbleMap.

Lemma le_PosInf x : x = PosInf \/ isFinite x = true -> le x PosInf = true.
Proof. intros [-> | H]; [reflexivity|]. destruct x; try discriminate. reflexivity. Qed.

Lemma min2_finite_bounds acc x :
  acc = PosInf \/ isFinite acc = true ->
  isFinite x = true ->
  isFinite (JsMath.min2 acc x) = true
  /\ le (JsMath.min2 acc x) acc = true
  /\ le (JsMath.min2 acc x) x = true
  /\ (JsMath.min2 acc x = acc \/ JsMath.min2 acc x = x).
Proof.
  intros Hacc Hx. destruct x as [b| | |]; try discriminate.
  destruct Hacc as [-> | Hacc].
  - change (JsMath.min2 PosInf (Fin b)) with (Fin b).
    repeat split; auto. now apply le_refl_finite.
  - destruct acc as [a| | |]; try discriminate.
    unfold JsMath.min2. destruct (gt (Fin a) (Fin b)) eqn:E.
    + repeat split; auto.
      * now apply gt_le_asym.
      * now apply le_refl_finite.
    + repeat split; auto.
      * now apply le_refl_finite.
      * now apply not_gt_le_finite.
Qed.

Lemma min_fold_bounds l acc :
  acc = PosInf \/ isFinite acc = true ->
  Forall (fun x => isFinite x = true) l ->
  let m := fold_left JsMath.min2 l acc in
  (m = PosInf \/ isFinite m = true)
  /\ le m acc = true
  /\ (forall x, In x l -> le m x = true)
  /\ (m = acc \/ In m l).
Proof.
  revert acc. induction l as [|x l IH]; intros acc Hacc Hl; cbn [fold_left].
  - split; [exact Hacc|]. split; [|split; [intros x [] | now left]].
    destruct Hacc as [-> | H]; [reflexivity | now apply le_refl_finite].
  - inversion Hl as [|? ? Hx Hl']; subst.
    destruct (@min2_finite_bounds acc x Hacc Hx) as (Hf & Ha & Hxm & Hor).
    destruct (IH (JsMath.min2 acc x) (or_intror Hf) Hl') as (Hm & Hle & Hall & Hin).
    split; [exact Hm|]. split; [eapply le_trans; eassumption|]. split.
    + intros y [<-|Hy]; [eapply le_trans; eassumption | now apply Hall].
    + destruct Hin as [Hin|Hin]; [|right; now right].
      rewrite Hin. destruct Hor as [->| ->]; [now left | right; now left].
Qed.

(** Smallest and largest of a list of finite numbers that is not empty. *)
Lemma min_max_finite l c :
  Forall (fun x => isFinite x = true) l -> In c l ->
  exists a b : Qc,
    JsMath.min l = Fin a /\ JsMath.max l = Fin b
    /\ forall x : Qc, In (Fin x) l -> (a <= x)%Qc /\ (x <= b)%Qc.
Proof.
  intros Hl Hc. rewrite Forall_forall in Hl. pose proof (Hl c Hc) as Hcf.
  destruct c as [c| | |]; try discriminate.
  destruct (@min_fold_bounds l PosInf (or_introl eq_refl) (proj2 (Forall_forall _ _) Hl))
    as (Hm & _ & Hmin & _).
  destruct (@max_fold_bounds l NegInf (or_introl eq_refl) (proj2 (Forall_forall _ _) Hl))
    as (HM & _ & Hmax & _).
  cbv zeta in *. fold (JsMath.min l) in *. fold (JsMath.max l) in *.
  pose proof (Hmin _ Hc) as Hlo. pose proof (Hmax _ Hc) as Hhi.
  destruct (JsMath.min l) as [a| | |]; try discriminate Hlo;
    try (destruct Hm as [Hm|Hm]; discriminate Hm).
  destruct (JsMath.max l) as [b| | |]; try discriminate Hhi;
    try (destruct HM as [HM|HM]; discriminate HM).
  exists a, b. split; [reflexivity|]. split; [reflexivity|].
  intros x Hx. split; apply le_Fin; [now apply Hmin | now apply Hmax].
Qed.

Lemma max_pair (x y : Qc) :
  exists m : Qc, JsMath.max [Fin x; Fin y] = Fin m /\ (x <= m)%Qc /\ (y <= m)%Qc.
Proof.
  change (JsMath.max [Fin x; Fin y]) with (if gt (Fin x) (Fin y) then Fin x else Fin y).
  destruct (gt (Fin x) (Fin y)) eqn:E.
  - exists x. split; [reflexivity|]. split; [apply Qcle_refl|].
    apply Qclt_le_weak. now apply gt_Fin.
  - exists y. split; [reflexivity|]. split; [|apply Qcle_refl].
    apply le_Fin. now apply not_gt_le_finite.
Qed.

(** A coordinate of the data lies in the window of its axis. *)
Lemma normalized_unit l (c : Qc) :
  Forall (fun x => isFinite x = true) l -> In (Fin c) l ->
  exists n : Qc, normalized (axis l) (Fin c) = Fin n /\ (0 <= n)%Qc /\ (n <= 1)%Qc.
Proof.
  intros Hl Hc.
  destruct (@min_max_finite l (Fin c) Hl Hc) as [a [b (Hmin & Hmax & Hbounds)]].
  destruct (Hbounds c Hc) as [Hac Hcb].
  unfold normalized, axis. cbn [paddedMin range]. rewrite Hmin, Hmax.
  cbn [sub add neg].
  change zero with (Fin 0%Qc).
  destruct (max_pair (b + - a) 0) as [s (-> & _ & Hs0)].
  unfold quarter, one, ofZ. cbn [mul].
  destruct (max_pair (Q2Qc (inject_Z 1)) (s * Q2Qc (1 # 4))) as [p (-> & Hp1 & _)].
  cbn [sub add neg].
  destruct (max_pair (b + p + - (a + - p)) (Q2Qc (inject_Z 2))) as [r (-> & Hr & Hr2)].
  assert (Hp : (0 < p)%Qc).
  { apply Qclt_le_trans with (Q2Qc (inject_Z 1)); [reflexivity | exact Hp1]. }
  assert (Hrpos : (0 < r)%Qc).
  { apply Qclt_le_trans with (Q2Qc (inject_Z 2)); [reflexivity | exact Hr2]. }
  rewrite (@div_Fin_pos (c + - (a + - p)) r Hrpos).
  exists ((c + - (a + - p)) / r)%Qc. split; [reflexivity|]. split.
  - apply Qcle_div_r; [exact Hrpos|]. rewrite Qcmult_0_l.
    replace (c + - (a + - p))%Qc with ((c + - a) + p)%Qc by ring.
    rewrite <- (Qcplus_0_l 0). apply Qcplus_le_compat.
    + now apply (proj1 (Qcle_minus_iff a c)).
    + now apply Qclt_le_weak.
  - apply Qcle_div_l; [exact Hrpos|]. rewrite Qcmult_1_l.
    apply Qcle_trans with (b + p + - (a + - p))%Qc; [|exact Hr].
    replace (c + - (a + - p))%Qc with (c + (p + - a))%Qc by ring.
    replace (b + p + - (a + - p))%Qc with (b + p + (p + - a))%Qc by ring.
    apply Qcplus_le_compat; [|apply Qcle_refl].
    rewrite <- (Qcplus_0_r c). apply Qcplus_le_compat; [exact Hcb|].
    now apply Qclt_le_weak.
Qed.

Lemma scaled_range (base n w : Qc) :
  (0 <= n)%Qc -> (n <= 1)%Qc -> (0 <= w)%Qc ->
  le (Fin base) (add (Fin base) (mul (Fin n) (Fin w))) = true
  /\ le (add (Fin base) (mul (Fin n) (Fin w))) (add (Fin base) (Fin w)) = true.
Proof.
  intros Hn0 Hn1 Hw. cbn [add mul]. split; apply le_Fin.
  - apply Qcle_minus_iff.
    replace (base + n * w + - base)%Qc with (n * w)%Qc by ring.
    rewrite <- (Qcmult_0_l w). now apply Qcmult_le_compat_r.
  - apply Qcplus_le_compat; [apply Qcle_refl|].
    rewrite <- (Qcmult_1_l w) at 2. now apply Qcmult_le_compat_r.
Qed.

Lemma margins_sum_128 :
  (- Q2Qc (inject_Z 56) + - Q2Qc (inject_Z 72))%Qc = (- Q2Qc (inject_Z 128))%Qc.
Proof. apply Qc_is_canon. reflexivity. Qed.

Lemma onTheGlobe_finite item :
  onTheGlobe item ->
  isFinite (JsMath.toNumber (MapPoint.latitude item)) = true
  /\ isFinite (JsMath.toNumber (MapPoint.longitude item)) = true.
Proof.
  intros (H1 & H2 & H3 & H4).
  destruct (JsMath.toNumber (MapPoint.latitude item));
    try discriminate H1; try discriminate H2.
  destruct (JsMath.toNumber (MapPoint.longitude item));
    try discriminate H3; try discriminate H4.
  split; reflexivity.
Qed.

(** X19.  For a bubble map of finite height of at least 128 (the two
    vertical margins) over places on the globe (every point has a
    latitude between -90 and 90 and a longitude between -180 and 180),
    the centre of every bubble is inside the plot: x between the left
    margin and the right edge of the plot, y between the top margin and
    the bottom edge. *)
Theorem bubble_centres_stay_in_the_plot :
  forall (height : option number) (data : list MapPoint.t)
         (placed : list (MapPoint.t * number * number)),
    centres height data = Some placed ->
    isFinite (nullish height MAP_HEIGHT) = true ->
    le (ofZ 128) (nullish height MAP_HEIGHT) = true ->
    Forall onTheGlobe data ->
    Forall
      (fun entry =>
         insidePlot (nullish height MAP_HEIGHT) (snd (fst entry)) (snd entry))
      placed.
Proof.
  intros height data placed Hc Hfin Hheight Hdata.
  assert (Hplaced : placed
            = map (fun item =>
                     (item, centreX data item,
                      centreY (nullish height MAP_HEIGHT) data item)) data).
  { destruct data; [discriminate|]. unfold centres in Hc. congruence. }
  clear Hc. subst placed.
  destruct (nullish height MAP_HEIGHT) as [h| | |]; try discriminate.
  assert (Hh : (0 <= h + - Q2Qc (inject_Z 56) + - Q2Qc (inject_Z 72))%Qc).
  { apply le_Fin in Hheight. rewrite <- Qcplus_assoc, margins_sum_128.
    apply (proj1 (Qcle_minus_iff (Q2Qc (inject_Z 128)) h)). exact Hheight. }
  assert (Hlat : Forall (fun x => isFinite x = true) (latitudes data)).
  { apply Forall_forall. intros x Hx. apply in_map_iff in Hx.
    destruct Hx as [item [<- Hitem]]. rewrite Forall_forall in Hdata.
    exact (proj1 (onTheGlobe_finite (Hdata item Hitem))). }
  assert (Hlon : Forall (fun x => isFinite x = true) (longitudes data)).
  { apply Forall_forall. intros x Hx. apply in_map_iff in Hx.
    destruct Hx as [item [<- Hitem]]. rewrite Forall_forall in Hdata.
    exact (proj2 (onTheGlobe_finite (Hdata item Hitem))). }
  apply Forall_forall. intros entry Hentry. apply in_map_iff in Hentry.
  destruct Hentry as [item [<- Hitem]]. cbn [fst snd].
  rewrite Forall_forall in Hdata.
  destruct (onTheGlobe_finite (Hdata item Hitem)) as [Hla Hlo].
  assert (Hinlat : In (JsMath.toNumber (MapPoint.latitude item)) (latitudes data)).
  { unfold latitudes. now apply (in_map (fun i => JsMath.toNumber (MapPoint.latitude i))). }
  assert (Hinlon : In (JsMath.toNumber (MapPoint.longitude item)) (longitudes data)).
  { unfold longitudes. now apply (in_map (fun i => JsMath.toNumber (MapPoint.longitude i))). }
  unfold insidePlot, centreX, centreY.
  destruct (JsMath.toNumber (MapPoint.latitude item)) as [la| | |]; try discriminate.
  destruct (JsMath.toNumber (MapPoint.longitude item)) as [lo| | |]; try discriminate.
  destruct (@normalized_unit _ la Hlat Hinlat) as [nla (-> & Hla0 & Hla1)].
  destruct (@normalized_unit _ lo Hlon Hinlon) as [nlo (-> & Hlo0 & Hlo1)].
  assert (Hw : exists w : Qc, innerWidth = Fin w /\ (0 <= w)%Qc).
  { eexists. split; [reflexivity | discriminate]. }
  destruct Hw as [w [-> Hw]].
  destruct (@scaled_range (Q2Qc (inject_Z 72)) nlo w Hlo0 Hlo1 Hw) as [Hx1 Hx2].
  split; [exact Hx1|]. split; [exact Hx2|].
  unfold innerHeight, margin_top, margin_bottom, one, ofZ. cbn [sub add neg].
  apply scaled_range; [| |exact Hh].
  - apply (proj1 (Qcle_minus_iff nla (Q2Qc (inject_Z 1)))). exact Hla1.
  - apply Qcle_minus_iff. change (Q2Qc (inject_Z 1)) with 1%Qc.
    replace (1 + - (1 + - nla))%Qc with nla by ring.
    exact Hla0.
Qed.

Lemma bubble_centres_stay_in_the_plot_witness :
  exists placed,
    centres None MapExamples.gulfMap = Some placed
    /\ List.length placed = 2%nat
    /\ Forall
         (fun entry => insidePlot MAP_HEIGHT (snd (fst entry)) (snd entry))
         placed.
Proof.
  eexists. split; [reflexivity|]. split; [reflexivity|].
  apply (@bubble_centres_stay_in_the_plot None MapExamples.gulfMap).
  - reflexivity.
  - reflexivity.
  - reflexivity.
  - vm_compute. repeat constructor.
Defined.

(** ** A point without coordinates *)

Lemma add_NaN_r x : add x NaN = NaN.
Proof. destruct x; reflexivity. Qed.

Lemma max2_NaN_r x : JsMath.max2 x NaN = NaN.
Proof. destruct x; reflexivity. Qed.

Lemma min2_NaN_r x : JsMath.min2 x NaN = NaN.
Proof. destruct x; reflexivity. Qed.

Lemma fold_min2_NaN l : fold_left JsMath.min2 l NaN = NaN.
Proof. induction l as [|x l IH]; [reflexivity | exact IH]. Qed.

Lemma min_NaN l acc : In NaN l -> fold_left JsMath.min2 l acc = NaN.
Proof.
  revert acc. induction l as [|x l IH]; intros acc; [intros []|].
  intros [-> | H]; cbn [fold_left].
  - rewrite min2_NaN_r. apply fold_min2_NaN.
  - now apply IH.
Qed.

(** [Math.min] of the coordinates is [NaN] as soon as one of them is, and
    so is the position of every coordinate on the axis. *)
Lemma normalized_NaN l c : In NaN l -> normalized (axis l) c = NaN.
Proof.
  intros H. unfold normalized, axis. cbn [paddedMin range].
  unfold JsMath.min. rewrite (@min_NaN l PosInf H).
  unfold sub. cbn [add neg]. rewrite add_NaN_r. reflexivity.
Qed.

(** X20.  One point without a latitude (it reads as [NaN]) puts the
    centre of every bubble of the map at the height [NaN], and one point
    without a longitude puts every centre at the abscissa [NaN]:
    [Math.min] of the coordinates is [NaN], and with it the window of the
    axis. *)
Theorem point_without_coordinates_blanks_the_map :
  forall (height : option number) (data : list MapPoint.t)
         (placed : list (MapPoint.t * number * number)),
    centres height data = Some placed ->
    (Exists (fun item => JsMath.toNumber (MapPoint.latitude item) = NaN) data ->
     Forall (fun entry => snd entry = NaN) placed)
    /\ (Exists (fun item => JsMath.toNumber (MapPoint.longitude item) = NaN) data ->
        Forall (fun entry => snd (fst entry) = NaN) placed).
Proof.
  intros height data placed Hc.
  assert (Hplaced : placed
            = map (fun item =>
                     (item, centreX data item,
                      centreY (nullish height MAP_HEIGHT) data item)) data).
  { destruct data; [discriminate|]. unfold centres in Hc. congruence. }
  clear Hc. subst placed. split; intros Hex; apply Exists_exists in Hex;
    destruct Hex as [bad [Hbad Hnan]]; apply Forall_forall; intros entry Hentry;
    apply in_map_iff in Hentry; destruct Hentry as [item [<- _]]; cbn [fst snd].
  - unfold centreY. rewrite normalized_NaN.
    + unfold sub. cbn [neg]. rewrite add_NaN_r. cbn [mul]. first [apply add_NaN_r | reflexivity].
    + rewrite <- Hnan. unfold latitudes.
      now apply (in_map (fun i => JsMath.toNumber (MapPoint.latitude i))).
  - unfold centreX. rewrite normalized_NaN.
    + cbn [mul]. first [apply add_NaN_r | reflexivity].
    + rewrite <- Hnan. unfold longitudes.
      now apply (in_map (fun i => JsMath.toNumber (MapPoint.longitude i))).
Qed.

Lemma point_without_coordinates_blanks_the_map_witness :
  exists placed,
    centres None MapExamples.strayMap = Some placed
    /\ List.length placed = 2%nat
    /\ Forall (fun entry => snd entry = NaN) placed
    /\ Forall (fun entry => snd (fst entry) = NaN) placed.
Proof.
  eexists. split; [reflexivity|]. split; [reflexivity|].
  destruct (@point_without_coordinates_blanks_the_map
              None MapExamples.strayMap _ eq_refl) as [Hy Hx].
  split.
  - apply Hy. vm_compute. apply Exists_cons_tl, Exists_cons_hd. reflexivity.
  - apply Hx. vm_compute. apply Exists_cons_tl, Exists_cons_hd. reflexivity.
Defined.
